(** * Chronic-Pain-Assessment-Application: quiz reducer, routing rule,
      validation helpers and the API client, embedded and verified.

    Sources embedded here:
    - [src/src/context/QuizContext.tsx] : [QuizState], [quizReducer]
    - [src/unnamed/part_000], the cellular science page :
        [validateSubmission], [determineRoute], [handleSubmit]
    - [src/unnamed/part_006], the input sanitization utility :
        [stripHtmlTags], [sanitizeWithDomPurify], [sanitizeEmail]
    - [src/utils/validation.ts], validation utilities : [validateEmail]
    - [src/utils/validation.ts], API service utility :
        [getRetryDelay], [isRetryableError], [getCsrfTokenForRequest],
        [requiresCsrfToken], [apiFetch], [mapHttpStatusToErrorCode],
        [isValidEmail], [isValidPhone], [submitAssessment]

    Strings are [string]s whose characters stand for the code points
    U+0000..U+00FF. A retry count and the attempt counter are [nat],
    other numbers are [Z]. *)

From Stdlib Require Import ZArith String Ascii List Bool Lia.
From stdpp Require Import base strings list gmap pretty.
Import ListNotations.

Local Open Scope string_scope.
Local Open Scope Z_scope.

(* ===================================================================== *)
(** ** JavaScript string primitives used by the sources                   *)
(* ===================================================================== *)

Module JsString.

(** White space of [String.prototype.trim] and of the regex class [\s],
    restricted to U+0000..U+00FF: TAB, LF, VT, FF, CR, SPACE, NBSP. *)
Definition isWhitespace (c : ascii) : bool :=
  let n := nat_of_ascii c in
  ((9 <=? n) && (n <=? 13))%nat || (n =? 32)%nat || (n =? 160)%nat.

Fixpoint trimStart (s : string) : string :=
  match s with
  | EmptyString => EmptyString
  | String c s' => if isWhitespace c then trimStart s' else s
  end.

Fixpoint trimEnd (s : string) : string :=
  match s with
  | EmptyString => EmptyString
  | String c s' =>
      match trimEnd s' with
      | EmptyString => if isWhitespace c then EmptyString
                       else String c EmptyString
      | t => String c t
      end
  end.

(** [s.trim()] *)
Definition trim (s : string) : string := trimEnd (trimStart s).

(** [s.length] *)
Definition length (s : string) : nat := String.length s.

Fixpoint startsWith (p s : string) : bool :=
  match p, s with
  | EmptyString, _ => true
  | String a p', String b s' => if Ascii.eqb a b then startsWith p' s' else false
  | String _ _, EmptyString => false
  end.

(** [s.includes(sub)] *)
Fixpoint includes (s sub : string) : bool :=
  startsWith sub s ||
  match s with
  | EmptyString => false
  | String _ s' => includes s' sub
  end.

Definition mapChars (f : ascii -> ascii) : string -> string :=
  fix go (s : string) : string :=
    match s with
    | EmptyString => EmptyString
    | String c s' => String (f c) (go s')
    end.

Definition upperChar (c : ascii) : ascii :=
  let n := nat_of_ascii c in
  if ((97 <=? n) && (n <=? 122))%nat then ascii_of_nat (n - 32) else c.

Definition lowerChar (c : ascii) : ascii :=
  let n := nat_of_ascii c in
  if ((65 <=? n) && (n <=? 90))%nat then ascii_of_nat (n + 32) else c.

(** [s.toUpperCase()] and [s.toLowerCase()] on the letters a-z / A-Z.
    The sources only compare the results with ASCII words. *)
Definition toUpperCase : string -> string := mapChars upperChar.
Definition toLowerCase : string -> string := mapChars lowerChar.

(** JavaScript truthiness of a string value: the empty string is falsy. *)
Definition truthy (s : string) : bool :=
  match s with EmptyString => false | _ => true end.

(** Truthiness of a value that is a string or [undefined]. *)
Definition truthyOpt (o : option string) : bool :=
  match o with Some s => truthy s | None => false end.

(** [s.substring(0, n)]: a negative [n] counts as 0, an [n] beyond the
    end as the length. *)
Fixpoint takeChars (n : nat) (s : string) : string :=
  match n, s with
  | S n', String c s' => String c (takeChars n' s')
  | _, _ => EmptyString
  end.

Definition substring0 (n : Z) (s : string) : string :=
  takeChars (Z.to_nat n) s.

(** [s.replace(/[^...]/g, '')] for a negated class: the characters of
    the class [keep] stay, all others are removed. *)
Fixpoint keepChars (keep : ascii -> bool) (s : string) : string :=
  match s with
  | EmptyString => EmptyString
  | String c s' =>
      if keep c then String c (keepChars keep s') else keepChars keep s'
  end.

End JsString.

(* ===================================================================== *)
(** ** src/src/context/QuizContext.tsx                                    *)
(* ===================================================================== *)

Module Quiz.

(** A value as it is at run time where nothing checks the declared
    type. The payload of SET_QUALIFICATION_STATUS is built from a parsed
    server reply (Q3Conditions.tsx, lines 62-69), and the reducer spreads
    it into the state as it is: each of the four routing fields holds
    whatever JSON value the reply had under its key, or [undefined] when
    the reply had no such key. *)
Local Unset Elimination Schemes.

Inductive Value :=
| VUndefined
| VNull
| VBool (b : bool)
| VNumber (n : Z)
| VString (s : string)
| VArray (items : list Value)
| VObject (entries : list (string * Value)).

Local Set Elimination Schemes.

Record QuizState := mkQuizState {
  quizId : string;
  currentStep : Z;
  painDuration : string;
  treatmentsTried : list string;
  painMedicationsTypes : list string;
  conditions : list string;
  conditionOther : string;
  missingActivities : list string;
  missingOther : string;
  urgencyLevel : string;
  annualSpending : string;
  openQuestions : string;
  name : string;
  email : string;
  phone : string;
  qualificationStatus : Value;
  treatableConditions : Value;
  nonTreatableConditions : Value;
  requiresManualReview : Value;
  approximatePainStartDate : string;
  wantsNotification : bool
}.

Record ContactPayload := mkContactPayload {
  c_name : string;
  c_email : string;
  c_phone : string
}.

(** [Partial<Pick<QuizState, 'qualificationStatus' | 'treatableConditions'
    | 'nonTreatableConditions' | 'requiresManualReview'>>]: every key may
    be absent ([None]); a key that is present holds a run-time value,
    which may be [undefined] ([Some VUndefined]). *)
Record QualificationPayload := mkQualificationPayload {
  p_qualificationStatus : option Value;
  p_treatableConditions : option Value;
  p_nonTreatableConditions : option Value;
  p_requiresManualReview : option Value
}.

Inductive QuizAction :=
| SET_PAIN_DURATION (payload : string)
| SET_TREATMENTS_TRIED (payload : list string)
| SET_PAIN_MEDICATIONS_TYPES (payload : list string)
| SET_CONDITIONS (payload : list string)
| SET_CONDITION_OTHER (payload : string)
| SET_MISSING_ACTIVITIES (payload : list string)
| SET_MISSING_OTHER (payload : string)
| SET_URGENCY_LEVEL (payload : string)
| SET_ANNUAL_SPENDING (payload : string)
| SET_OPEN_QUESTIONS (payload : string)
| SET_CONTACT_INFO (payload : ContactPayload)
| SET_QUALIFICATION_STATUS (payload : QualificationPayload)
| SET_APPROXIMATE_PAIN_START_DATE (payload : string)
| SET_WANTS_NOTIFICATION (payload : bool)
| NEXT_STEP
| PREV_STEP
| GO_TO_STEP (payload : Z)
| RESET.

(** [{ ...state, field: v }], one updater per field the reducer writes. *)
Definition set_currentStep (v : Z) (s : QuizState) : QuizState :=
  let '(mkQuizState a _ c d e f g h i j k l m n o p q r t u w) := s in
  mkQuizState a v c d e f g h i j k l m n o p q r t u w.
Definition set_painDuration (v : string) (s : QuizState) : QuizState :=
  let '(mkQuizState a b _ d e f g h i j k l m n o p q r t u w) := s in
  mkQuizState a b v d e f g h i j k l m n o p q r t u w.
Definition set_treatmentsTried (v : list string) (s : QuizState) : QuizState :=
  let '(mkQuizState a b c _ e f g h i j k l m n o p q r t u w) := s in
  mkQuizState a b c v e f g h i j k l m n o p q r t u w.
Definition set_painMedicationsTypes (v : list string) (s : QuizState) : QuizState :=
  let '(mkQuizState a b c d _ f g h i j k l m n o p q r t u w) := s in
  mkQuizState a b c d v f g h i j k l m n o p q r t u w.
Definition set_conditions (v : list string) (s : QuizState) : QuizState :=
  let '(mkQuizState a b c d e _ g h i j k l m n o p q r t u w) := s in
  mkQuizState a b c d e v g h i j k l m n o p q r t u w.
Definition set_conditionOther (v : string) (s : QuizState) : QuizState :=
  let '(mkQuizState a b c d e f _ h i j k l m n o p q r t u w) := s in
  mkQuizState a b c d e f v h i j k l m n o p q r t u w.
Definition set_missingActivities (v : list string) (s : QuizState) : QuizState :=
  let '(mkQuizState a b c d e f g _ i j k l m n o p q r t u w) := s in
  mkQuizState a b c d e f g v i j k l m n o p q r t u w.
Definition set_missingOther (v : string) (s : QuizState) : QuizState :=
  let '(mkQuizState a b c d e f g h _ j k l m n o p q r t u w) := s in
  mkQuizState a b c d e f g h v j k l m n o p q r t u w.
Definition set_urgencyLevel (v : string) (s : QuizState) : QuizState :=
  let '(mkQuizState a b c d e f g h i _ k l m n o p q r t u w) := s in
  mkQuizState a b c d e f g h i v k l m n o p q r t u w.
Definition set_annualSpending (v : string) (s : QuizState) : QuizState :=
  let '(mkQuizState a b c d e f g h i j _ l m n o p q r t u w) := s in
  mkQuizState a b c d e f g h i j v l m n o p q r t u w.
Definition set_openQuestions (v : string) (s : QuizState) : QuizState :=
  let '(mkQuizState a b c d e f g h i j k _ m n o p q r t u w) := s in
  mkQuizState a b c d e f g h i j k v m n o p q r t u w.
Definition set_name (v : string) (s : QuizState) : QuizState :=
  let '(mkQuizState a b c d e f g h i j k l _ n o p q r t u w) := s in
  mkQuizState a b c d e f g h i j k l v n o p q r t u w.
Definition set_email (v : string) (s : QuizState) : QuizState :=
  let '(mkQuizState a b c d e f g h i j k l m _ o p q r t u w) := s in
  mkQuizState a b c d e f g h i j k l m v o p q r t u w.
Definition set_phone (v : string) (s : QuizState) : QuizState :=
  let '(mkQuizState a b c d e f g h i j k l m n _ p q r t u w) := s in
  mkQuizState a b c d e f g h i j k l m n v p q r t u w.
Definition set_qualificationStatus (v : Value) (s : QuizState) : QuizState :=
  let '(mkQuizState a b c d e f g h i j k l m n o _ q r t u w) := s in
  mkQuizState a b c d e f g h i j k l m n o v q r t u w.
Definition set_treatableConditions (v : Value) (s : QuizState) : QuizState :=
  let '(mkQuizState a b c d e f g h i j k l m n o p _ r t u w) := s in
  mkQuizState a b c d e f g h i j k l m n o p v r t u w.
Definition set_nonTreatableConditions (v : Value) (s : QuizState) : QuizState :=
  let '(mkQuizState a b c d e f g h i j k l m n o p q _ t u w) := s in
  mkQuizState a b c d e f g h i j k l m n o p q v t u w.
Definition set_requiresManualReview (v : Value) (s : QuizState) : QuizState :=
  let '(mkQuizState a b c d e f g h i j k l m n o p q r _ u w) := s in
  mkQuizState a b c d e f g h i j k l m n o p q r v u w.
Definition set_approximatePainStartDate (v : string) (s : QuizState) : QuizState :=
  let '(mkQuizState a b c d e f g h i j k l m n o p q r t _ w) := s in
  mkQuizState a b c d e f g h i j k l m n o p q r t v w.
Definition set_wantsNotification (v : bool) (s : QuizState) : QuizState :=
  let '(mkQuizState a b c d e f g h i j k l m n o p q r t u _) := s in
  mkQuizState a b c d e f g h i j k l m n o p q r t u v.

(** A key of a spread payload overrides the state exactly when it is
    present, whatever it holds: a key present with the value [undefined]
    overwrites the field with [undefined]. *)
Definition spreadKey {A} (set : A -> QuizState -> QuizState)
    (key : option A) (s : QuizState) : QuizState :=
  match key with
  | Some v => set v s
  | None => s
  end.

(** [{ ...state, ...action.payload }] *)
Definition spreadQualification (p : QualificationPayload) (s : QuizState)
    : QuizState :=
  spreadKey set_requiresManualReview (p_requiresManualReview p)
    (spreadKey set_nonTreatableConditions (p_nonTreatableConditions p)
      (spreadKey set_treatableConditions (p_treatableConditions p)
        (spreadKey set_qualificationStatus (p_qualificationStatus p) s))).

Section Reducer.

(** The module evaluates
    [`quiz_${Date.now()}_${Math.random().toString(36).substr(2, 9)}`]
    once, when it is loaded; the value is fixed afterwards. *)
Variable initialQuizId : string.

Definition initialState : QuizState :=
  {| quizId := initialQuizId;
     currentStep := 1;
     painDuration := "";
     treatmentsTried := [];
     painMedicationsTypes := [];
     conditions := [];
     conditionOther := "";
     missingActivities := [];
     missingOther := "";
     urgencyLevel := "";
     annualSpending := "";
     openQuestions := "";
     name := "";
     email := "";
     phone := "";
     qualificationStatus := VString "";
     treatableConditions := VArray [];
     nonTreatableConditions := VArray [];
     requiresManualReview := VBool false;
     approximatePainStartDate := "";
     wantsNotification := false |}.

Definition quizReducer (state : QuizState) (action : QuizAction) : QuizState :=
  match action with
  | SET_PAIN_DURATION payload => set_painDuration payload state
  | SET_TREATMENTS_TRIED payload => set_treatmentsTried payload state
  | SET_PAIN_MEDICATIONS_TYPES payload => set_painMedicationsTypes payload state
  | SET_CONDITIONS payload => set_conditions payload state
  | SET_CONDITION_OTHER payload => set_conditionOther payload state
  | SET_MISSING_ACTIVITIES payload => set_missingActivities payload state
  | SET_MISSING_OTHER payload => set_missingOther payload state
  | SET_URGENCY_LEVEL payload => set_urgencyLevel payload state
  | SET_ANNUAL_SPENDING payload => set_annualSpending payload state
  | SET_OPEN_QUESTIONS payload => set_openQuestions payload state
  | SET_CONTACT_INFO payload =>
      set_phone (c_phone payload)
        (set_email (c_email payload)
          (set_name (c_name payload) state))
  | SET_QUALIFICATION_STATUS payload => spreadQualification payload state
  | SET_APPROXIMATE_PAIN_START_DATE payload =>
      set_approximatePainStartDate payload state
  | SET_WANTS_NOTIFICATION payload => set_wantsNotification payload state
  | NEXT_STEP => set_currentStep (currentStep state + 1) state
  | PREV_STEP => set_currentStep (Z.max 1 (currentStep state - 1)) state
  | GO_TO_STEP payload => set_currentStep payload state
  | RESET => initialState
  end.

(** [dispatch] called once per action, in order. *)
Definition dispatchAll (state : QuizState) (actions : list QuizAction)
    : QuizState :=
  fold_left quizReducer actions state.

End Reducer.

(** *** Vocabulary of the reducer's properties *)

(** The literal types of [QuizState['qualificationStatus']]. *)
Definition qualificationStatusValues : list string :=
  ["qualified"; "disqualified_too_soon"; "disqualified_non_treatable";
   "manual_review"; ""].

Definition isQualificationStatus (v : Value) : bool :=
  match v with
  | VString s => existsb (String.eqb s) qualificationStatusValues
  | _ => false
  end.

(** An action carries no [qualificationStatus] outside the declared
    literal types. *)
Definition statusTyped (a : QuizAction) : bool :=
  match a with
  | SET_QUALIFICATION_STATUS p =>
      match p_qualificationStatus p with
      | Some v => isQualificationStatus v
      | None => true
      end
  | _ => true
  end.

Inductive Field :=
| FquizId | FcurrentStep | FpainDuration | FtreatmentsTried
| FpainMedicationsTypes | Fconditions | FconditionOther
| FmissingActivities | FmissingOther | FurgencyLevel | FannualSpending
| FopenQuestions | Fname | Femail | Fphone | FqualificationStatus
| FtreatableConditions | FnonTreatableConditions | FrequiresManualReview
| FapproximatePainStartDate | FwantsNotification.

(** Field [f] holds the same value in [s] and [s']. *)
Definition sameField (f : Field) (s s' : QuizState) : Prop :=
  match f with
  | FquizId => quizId s = quizId s'
  | FcurrentStep => currentStep s = currentStep s'
  | FpainDuration => painDuration s = painDuration s'
  | FtreatmentsTried => treatmentsTried s = treatmentsTried s'
  | FpainMedicationsTypes => painMedicationsTypes s = painMedicationsTypes s'
  | Fconditions => conditions s = conditions s'
  | FconditionOther => conditionOther s = conditionOther s'
  | FmissingActivities => missingActivities s = missingActivities s'
  | FmissingOther => missingOther s = missingOther s'
  | FurgencyLevel => urgencyLevel s = urgencyLevel s'
  | FannualSpending => annualSpending s = annualSpending s'
  | FopenQuestions => openQuestions s = openQuestions s'
  | Fname => name s = name s'
  | Femail => email s = email s'
  | Fphone => phone s = phone s'
  | FqualificationStatus => qualificationStatus s = qualificationStatus s'
  | FtreatableConditions => treatableConditions s = treatableConditions s'
  | FnonTreatableConditions =>
      nonTreatableConditions s = nonTreatableConditions s'
  | FrequiresManualReview => requiresManualReview s = requiresManualReview s'
  | FapproximatePainStartDate =>
      approximatePainStartDate s = approximatePainStartDate s'
  | FwantsNotification => wantsNotification s = wantsNotification s'
  end.

(** The fields a [SET_*] action is named after; [None] for the actions
    that are not [SET_*] actions. *)
Definition designated (a : QuizAction) : option (list Field) :=
  match a with
  | SET_PAIN_DURATION _ => Some [FpainDuration]
  | SET_TREATMENTS_TRIED _ => Some [FtreatmentsTried]
  | SET_PAIN_MEDICATIONS_TYPES _ => Some [FpainMedicationsTypes]
  | SET_CONDITIONS _ => Some [Fconditions]
  | SET_CONDITION_OTHER _ => Some [FconditionOther]
  | SET_MISSING_ACTIVITIES _ => Some [FmissingActivities]
  | SET_MISSING_OTHER _ => Some [FmissingOther]
  | SET_URGENCY_LEVEL _ => Some [FurgencyLevel]
  | SET_ANNUAL_SPENDING _ => Some [FannualSpending]
  | SET_OPEN_QUESTIONS _ => Some [FopenQuestions]
  | SET_CONTACT_INFO _ => Some [Fname; Femail; Fphone]
  | SET_QUALIFICATION_STATUS _ =>
      Some [FqualificationStatus; FtreatableConditions;
            FnonTreatableConditions; FrequiresManualReview]
  | SET_APPROXIMATE_PAIN_START_DATE _ => Some [FapproximatePainStartDate]
  | SET_WANTS_NOTIFICATION _ => Some [FwantsNotification]
  | NEXT_STEP | PREV_STEP | GO_TO_STEP _ | RESET => None
  end.

End Quiz.

(* ===================================================================== *)
(** ** src/src/pages/Quiz/Q3Conditions.tsx: the dispatch of the analysis   *)
(* ===================================================================== *)

Module Q3Conditions.
Import Quiz.

(** [analysis.key] for a parsed reply that is not [null]: the value of
    the last entry under [key] of an object (the one [JSON.parse]
    keeps), [undefined] when there is none or when the reply is not an
    object. *)
Definition property (analysis : Value) (key : string) : Value :=
  match analysis with
  | VObject entries =>
      match List.find (fun entry => String.eqb (fst entry) key)
              (List.rev entries) with
      | Some entry => snd entry
      | None => VUndefined
      end
  | _ => VUndefined
  end.

(** The action that [handleContinue] dispatches through
    [setQualificationStatus] once the reply is parsed: all four keys are
    always present, each with what the reply holds. For the reply
    [null] the first property read throws, the [catch] block takes over
    and nothing is dispatched ([None]). *)
Definition qualificationAction (analysis : Value) : option QuizAction :=
  match analysis with
  | VNull | VUndefined => None
  | _ =>
      Some (SET_QUALIFICATION_STATUS
              {| p_qualificationStatus :=
                   Some (property analysis "qualification_status");
                 p_treatableConditions :=
                   Some (property analysis "treatable_conditions");
                 p_nonTreatableConditions :=
                   Some (property analysis "non_treatable_conditions");
                 p_requiresManualReview :=
                   Some (property analysis "requires_manual_review") |})
  end.

End Q3Conditions.

(* ===================================================================== *)
(** ** src/unnamed/part_000: the cellular science page                     *)
(* ===================================================================== *)

Module CellularScience.

Section Page.

(** [isConditionTreatable] is imported from [@data/conditions]; the
    page only calls it, so it is taken as given. *)
Variable isConditionTreatable : string -> bool.

(** Component state read by the handlers. *)
Variable selectedConditions : list string.
Variable otherConditions : string.

Definition validateSubmission : bool :=
  let hasSelectedConditions := (0 <? List.length selectedConditions)%nat in
  let hasOtherConditions :=
    (0 <? JsString.length (JsString.trim otherConditions))%nat in
  if negb hasSelectedConditions && negb hasOtherConditions
  then false
  else true.

Definition determineRoute : string :=
  let hasSelectedConditions := (0 <? List.length selectedConditions)%nat in
  let hasOtherConditions :=
    (0 <? JsString.length (JsString.trim otherConditions))%nat in
  let afterSelected :=
    if hasOtherConditions && negb hasSelectedConditions
    then "/condition-confirmation"
    else "/disqualified" in
  if hasSelectedConditions then
    let hasTreatable :=
      existsb (fun id => isConditionTreatable id) selectedConditions in
    let hasNonTreatable :=
      existsb (fun id => negb (isConditionTreatable id)) selectedConditions in
    if hasNonTreatable && negb hasTreatable then "/disqualified"
    else if hasTreatable then "/condition-confirmation"
    else afterSelected
  else afterSelected.

(** What [handleSubmit] does with the router and the assessment
    context: nothing when validation fails, otherwise it navigates to
    the computed route, calling [disqualify('non-treatable')] first
    when that route is ['/disqualified']. *)
Record Navigation := mkNavigation {
  disqualifyCalled : bool;
  navigatedTo : string
}.

Definition handleSubmit : option Navigation :=
  if negb validateSubmission then None
  else
    let route := determineRoute in
    Some {| disqualifyCalled := String.eqb route "/disqualified";
            navigatedTo := route |}.

End Page.

(** The state update of [handleConditionToggle]: the new value of
    [selectedConditions] computed from the previous one. *)
Definition handleConditionToggle (conditionId : string) (prev : list string)
    : list string :=
  if existsb (String.eqb conditionId) prev
  then List.filter (fun id => negb (String.eqb id conditionId)) prev
  else (prev ++ [conditionId])%list.

End CellularScience.

(* ===================================================================== *)
(** ** Regular expressions of the sources                                 *)
(* ===================================================================== *)

Module Regex.

(** Patterns over character classes; [test] is the match of a pattern
    written between [^] and [$] without flags, that is, of the whole
    string. *)
Inductive regex :=
| Never
| Eps
| Class (p : ascii -> bool)
| Seq (r1 r2 : regex)
| Alt (r1 r2 : regex)
| Star (r : regex).

Fixpoint nullable (r : regex) : bool :=
  match r with
  | Never => false
  | Eps => true
  | Class _ => false
  | Seq r1 r2 => nullable r1 && nullable r2
  | Alt r1 r2 => nullable r1 || nullable r2
  | Star _ => true
  end.

(** Brzozowski derivative: what remains to be matched after [c]. *)
Fixpoint deriv (c : ascii) (r : regex) : regex :=
  match r with
  | Never => Never
  | Eps => Never
  | Class p => if p c then Eps else Never
  | Seq r1 r2 =>
      if nullable r1
      then Alt (Seq (deriv c r1) r2) (deriv c r2)
      else Seq (deriv c r1) r2
  | Alt r1 r2 => Alt (deriv c r1) (deriv c r2)
  | Star r' => Seq (deriv c r') (Star r')
  end.

Fixpoint test (r : regex) (s : string) : bool :=
  match s with
  | EmptyString => nullable r
  | String c s' => test (deriv c r) s'
  end.

(** [r+] and [r{n,}] *)
Definition Plus (r : regex) : regex := Seq r (Star r).

Fixpoint AtLeast (n : nat) (r : regex) : regex :=
  match n with
  | O => Star r
  | S n' => Seq r (AtLeast n' r)
  end.

Definition Char (a : ascii) : regex := Class (Ascii.eqb a).

(** The strings a pattern denotes. *)
Inductive Matches : regex -> string -> Prop :=
| MEps : Matches Eps ""
| MClass p c : p c = true -> Matches (Class p) (String c "")
| MSeq r1 r2 s1 s2 :
    Matches r1 s1 -> Matches r2 s2 -> Matches (Seq r1 r2) (s1 ++ s2)
| MAltL r1 r2 s : Matches r1 s -> Matches (Alt r1 r2) s
| MAltR r1 r2 s : Matches r2 s -> Matches (Alt r1 r2) s
| MStarNil r : Matches (Star r) ""
| MStarCons r s1 s2 :
    Matches r s1 -> Matches (Star r) s2 -> Matches (Star r) (s1 ++ s2).

(** Every character of [s] is in the class [p]. *)
Fixpoint allChars (p : ascii -> bool) (s : string) : bool :=
  match s with
  | EmptyString => true
  | String c s' => p c && allChars p s'
  end.

Definition isDigit (c : ascii) : bool :=
  let n := nat_of_ascii c in ((48 <=? n) && (n <=? 57))%nat.

Definition oneOf (l : list ascii) (c : ascii) : bool :=
  existsb (Ascii.eqb c) l.

End Regex.

(* ===================================================================== *)
(** ** src/unnamed/part_006: input sanitization utility                    *)
(* ===================================================================== *)

Module Sanitizer.

Inductive Config := STRICT_CONFIG | TEXTAREA_CONFIG.

Fixpoint containsChar (a : ascii) (s : string) : bool :=
  match s with
  | EmptyString => false
  | String c s' => Ascii.eqb c a || containsChar a s'
  end.

(** [value.replace(/<[^>]*>/g, '')]: scanning from the left, a ["<"]
    that is followed somewhere by a [">"] is removed together with
    everything up to the first such [">"]; [inTag] is true while the
    scan is inside a removed match. *)
Fixpoint stripFrom (inTag : bool) (s : string) : string :=
  match s with
  | EmptyString => EmptyString
  | String c s' =>
      if inTag then
        if Ascii.eqb c ">" then stripFrom false s' else stripFrom true s'
      else if Ascii.eqb c "<" && containsChar ">" s' then stripFrom true s'
      else String c (stripFrom false s')
  end.

Definition stripHtmlTags (value : string) : string := stripFrom false value.

(** Removal of every angle bracket, apostrophe and double quote: the
    [replace] call of [sanitizeEmail] with a four-character class and
    the [g] flag. *)
Definition doubleQuote : ascii := ascii_of_nat 34.

Fixpoint removeQuotesAndBrackets (s : string) : string :=
  match s with
  | EmptyString => EmptyString
  | String c s' =>
      if Regex.oneOf ["<"; ">"; "'"; doubleQuote]%char c
      then removeQuotesAndBrackets s'
      else String c (removeQuotesAndBrackets s')
  end.

Section WithDom.

(** [typeof window !== 'undefined' && typeof window.document !==
    'undefined'], fixed when the module is loaded. *)
Variable DOM_AVAILABLE : bool.

(** [DOMPurify.sanitize] of the dompurify package; [None] stands for
    a call that throws. *)
Variable DOMPurify_sanitize : string -> Config -> option string.

Definition sanitizeWithDomPurify (value : string) (config : Config)
    : option string :=
  if negb DOM_AVAILABLE then Some (stripHtmlTags value)
  else DOMPurify_sanitize value config.

(** The [try] block yields the cleaned string, the [catch] block
    yields ['']. *)
Definition sanitizeEmail (email : string) : string :=
  match sanitizeWithDomPurify email STRICT_CONFIG with
  | Some sanitized =>
      removeQuotesAndBrackets (JsString.trim sanitized)
  | None => ""
  end.

(** The class [[\d\s\-\+\(\)]] kept by [sanitizePhone]. *)
Definition phoneFormatChar (c : ascii) : bool :=
  Regex.isDigit c || JsString.isWhitespace c
  || Regex.oneOf ["-"; "+"; "("; ")"]%char c.

Definition isLetter (c : ascii) : bool :=
  let n := nat_of_ascii c in
  ((97 <=? n) && (n <=? 122))%nat || ((65 <=? n) && (n <=? 90))%nat.

(** The class [[a-zA-Z\s\-']] kept by [sanitizeName]. *)
Definition nameChar (c : ascii) : bool :=
  isLetter c || JsString.isWhitespace c || Regex.oneOf ["-"; "'"]%char c.

Definition sanitizePhone (phone : string) : string :=
  match sanitizeWithDomPurify phone STRICT_CONFIG with
  | Some sanitized =>
      JsString.keepChars phoneFormatChar (JsString.trim sanitized)
  | None => ""
  end.

(** [maxLength] defaults to 100 when the argument is [undefined]. *)
Definition sanitizeName (name : string) (maxLength : option Z) : string :=
  let maxLength := default 100 maxLength in
  match sanitizeWithDomPurify name STRICT_CONFIG with
  | Some sanitized =>
      let sanitized := JsString.keepChars nameChar (JsString.trim sanitized) in
      if Z.of_nat (JsString.length sanitized) >? maxLength
      then JsString.substring0 maxLength sanitized
      else sanitized
  | None => ""
  end.

(** [SanitizationOptions]: every key is optional. *)
Record SanitizationOptions := mkSanitizationOptions {
  opt_maxLength : option Z;
  opt_trim : option bool;
  opt_allowFormatting : option bool
}.

(** The default argument [{}]. *)
Definition noOptions : SanitizationOptions :=
  mkSanitizationOptions None None None.

Definition sanitizeInput (value : string) (options : SanitizationOptions)
    : string :=
  let maxLength := opt_maxLength options in
  let trim := default true (opt_trim options) in
  let allowFormatting := default false (opt_allowFormatting options) in
  let config := if allowFormatting then TEXTAREA_CONFIG else STRICT_CONFIG in
  match sanitizeWithDomPurify value config with
  | Some sanitized =>
      let sanitized := if trim then JsString.trim sanitized else sanitized in
      match maxLength with
      | Some m =>
          (* [maxLength && sanitized.length > maxLength]: 0 is falsy *)
          if negb (m =? 0) && (Z.of_nat (JsString.length sanitized) >? m)
          then JsString.substring0 m sanitized
          else sanitized
      | None => sanitized
      end
  | None => ""
  end.

Definition sanitizeArray (arr : list string) (options : SanitizationOptions)
    : list string :=
  List.filter (fun item => (0 <? JsString.length item)%nat)
    (List.map (fun item => sanitizeInput item options) arr).

End WithDom.

End Sanitizer.

(* ===================================================================== *)
(** ** src/utils/validation.ts: validation utilities                      *)
(* ===================================================================== *)

Module Validation.

Section WithRules.

Variable DOM_AVAILABLE : bool.
Variable DOMPurify_sanitize : string -> Sanitizer.Config -> option string.

(** [VALIDATION_RULES.EMAIL_REGEX.test] from [./constants]; the
    constant is declared outside the embedded sources. *)
Variable EMAIL_REGEX_test : string -> bool.

Definition validateEmail (email : string) : bool :=
  if negb (JsString.truthy email) then false
  else
    let sanitized :=
      Sanitizer.sanitizeEmail DOM_AVAILABLE DOMPurify_sanitize email in
    if (JsString.length sanitized =? 0)%nat then false
    else if JsString.includes sanitized ".." then false
    else EMAIL_REGEX_test sanitized.

(** *** The other validators

    [VALIDATION_RULES], [ERROR_MESSAGES] and [PAGES] are imported from
    [./constants], which is declared outside the embedded sources; their
    entries are taken as given. *)

Record ValidationRules := mkValidationRules {
  PHONE_MIN_LENGTH : Z;
  NAME_MIN_LENGTH : Z;
  NAME_MAX_LENGTH : Z;
  MIN_CONDITIONS : Z;
  MIN_SENSATIONS : Z
}.

Record ErrorMessages := mkErrorMessages {
  E_MIN_CONDITIONS : string;
  E_MIN_SENSATIONS : string;
  E_REQUIRED_FIELD : string;
  E_INVALID_NAME : string;
  E_INVALID_EMAIL : string;
  E_INVALID_PHONE : string
}.

Record Pages := mkPages {
  PAGE_1 : string; PAGE_2 : string; PAGE_3 : string; PAGE_4 : string;
  PAGE_5 : string; PAGE_6 : string; PAGE_6B : string; PAGE_7 : string;
  PAGE_8 : string; PAGE_9 : string; PAGE_10 : string
}.

Variable VALIDATION_RULES : ValidationRules.
Variable ERROR_MESSAGES : ErrorMessages.
Variable PAGES : Pages.

(** [VALIDATION_RULES.PHONE_REGEX.test] *)
Variable PHONE_REGEX_test : string -> bool.

Record ValidationResult := mkValidationResult {
  isValid : bool;
  errors : list string
}.

(** The common tail [{ isValid: errors.length === 0, errors }]. *)
Definition resultOf (errors : list string) : ValidationResult :=
  {| isValid := (List.length errors =? 0)%nat; errors := errors |}.

Definition validatePhone (phone : string) : bool :=
  if negb (JsString.truthy phone) then false
  else
    let sanitized :=
      Sanitizer.sanitizePhone DOM_AVAILABLE DOMPurify_sanitize phone in
    if (JsString.length sanitized =? 0)%nat then false
    else
      let digitsOnly := JsString.keepChars Regex.isDigit sanitized in
      if Z.of_nat (JsString.length digitsOnly)
         <? PHONE_MIN_LENGTH VALIDATION_RULES
      then false
      else PHONE_REGEX_test sanitized.

Definition validateName (name : string) : bool :=
  if negb (JsString.truthy name) then false
  else
    let trimmed := JsString.trim name in
    if (Z.of_nat (JsString.length trimmed) <? NAME_MIN_LENGTH VALIDATION_RULES)
       || (Z.of_nat (JsString.length trimmed) >? NAME_MAX_LENGTH VALIDATION_RULES)
    then false
    else
      let sanitized :=
        Sanitizer.sanitizeName DOM_AVAILABLE DOMPurify_sanitize name
          (Some (NAME_MAX_LENGTH VALIDATION_RULES)) in
      if (Z.of_nat (JsString.length sanitized)
          <? NAME_MIN_LENGTH VALIDATION_RULES)
         || (Z.of_nat (JsString.length sanitized)
             >? NAME_MAX_LENGTH VALIDATION_RULES)
      then false
      else true.

(** An optional array argument; [None] is [undefined]. *)
Definition validateConditions (conditions : option (list string))
    : ValidationResult :=
  match conditions with
  | None =>
      {| isValid := false; errors := [E_MIN_CONDITIONS ERROR_MESSAGES] |}
  | Some conditions =>
      resultOf
        (if Z.of_nat (List.length conditions) <? MIN_CONDITIONS VALIDATION_RULES
         then [E_MIN_CONDITIONS ERROR_MESSAGES] else [])
  end.

Definition validateSensations (sensations : option (list string))
    : ValidationResult :=
  match sensations with
  | None =>
      {| isValid := false; errors := [E_MIN_SENSATIONS ERROR_MESSAGES] |}
  | Some sensations =>
      resultOf
        (if Z.of_nat (List.length sensations) <? MIN_SENSATIONS VALIDATION_RULES
         then [E_MIN_SENSATIONS ERROR_MESSAGES] else [])
  end.

(** The test shared by the validators of required text answers:
    [!value || typeof value !== 'string' || value.trim().length === 0]. *)
Definition missingText (value : option string) : bool :=
  match value with
  | None => true
  | Some v =>
      negb (JsString.truthy v)
      || (JsString.length (JsString.trim v) =? 0)%nat
  end.

Definition validateRequiredText (value : option string) : ValidationResult :=
  resultOf (if missingText value then [E_REQUIRED_FIELD ERROR_MESSAGES] else []).

Definition validateDuration (duration : option string) : ValidationResult :=
  validateRequiredText duration.

(** A number is an integer or not (a fraction, NaN or an infinity). *)
Inductive NumberValue :=
| Integer (z : Z)
| NotInteger.

Definition validateIntensity (intensity : option NumberValue)
    : ValidationResult :=
  match intensity with
  | None =>
      {| isValid := false; errors := [E_REQUIRED_FIELD ERROR_MESSAGES] |}
  | Some intensity =>
      resultOf
        (if match intensity with
            | Integer z => (z <? MIN_CONDITIONS VALIDATION_RULES) || (z >? 10)
            | NotInteger => true
            end
         then ["Please select a pain intensity level between 1 and 10."]
         else [])
  end.

Definition validateBudgetQuestion (hasBudget : option bool) : ValidationResult :=
  resultOf (match hasBudget with
            | None => [E_REQUIRED_FIELD ERROR_MESSAGES]
            | Some _ => []
            end).

Definition validateBudgetRange (budgetRange : option string) : ValidationResult :=
  validateRequiredText budgetRange.

Definition validateUrgency (urgency : option string) : ValidationResult :=
  validateRequiredText urgency.

Definition validateActivityImpact (activityImpact : option string)
    : ValidationResult :=
  validateRequiredText activityImpact.

Definition nameError (name : option string) : list string :=
  match name with
  | Some n => if negb (JsString.truthy n) || negb (validateName n)
              then [E_INVALID_NAME ERROR_MESSAGES] else []
  | None => [E_INVALID_NAME ERROR_MESSAGES]
  end.

Definition emailError (email : option string) : list string :=
  match email with
  | Some e => if negb (JsString.truthy e) || negb (validateEmail e)
              then [E_INVALID_EMAIL ERROR_MESSAGES] else []
  | None => [E_INVALID_EMAIL ERROR_MESSAGES]
  end.

Definition phoneError (phone : option string) : list string :=
  match phone with
  | Some p => if JsString.truthy p
                 && (0 <? JsString.length (JsString.trim p))%nat
                 && negb (validatePhone p)
              then [E_INVALID_PHONE ERROR_MESSAGES] else []
  | None => []
  end.

(** The three [errors.push] statements, in order. *)
Definition validateContactInfo (name email phone : option string)
    : ValidationResult :=
  resultOf (nameError name ++ emailError email ++ phoneError phone)%list.

Record AssessmentResponses := mkAssessmentResponses {
  r_conditions : option (list string);
  r_sensations : option (list string);
  r_duration : option string;
  r_intensity : option NumberValue;
  r_previousTreatments : option (list string);
  r_hasBudget : option bool;
  r_budgetRange : option string;
  r_urgency : option string;
  r_activityImpact : option string;
  r_goals : option string;
  r_name : option string;
  r_email : option string;
  r_phone : option string;
  r_currentPage : option string
}.

Definition validResult : ValidationResult := {| isValid := true; errors := [] |}.

(** The [switch]: cases are compared in order with [===]. *)
Definition validateCurrentPage (responses : AssessmentResponses)
    : ValidationResult :=
  match r_currentPage responses with
  | None => validResult
  | Some currentPage =>
      let onPage page := String.eqb currentPage (page PAGES) in
      if onPage PAGE_1 then validateConditions (r_conditions responses)
      else if onPage PAGE_2 then validateSensations (r_sensations responses)
      else if onPage PAGE_3 then validateDuration (r_duration responses)
      else if onPage PAGE_4 then validateIntensity (r_intensity responses)
      else if onPage PAGE_5 then validResult
      else if onPage PAGE_6 then validateBudgetQuestion (r_hasBudget responses)
      else if onPage PAGE_6B then validateBudgetRange (r_budgetRange responses)
      else if onPage PAGE_7 then validateUrgency (r_urgency responses)
      else if onPage PAGE_8 then validateActivityImpact (r_activityImpact responses)
      else if onPage PAGE_9 then validResult
      else if onPage PAGE_10 then
        validateContactInfo (r_name responses) (r_email responses)
          (r_phone responses)
      else validResult
  end.

Definition validateAssessment (responses : AssessmentResponses)
    : ValidationResult :=
  let allErrors :=
    (errors (validateConditions (r_conditions responses))
     ++ errors (validateSensations (r_sensations responses))
     ++ errors (validateDuration (r_duration responses))
     ++ errors (validateIntensity (r_intensity responses))
     ++ errors (validateUrgency (r_urgency responses))
     ++ errors (validateActivityImpact (r_activityImpact responses))
     ++ errors (validateContactInfo (r_name responses) (r_email responses)
                  (r_phone responses))
     ++ match r_hasBudget responses with
        | Some true => errors (validateBudgetRange (r_budgetRange responses))
        | _ => []
        end)%list in
  resultOf allErrors.

End WithRules.

End Validation.

(* ===================================================================== *)
(** ** src/utils/validation.ts: API service utility                       *)
(* ===================================================================== *)

Module Api.

Inductive ApiErrorCode :=
| NETWORK_ERROR
| TIMEOUT_ERROR
| VALIDATION_ERROR
| INVALID_EMAIL
| INVALID_PHONE
| SERVER_ERROR
| NOT_FOUND
| UNAUTHORIZED
| FORBIDDEN
| CSRF_TOKEN_MISSING
| CSRF_TOKEN_INVALID
| RATE_LIMIT
| UNKNOWN_ERROR.

Definition ApiErrorCode_eqb (a b : ApiErrorCode) : bool :=
  match a, b with
  | NETWORK_ERROR, NETWORK_ERROR | TIMEOUT_ERROR, TIMEOUT_ERROR
  | VALIDATION_ERROR, VALIDATION_ERROR | INVALID_EMAIL, INVALID_EMAIL
  | INVALID_PHONE, INVALID_PHONE | SERVER_ERROR, SERVER_ERROR
  | NOT_FOUND, NOT_FOUND | UNAUTHORIZED, UNAUTHORIZED
  | FORBIDDEN, FORBIDDEN | CSRF_TOKEN_MISSING, CSRF_TOKEN_MISSING
  | CSRF_TOKEN_INVALID, CSRF_TOKEN_INVALID | RATE_LIMIT, RATE_LIMIT
  | UNKNOWN_ERROR, UNKNOWN_ERROR => true
  | _, _ => false
  end.

(** *** Values parsed from a response body

    [response.json()] yields an arbitrary JSON value. The client reads
    the properties [code], [message] and [error] of it. *)
Inductive JsonField :=
| FieldAbsent                    (* the property reads as [undefined] *)
| FieldNull
| FieldString (s : string)
| FieldOther.                    (* number, boolean, array or object *)

Record ErrorFields := mkErrorFields {
  f_code : JsonField;
  f_message : JsonField;
  f_error : JsonField
}.

Inductive JsonValue :=
| JsonNull
| JsonNonObject                  (* boolean, number, string or array *)
| JsonObject (fields : ErrorFields).

(** The object literal [{}]. *)
Definition emptyObject : JsonValue :=
  JsonObject (mkErrorFields FieldAbsent FieldAbsent FieldAbsent).

(** [ApiResponse<T>]: [success] with [data], or failure with [code].
    The human-readable [error] text of a failure is not represented. *)
Inductive ApiResponse :=
| Success (data : JsonValue)
| Failure (code : ApiErrorCode).

(** [ApiError]: [code] and the optional [statusCode]. *)
Record ApiError := mkApiError {
  code : ApiErrorCode;
  statusCode : option Z
}.

(** What can be thrown inside the [try] block of [apiFetch]. *)
Inductive Thrown :=
| ThrownApiError (e : ApiError)
| ThrownAbortError               (* an error named 'AbortError' *)
| ThrownTypeError                (* an instance of TypeError *)
| ThrownOther.                   (* anything else, e.g. a SyntaxError *)

Record RetryConfig := mkRetryConfig {
  maxRetries : nat;
  baseDelay : Z;
  maxDelay : Z
}.

Definition DEFAULT_RETRY_CONFIG : RetryConfig :=
  {| maxRetries := 3; baseDelay := 1000; maxDelay := 10000 |}.

Definition getRetryDelay (attempt : nat) (config : RetryConfig) : Z :=
  let delay := baseDelay config * 2 ^ Z.of_nat attempt in
  Z.min delay (maxDelay config).

Definition isRetryableError (error : Thrown) : bool :=
  match error with
  | ThrownApiError e =>
      ApiErrorCode_eqb (code e) NETWORK_ERROR ||
      ApiErrorCode_eqb (code e) TIMEOUT_ERROR ||
      match statusCode e with
      | Some st => 500 <=? st
      | None => false
      end
  | ThrownTypeError => true
  | ThrownAbortError | ThrownOther => false
  end.

Definition stateChangingMethods : list string :=
  ["POST"; "PUT"; "DELETE"; "PATCH"].

(** The parameter defaults to ['GET'] when the argument is [undefined]. *)
Definition requiresCsrfToken (method : option string) : bool :=
  let method := default "GET" method in
  existsb (String.eqb (JsString.toUpperCase method)) stateChangingMethods.

Definition mapHttpStatusToErrorCode (status : Z) : ApiErrorCode :=
  if status =? 400 then VALIDATION_ERROR
  else if status =? 401 then UNAUTHORIZED
  else if status =? 403 then FORBIDDEN
  else if status =? 404 then NOT_FOUND
  else if status =? 429 then RATE_LIMIT
  else if (status =? 500) || (status =? 502) || (status =? 503)
          || (status =? 504) then SERVER_ERROR
  else UNKNOWN_ERROR.

(** *** Requests, responses and the observable effects of a call *)

Record RequestInit := mkRequestInit {
  method : option string;
  headers : gmap string string;
  body : option string
}.

Record Response := mkResponse {
  status : Z;
  (** result of [response.json()]; [None] when the promise rejects *)
  json : option JsonValue;
  (** [response.headers.get('X-CSRF-Token')] *)
  csrfHeader : option string
}.

(** [response.ok] *)
Definition ok (r : Response) : bool :=
  (200 <=? status r) && (status r <=? 299).

Inductive FetchOutcome :=
| FetchRejects (e : Thrown)
| FetchResolves (r : Response).

(** Everything outside the client that a call depends on, per attempt
    number of the loop. *)
Record World := mkWorld {
  (** what [getCsrfToken() / fetchCsrfToken()] give for the request *)
  tokenSource : nat -> option string;
  (** how [fetch] settles *)
  fetchOutcome : nat -> FetchOutcome;
  (** whether [refreshCsrfToken()] resolves *)
  refreshSucceeds : bool
}.

Inductive Event :=
| EvFetch (attempt : nat) (url : string) (request : RequestInit)
| EvRefreshCsrfToken
| EvSetCsrfToken (token : string)
| EvSleep (ms : Z).

Definition isFetch (e : Event) : bool :=
  match e with EvFetch _ _ _ => true | _ => false end.

Definition isRefresh (e : Event) : bool :=
  match e with EvRefreshCsrfToken => true | _ => false end.

Definition countFetches (t : list Event) : nat :=
  List.length (List.filter isFetch t).

Definition countRefreshes (t : list Event) : nat :=
  List.length (List.filter isRefresh t).

(** How one run of the [try] block ends. *)
Inductive Completion :=
| Returns (r : ApiResponse)
| Continues                      (* the [continue] after a token refresh *)
| Throws (e : Thrown).

(** [response.json().catch(() => ({}))] *)
Definition errorDataOf (r : Response) : JsonValue :=
  match json r with
  | Some v => v
  | None => emptyObject
  end.

(** Reading a property of [errorData]: a TypeError ([None]) on [null],
    [undefined] on other values that are not objects. *)
Definition readProperty (sel : ErrorFields -> JsonField) (v : JsonValue)
    : option JsonField :=
  match v with
  | JsonNull => None
  | JsonNonObject => Some FieldAbsent
  | JsonObject o => Some (sel o)
  end.

Definition fieldIs (s : string) (f : JsonField) : bool :=
  match f with
  | FieldString s' => String.eqb s' s
  | _ => false
  end.

(** [errorData.code === 'CSRF_TOKEN_INVALID' ||
     errorData.code === 'CSRF_TOKEN_MISSING' ||
     errorData.message?.toLowerCase().includes('csrf')],
    as a boolean; [None] when the evaluation throws a TypeError
    ([errorData] is [null], or [message] is neither a string nor
    nullish and so has no [toLowerCase]). *)
Definition isCsrfError (errorData : JsonValue) : option bool :=
  match readProperty f_code errorData with
  | None => None
  | Some c =>
      if fieldIs "CSRF_TOKEN_INVALID" c || fieldIs "CSRF_TOKEN_MISSING" c
      then Some true
      else
        match readProperty f_message errorData with
        | None => None
        | Some FieldAbsent | Some FieldNull => Some false
        | Some (FieldString m) =>
            Some (JsString.includes (JsString.toLowerCase m) "csrf")
        | Some FieldOther => None
        end
  end.

(** [errorData.error || errorData.message || '...']: only whether the
    reads succeed matters here. *)
Definition errorTextReadable (errorData : JsonValue) : bool :=
  match readProperty f_error errorData with
  | Some _ => true
  | None => false
  end.

Section Client.

(** [process.env.VITEST === 'true'], fixed when the module is loaded. *)
Variable IS_TEST_ENV : bool.

Variable world : World.

Definition getCsrfTokenForRequest (attempt : nat) : option string :=
  if IS_TEST_ENV then Some "test-csrf-token"
  else tokenSource world attempt.

(** [sleep(ms)]: resolves at once in the test environment, and after a
    timer of [ms] milliseconds otherwise. *)
Definition sleep (ms : Z) : list Event :=
  if IS_TEST_ENV then [] else [EvSleep ms].

Section Call.

Variable url : string.
Variable options : RequestInit.
Variable retryConfig : RetryConfig.

Definition shouldUseCsrf : bool :=
  requiresCsrfToken (method options) && negb IS_TEST_ENV.

(** [{ 'Content-Type': 'application/json', ...options.headers }]:
    the caller's entries win. *)
Definition baseHeaders : gmap string string :=
  headers options ∪ {[ "Content-Type" := "application/json" ]}.

Definition requestHeaders (attempt : nat) : gmap string string :=
  if shouldUseCsrf then
    match getCsrfTokenForRequest attempt with
    | Some csrfToken =>
        if JsString.truthy csrfToken
        then <[ "X-CSRF-Token" := csrfToken ]> baseHeaders
        else baseHeaders
    | None => baseHeaders
    end
  else baseHeaders.

(** [{ ...options, signal, credentials: 'include', headers }] *)
Definition requestOf (attempt : nat) : RequestInit :=
  {| method := method options;
     headers := requestHeaders attempt;
     body := body options |}.

(** The statements after [await fetch(...)] for a response. *)
Definition handleResponse (attempt : nat) (response : Response)
    : list Event * Completion :=
  if (status response =? 403) && shouldUseCsrf then
    match isCsrfError (errorDataOf response) with
    | None => ([], Throws ThrownTypeError)
    | Some true =>
        if (attempt =? 0)%nat then
          if refreshSucceeds world
          then ([EvRefreshCsrfToken], Continues)
          else ([EvRefreshCsrfToken], Returns (Failure CSRF_TOKEN_INVALID))
        else ([], Returns (Failure CSRF_TOKEN_INVALID))
    | Some false => ([], Returns (Failure FORBIDDEN))
    end
  else if negb (ok response) then
    if negb (errorTextReadable (errorDataOf response))
    then ([], Throws ThrownTypeError)
    else
      let apiError :=
        {| code := mapHttpStatusToErrorCode (status response);
           statusCode := Some (status response) |} in
      if (400 <=? status response) && (status response <? 500)
      then ([], Returns (Failure (code apiError)))
      else ([], Throws (ThrownApiError apiError))
  else
    match json response with
    | None => ([], Throws ThrownOther)
    | Some data =>
        match csrfHeader response with
        | Some newCsrfToken =>
            if JsString.truthy newCsrfToken
            then ([EvSetCsrfToken newCsrfToken], Returns (Success data))
            else ([], Returns (Success data))
        | None => ([], Returns (Success data))
        end
    end.

(** The [try] block of one loop iteration. *)
Definition tryBlock (attempt : nat) : list Event * Completion :=
  let request := EvFetch attempt url (requestOf attempt) in
  match fetchOutcome world attempt with
  | FetchRejects e => ([request], Throws e)
  | FetchResolves response =>
      let '(events, completion) := handleResponse attempt response in
      (request :: events, completion)
  end.

(** [lastError] as the [catch] block leaves it. *)
Definition caughtAs (error : Thrown) : Thrown :=
  match error with
  | ThrownAbortError =>
      ThrownApiError {| code := TIMEOUT_ERROR; statusCode := None |}
  | ThrownTypeError =>
      ThrownApiError {| code := NETWORK_ERROR; statusCode := None |}
  | _ => error
  end.

(** The statements after the loop; [lastError] is [None] while it
    is still [undefined]. *)
Definition afterLoop (lastError : option Thrown) : ApiResponse :=
  match lastError with
  | Some (ThrownApiError e) => Failure (code e)
  | _ => Failure UNKNOWN_ERROR
  end.

(** The [for] loop from iteration [attempt] on, with [remaining]
    iterations left before [attempt <= retryConfig.maxRetries]
    fails ([remaining = maxRetries + 1 - attempt]). *)
Fixpoint attemptLoop (remaining attempt : nat) (lastError : option Thrown)
    : list Event * ApiResponse :=
  match remaining with
  | O => ([], afterLoop lastError)
  | S remaining' =>
      let '(events, completion) := tryBlock attempt in
      match completion with
      | Returns r => (events, r)
      | Continues =>
          let '(rest, r) := attemptLoop remaining' (S attempt) lastError in
          ((events ++ rest)%list, r)
      | Throws error =>
          let lastError' := caughtAs error in
          if (attempt <? maxRetries retryConfig)%nat
             && isRetryableError lastError'
          then
            let delay := getRetryDelay attempt retryConfig in
            let '(rest, r) :=
              attemptLoop remaining' (S attempt) (Some lastError') in
            ((events ++ sleep delay ++ rest)%list, r)
          else (events, afterLoop (Some lastError'))
      end
  end.

Definition apiFetch : list Event * ApiResponse :=
  attemptLoop (S (maxRetries retryConfig)) 0 None.

End Call.

(** *** submitAssessment *)

Definition notSpaceOrAt (c : ascii) : bool :=
  negb (JsString.isWhitespace c || Ascii.eqb c "@").

(** [/^[^\s@]+@[^\s@]+\.[^\s@]+$/] *)
Definition emailRegex : Regex.regex :=
  Regex.Seq (Regex.Plus (Regex.Class notSpaceOrAt))
    (Regex.Seq (Regex.Char "@")
      (Regex.Seq (Regex.Plus (Regex.Class notSpaceOrAt))
        (Regex.Seq (Regex.Char ".")
          (Regex.Plus (Regex.Class notSpaceOrAt))))).

Definition isValidEmail (email : string) : bool :=
  Regex.test emailRegex email.

Definition phoneChar (c : ascii) : bool :=
  Regex.isDigit c || JsString.isWhitespace c
  || Regex.oneOf ["-"; "+"; "("; ")"]%char c.

(** [/^[\d\s\-\+\(\)]{10,}$/] *)
Definition phoneRegex : Regex.regex :=
  Regex.AtLeast 10 (Regex.Class phoneChar).

Definition isValidPhone (phone : string) : bool :=
  Regex.test phoneRegex phone.

(** [ContactInfo]; [None] is a value that is [undefined] when the
    function runs. *)
Record ContactInfo := mkContactInfo {
  name : option string;
  email : option string;
  phone : option string
}.

Record AssessmentSubmissionPayload := mkPayload {
  assessment : string;
  contactInfo : ContactInfo;
  leadSource : option string
}.

(** [import.meta.env.VITE_API_BASE_URL || ''] *)
Variable API_BASE_URL : string.

(** [JSON.stringify] of the payload extended with the metadata read
    from [navigator], [document] and the clock. *)
Variable stringifyRequest : AssessmentSubmissionPayload -> string.

Definition submitUrl : string :=
  (API_BASE_URL ++ "/api/assessment/submit")%string.

Definition submitAssessment (payload : AssessmentSubmissionPayload)
    : list Event * ApiResponse :=
  let contact := contactInfo payload in
  if negb (JsString.truthyOpt (email contact))
     || negb (isValidEmail (default "" (email contact)))
  then ([], Failure INVALID_EMAIL)
  else if JsString.truthyOpt (phone contact)
          && negb (isValidPhone (default "" (phone contact)))
  then ([], Failure INVALID_PHONE)
  else if negb (JsString.truthyOpt (name contact))
          || (JsString.length (JsString.trim (default "" (name contact)))
              <? 2)%nat
  then ([], Failure VALIDATION_ERROR)
  else
    apiFetch submitUrl
      {| method := Some "POST";
         headers := ∅;
         body := Some (stringifyRequest payload) |}
      DEFAULT_RETRY_CONFIG.

(** *** The other endpoints *)

(** [JSON.stringify({ email, assessmentId, sentAt })], with the clock
    read for [sentAt]. *)
Variable stringifyEmailRequest : string -> string -> string.

Definition emailResultsUrl : string :=
  (API_BASE_URL ++ "/api/email/send-results")%string.

Definition sendEmailResults (email assessmentId : string)
    : list Event * ApiResponse :=
  if negb (JsString.truthy email) || negb (isValidEmail email)
  then ([], Failure INVALID_EMAIL)
  else if negb (JsString.truthy assessmentId)
  then ([], Failure VALIDATION_ERROR)
  else
    apiFetch emailResultsUrl
      {| method := Some "POST";
         headers := ∅;
         body := Some (stringifyEmailRequest email assessmentId) |}
      DEFAULT_RETRY_CONFIG.

Record SaveProgressPayload := mkSaveProgressPayload {
  sp_assessmentId : option string;
  sp_progress : string
}.

(** [JSON.stringify({ ...payload, savedAt })] *)
Variable stringifyProgress : SaveProgressPayload -> string.

(** The literal [{ maxRetries: 1, baseDelay: 500, maxDelay: 1000 }] of
    [saveProgress] and [checkApiHealth]. *)
Definition lowRetryConfig : RetryConfig :=
  {| maxRetries := 1; baseDelay := 500; maxDelay := 1000 |}.

Definition saveProgressUrl : string :=
  (API_BASE_URL ++ "/api/assessment/save-progress")%string.

Definition saveProgress (payload : SaveProgressPayload)
    : list Event * ApiResponse :=
  apiFetch saveProgressUrl
    {| method := Some "POST";
       headers := ∅;
       body := Some (stringifyProgress payload) |}
    lowRetryConfig.

Definition healthUrl : string := (API_BASE_URL ++ "/health")%string.

Definition checkApiHealth : list Event * ApiResponse :=
  apiFetch healthUrl
    {| method := Some "GET"; headers := ∅; body := None |}
    lowRetryConfig.

End Client.

End Api.

(* ===================================================================== *)
(** ** src/unnamed/part_001: the Q2 treatments page                        *)
(* ===================================================================== *)

Module TreatmentsPage.

(** The component state the handlers read and write. *)
Record PageState := mkPageState {
  selected : list string;
  medicationTypes : list string;
  showMedDropdown : bool
}.

Definition includes (l : list string) (id : string) : bool :=
  existsb (String.eqb id) l.

Definition without (id : string) (l : list string) : list string :=
  List.filter (fun s => negb (String.eqb s id)) l.

Definition handleToggle (id : string) (st : PageState) : PageState :=
  if String.eqb id "none" then
    {| selected := ["none"];
       medicationTypes := medicationTypes st;
       showMedDropdown := false |}
  else
    let filtered := without "none" (selected st) in
    if includes (selected st) id then
      if String.eqb id "pain_medications" then
        {| selected := without id filtered;
           medicationTypes := [];
           showMedDropdown := false |}
      else
        {| selected := without id filtered;
           medicationTypes := medicationTypes st;
           showMedDropdown := showMedDropdown st |}
    else
      {| selected := (filtered ++ [id])%list;
         medicationTypes := medicationTypes st;
         showMedDropdown :=
           if String.eqb id "pain_medications" then true
           else showMedDropdown st |}.

Definition handleMedicationToggle (id : string) (st : PageState) : PageState :=
  {| selected := selected st;
     medicationTypes :=
       if includes (medicationTypes st) id
       then without id (medicationTypes st)
       else (medicationTypes st ++ [id])%list;
     showMedDropdown := showMedDropdown st |}.

(** What [handleContinue] dispatches to the quiz context and where it
    navigates. *)
Definition handleContinue (st : PageState) : list Quiz.QuizAction * string :=
  ([Quiz.SET_TREATMENTS_TRIED (selected st);
    Quiz.SET_PAIN_MEDICATIONS_TYPES (medicationTypes st)],
   if includes (selected st) "none"
   then "/quiz/education-q2a-none"
   else "/quiz/connecting-message-q2").

End TreatmentsPage.

(* ===================================================================== *)
(** ** src/utils/validation.ts: request logging                           *)
(* ===================================================================== *)

Module Logging.

Local Unset Elimination Schemes.

(** A parsed payload. The entries of an object are listed in the order
    [Object.keys] enumerates them. *)
Inductive Json :=
| JNull
| JBool (b : bool)
| JNumber (n : Z)
| JString (s : string)
| JArray (items : list Json)
| JObject (entries : list (string * Json)).

Local Set Elimination Schemes.

Definition piiFields : list string :=
  ["name"; "email"; "phone"; "phoneNumber"; "contactInfo"].

Definition isPii (key : string) : bool := existsb (String.eqb key) piiFields.

Definition REDACTED : Json := JString "[REDACTED]".

(** The keys ["0"], ["1"], ... that spreading an array of the given
    length into an object literal creates. *)
Definition indexKeys (n : nat) : list string :=
  List.map (fun i : nat => pretty i) (List.seq 0 n).

(** [sanitizeForLogging]. A value that is falsy or not an object is
    returned as it is. Otherwise the value is spread into a fresh object
    (an array becomes an object keyed by its indices), every own PII key
    is overwritten, and every remaining value that is an object or an
    array is sanitized in turn. *)
Fixpoint sanitizeForLogging (data : Json) : Json :=
  match data with
  | JArray items =>
      JObject (List.combine (indexKeys (List.length items))
                 (List.map sanitizeForLogging items))
  | JObject entries =>
      JObject
        (List.map
           (fun entry : string * Json =>
              let (key, value) := entry in
              if isPii key then (key, REDACTED)
              else (key, sanitizeForLogging value))
           entries)
  | _ => data
  end.

(** No PII key, at any depth, holds anything but the redaction mark. *)
Fixpoint redacted (data : Json) : bool :=
  match data with
  | JArray items => forallb redacted items
  | JObject entries =>
      forallb
        (fun entry : string * Json =>
           let (key, value) := entry in
           if isPii key
           then match value with
                | JString s => String.eqb s "[REDACTED]"
                | _ => false
                end
           else redacted value)
        entries
  | _ => true
  end.

End Logging.

(* ===================================================================== *)
(** ** Vocabulary of the client's properties and example worlds           *)
(* ===================================================================== *)

Module Scenario.
Import Api.

(** A value is absent when it is [undefined] or the empty string: the
    values of a string field for which [!value] holds. *)
Definition absent (o : option string) : Prop := o = None \/ o = Some "".

(** A response body that is CSRF-related in the words of the comment
    above the check: its [code] is 'CSRF_TOKEN_INVALID' or
    'CSRF_TOKEN_MISSING', or its [message] contains 'csrf'. *)
Definition csrfRelated (v : JsonValue) : Prop :=
  exists o, v = JsonObject o /\
    (f_code o = FieldString "CSRF_TOKEN_INVALID"
     \/ f_code o = FieldString "CSRF_TOKEN_MISSING"
     \/ exists m, f_message o = FieldString m
                  /\ JsString.includes m "csrf" = true).

(** Attempt [k] is answered by a 403 that the client classifies as a
    CSRF error. *)
Definition csrfRejected (world : World) (k : nat) : Prop :=
  exists r, fetchOutcome world k = FetchResolves r
            /\ status r = 403
            /\ isCsrfError (errorDataOf r) = Some true.

(** A DOMPurify stand-in for the examples that run without a DOM. *)
Definition noDomPurify (_ : string) (_ : Sanitizer.Config) : option string :=
  None.

Definition jsonBody (c m e : JsonField) : option JsonValue :=
  Some (JsonObject (mkErrorFields c m e)).

Definition respond (st : Z) (b : option JsonValue) : FetchOutcome :=
  FetchResolves {| status := st; json := b; csrfHeader := None |}.

(** A server that answers every attempt in the same way. *)
Definition always (o : FetchOutcome) (refresh : bool) : World :=
  {| tokenSource := fun _ => Some "tok";
     fetchOutcome := fun _ => o;
     refreshSucceeds := refresh |}.

(** A server whose answer depends on the attempt number. *)
Definition scripted (f : nat -> FetchOutcome) (refresh : bool) : World :=
  {| tokenSource := fun _ => Some "tok";
     fetchOutcome := f;
     refreshSucceeds := refresh |}.

Definition request (m : string) : RequestInit :=
  {| method := Some m; headers := ∅; body := None |}.

Definition sleeps (t : list Event) : list Z :=
  flat_map (fun e => match e with EvSleep ms => [ms] | _ => [] end) t.

Definition fetchAttempts (t : list Event) : list nat :=
  flat_map (fun e => match e with EvFetch a _ _ => [a] | _ => [] end) t.

(** The first attempt is rejected with a CSRF error, later attempts
    succeed. *)
Definition csrfRejectedOnce : World :=
  scripted (fun k => match k with
                     | O => respond 403
                              (jsonBody (FieldString "CSRF_TOKEN_INVALID")
                                 FieldAbsent FieldAbsent)
                     | _ => respond 200 (Some JsonNonObject)
                     end) true.

(** The three checks of [submitAssessment], in the words of its
    error messages. *)
Definition emailBad (payload : AssessmentSubmissionPayload) : Prop :=
  let contact := contactInfo payload in
  absent (email contact)
  \/ exists e, email contact = Some e /\ isValidEmail e = false.

Definition phoneBad (payload : AssessmentSubmissionPayload) : Prop :=
  let contact := contactInfo payload in
  exists p, phone contact = Some p /\ p <> "" /\ isValidPhone p = false.

Definition nameBad (payload : AssessmentSubmissionPayload) : Prop :=
  let contact := contactInfo payload in
  absent (name contact)
  \/ exists n, name contact = Some n
               /\ (JsString.length (JsString.trim n) < 2)%nat.

(** Payloads and a serializer for the examples. *)
Definition contactOf (n e p : option string) : AssessmentSubmissionPayload :=
  {| assessment := "{}";
     contactInfo := {| name := n; email := e; phone := p |};
     leadSource := None |}.

Definition stringify (_ : AssessmentSubmissionPayload) : string := "{...}".

End Scenario.

(* ===================================================================== *)
(** ** Vocabulary of the sanitizers' and validators' properties            *)
(* ===================================================================== *)

Module Vocabulary.

(** No ["<"] of [s] is followed, anywhere later, by a [">"]: [s] has no
    substring that the tag pattern of [stripHtmlTags] matches. *)
Fixpoint noTag (s : string) : bool :=
  match s with
  | EmptyString => true
  | String c s' =>
      negb (Ascii.eqb c "<" && Sanitizer.containsChar ">" s') && noTag s'
  end.

(** The characters [sanitizeEmail] removes. *)
Definition quoteOrBracket (c : ascii) : bool :=
  Regex.oneOf ["<"; ">"; "'"; Sanitizer.doubleQuote]%char c.

Definition notQuoteOrBracket (c : ascii) : bool := negb (quoteOrBracket c).

(** DOMPurify stand-ins for the examples: one that throws and one that
    returns its input. *)
Definition throwingPurify (_ : string) (_ : Sanitizer.Config) : option string :=
  None.

Definition identityPurify (v : string) (_ : Sanitizer.Config) : option string :=
  Some v.

(** A validation result is consistent when [isValid] says exactly that
    there are no errors. *)
Definition consistent (r : Validation.ValidationResult) : Prop :=
  Validation.isValid r = true <-> Validation.errors r = [].

(** A text answer that is present and not blank. *)
Definition answered (value : option string) : Prop :=
  exists v, value = Some v /\ JsString.trim v <> "".

(** Constants for the examples. *)
Definition exampleRules : Validation.ValidationRules :=
  Validation.mkValidationRules 10 2 100 1 1.

Definition exampleMessages : Validation.ErrorMessages :=
  Validation.mkErrorMessages "conditions" "sensations" "required" "name"
    "email" "phone".

Definition examplePages : Validation.Pages :=
  Validation.mkPages "p1" "p2" "p3" "p4" "p5" "p6" "p6b" "p7" "p8" "p9" "p10".



(** Stand-ins for [JSON.stringify] in the examples. *)
Definition stringifyEmail (email assessmentId : string) : string :=
  (email ++ "|" ++ assessmentId)%string.

Definition stringifySaved (p : Api.SaveProgressPayload) : string :=
  Api.sp_progress p.


(** An action that cannot move [currentStep] below 1 by itself: every
    action but a [GO_TO_STEP] to a step below 1. *)
Definition keepsStepPositive (a : Quiz.QuizAction) : bool :=
  match a with
  | Quiz.GO_TO_STEP n => 1 <=? n
  | _ => true
  end.

(** A string that starts with a decimal digit. *)
Definition startsWithDigit (s : string) : bool :=
  match s with
  | String c _ => Regex.isDigit c
  | EmptyString => false
  end.

End Vocabulary.

(* ===================================================================== *)
(** * Properties                                                          *)
(* ===================================================================== *)

Module QuizProperties.
Import Quiz.

Example prev_step_at_one :
  currentStep (quizReducer "quiz_1" (initialState "quiz_1") PREV_STEP) = 1.
Proof. reflexivity. Qed.

Example next_then_prev :
  currentStep (dispatchAll "quiz_1" (initialState "quiz_1")
                 [NEXT_STEP; NEXT_STEP; PREV_STEP]) = 2.
Proof. reflexivity. Qed.

Example go_to_step_zero_then_prev :
  currentStep (dispatchAll "quiz_1" (initialState "quiz_1")
                 [GO_TO_STEP 0; PREV_STEP]) = 1.
Proof. reflexivity. Qed.

Lemma currentStep_set v s : currentStep (set_currentStep v s) = v.
Proof. now destruct s. Qed.

Lemma qualificationStatus_spread p s :
  qualificationStatus (spreadQualification p s) =
  default (qualificationStatus s) (p_qualificationStatus p).
Proof.
  destruct s, p as [[st|] [tc|] [nt|] [mr|]]; reflexivity.
Qed.

Lemma prev_step_lower_bound q s : 1 <= currentStep (quizReducer q s PREV_STEP).
Proof. cbn [quizReducer]. rewrite currentStep_set. lia. Qed.

(** C10. [PREV_STEP] yields [currentStep = max(1, currentStep - 1)], so
    after one or more [PREV_STEP] actions [currentStep] is at least 1;
    [NEXT_STEP] yields [currentStep + 1]. *)
Theorem step_actions (q : string) (s : QuizState) :
  currentStep (quizReducer q s PREV_STEP) = Z.max 1 (currentStep s - 1)
  /\ (forall n : nat,
        1 <= currentStep
               (Nat.iter (S n) (fun st => quizReducer q st PREV_STEP) s))
  /\ currentStep (quizReducer q s NEXT_STEP) = currentStep s + 1.
Proof.
  split; [|split].
  - cbn [quizReducer]. apply currentStep_set.
  - intros n. cbn [Nat.iter]. apply prev_step_lower_bound.
  - cbn [quizReducer]. apply currentStep_set.
Qed.

(** C9. A [SET_*] action leaves every field outside its designated
    fields unchanged; [SET_CONTACT_INFO] stores the payload in [name],
    [email] and [phone] and keeps [quizId], [currentStep], the answer
    fields and the routing fields. *)
Theorem set_actions_frame (q : string) (s : QuizState) (a : QuizAction)
    (fs : list Field) (f : Field) (contact : ContactPayload) :
  designated a = Some fs ->
  ~ In f fs ->
  sameField f s (quizReducer q s a)
  /\ (let s' := quizReducer q s (SET_CONTACT_INFO contact) in
      (name s' = c_name contact /\ email s' = c_email contact
       /\ phone s' = c_phone contact)
      /\ (quizId s' = quizId s /\ currentStep s' = currentStep s)
      /\ (painDuration s' = painDuration s
          /\ treatmentsTried s' = treatmentsTried s
          /\ painMedicationsTypes s' = painMedicationsTypes s
          /\ conditions s' = conditions s
          /\ conditionOther s' = conditionOther s
          /\ missingActivities s' = missingActivities s
          /\ missingOther s' = missingOther s
          /\ urgencyLevel s' = urgencyLevel s
          /\ annualSpending s' = annualSpending s
          /\ openQuestions s' = openQuestions s)
      /\ (qualificationStatus s' = qualificationStatus s
          /\ treatableConditions s' = treatableConditions s
          /\ nonTreatableConditions s' = nonTreatableConditions s
          /\ requiresManualReview s' = requiresManualReview s
          /\ approximatePainStartDate s' = approximatePainStartDate s
          /\ wantsNotification s' = wantsNotification s)).
Proof.
  intros Hd Hf. split.
  - destruct a; cbn in Hd; inversion Hd; subst fs; clear Hd;
      try (destruct payload as [[st|] [tc|] [nt|] [mr|]]);
      destruct s, f; cbn in *; first [reflexivity | tauto].
  - destruct s; cbn. repeat split.
Qed.

Lemma set_actions_frame_witness :
  sameField FcurrentStep (initialState "quiz_1")
    (quizReducer "quiz_1" (initialState "quiz_1") (SET_URGENCY_LEVEL "high")).
Proof.
  refine (proj1 (set_actions_frame "quiz_1" (initialState "quiz_1")
                   (SET_URGENCY_LEVEL "high")
                   [FurgencyLevel] FcurrentStep
                   (mkContactPayload "" "" "") _ _)).
  - reflexivity.
  - cbn. intros [H|[]]. discriminate H.
Defined.

Lemma status_preserved (q : string) (s : QuizState) (a : QuizAction) :
  isQualificationStatus (qualificationStatus s) = true ->
  statusTyped a = true ->
  isQualificationStatus (qualificationStatus (quizReducer q s a)) = true.
Proof.
  intros Hs Ha.
  destruct a; cbn [quizReducer];
    try (destruct s; exact Hs); try reflexivity.
  rewrite qualificationStatus_spread.
  cbn in Ha. destruct (p_qualificationStatus payload); cbn; assumption.
Qed.

(** What one action does to [qualificationStatus]. *)
Lemma status_after (q : string) (s : QuizState) (a : QuizAction) :
  qualificationStatus (quizReducer q s a)
  = match a with
    | SET_QUALIFICATION_STATUS payload =>
        default (qualificationStatus s) (p_qualificationStatus payload)
    | RESET => VString ""
    | _ => qualificationStatus s
    end.
Proof.
  destruct a; cbn [quizReducer]; try (now destruct s).
  apply qualificationStatus_spread.
Qed.

Example reply_with_unknown_status :
  Q3Conditions.qualificationAction
    (VObject [("qualification_status", VString "pending");
              ("treatable_conditions", VArray [VString "sciatica"])])
  = Some (SET_QUALIFICATION_STATUS
            (mkQualificationPayload (Some (VString "pending"))
               (Some (VArray [VString "sciatica"]))
               (Some VUndefined) (Some VUndefined))).
Proof. reflexivity. Qed.

(** C7 (as the code has it). [qualificationStatus] is the empty string
    in the initial state. The reducer never checks the value: RESET
    sets the field to the empty string, SET_QUALIFICATION_STATUS with a
    [qualificationStatus] key stores that key's value whatever it is
    ([undefined] included), and every other action leaves the field
    unchanged. So an action applied to a state whose status is one of
    'qualified', 'disqualified_too_soon', 'disqualified_non_treatable',
    'manual_review' and the empty string yields such a state exactly
    when it carries no status outside these five, and the property holds
    after any sequence of such actions. *)
Theorem qualification_status_invariant (q : string) (s : QuizState)
    (a : QuizAction) :
  let valid :=
    fun st => isQualificationStatus (qualificationStatus st) = true in
  let s' := quizReducer q s a in
  qualificationStatus (initialState q) = VString ""
  /\ match a with
     | SET_QUALIFICATION_STATUS payload =>
         match p_qualificationStatus payload with
         | Some v => qualificationStatus s' = v
         | None => qualificationStatus s' = qualificationStatus s
         end
     | RESET => qualificationStatus s' = VString ""
     | _ => qualificationStatus s' = qualificationStatus s
     end
  /\ (valid s -> (valid s' <-> statusTyped a = true))
  /\ (forall actions : list QuizAction,
        valid s ->
        forallb statusTyped actions = true ->
        valid (dispatchAll q s actions)).
Proof.
  cbv zeta. split; [reflexivity|]. split; [|split].
  - rewrite status_after.
    destruct a; try reflexivity.
    now destruct (p_qualificationStatus payload).
  - intros Hs. rewrite status_after.
    destruct a; cbn [statusTyped]; try (split; [reflexivity | intros _; exact Hs]).
    + destruct (p_qualificationStatus payload) as [v|]; cbn [default].
      * reflexivity.
      * split; [reflexivity | intros _; exact Hs].
    + split; reflexivity.
  - intros actions. revert s.
    induction actions as [|b actions IH]; intros s Hs Hall; cbn in *.
    + exact Hs.
    + apply andb_prop in Hall as [Hb Hall].
      apply IH; [now apply status_preserved | exact Hall].
Qed.

Lemma qualification_status_invariant_witness :
  isQualificationStatus
    (qualificationStatus
       (dispatchAll "quiz_1" (initialState "quiz_1")
          [SET_QUALIFICATION_STATUS
             (mkQualificationPayload (Some (VString "manual_review"))
                (Some (VArray [])) (Some (VArray [])) (Some (VBool true)));
           NEXT_STEP;
           SET_QUALIFICATION_STATUS
             (mkQualificationPayload None None None (Some (VBool false)))]))
  = true.
Proof.
  refine (proj2 (proj2 (proj2 (qualification_status_invariant "quiz_1"
                                 (initialState "quiz_1") RESET)))
            _ _ _);
    reflexivity.
Defined.

(** C7 (as stated) fails on the code. The reply of the analysis
    endpoint is dispatched unchecked: a reply whose
    [qualification_status] is 'pending' puts 'pending' into a state that
    satisfied the property, and a reply without that key puts
    [undefined] there, although the old value was the empty string. *)
Lemma qualification_status_counterexample :
  let s := initialState "quiz_1" in
  let after := fun reply =>
    option_map (fun a => qualificationStatus (quizReducer "quiz_1" s a))
      (Q3Conditions.qualificationAction reply) in
  isQualificationStatus (qualificationStatus s) = true
  /\ after (VObject [("qualification_status", VString "pending")])
     = Some (VString "pending")
  /\ isQualificationStatus (VString "pending") = false
  /\ after (VObject []) = Some VUndefined
  /\ isQualificationStatus VUndefined = false.
Proof. cbv zeta. repeat split. Qed.

End QuizProperties.

Module RoutingProperties.
Import CellularScience.

Example only_non_treatable_selected :
  determineRoute (String.eqb "back-pain") ["cancer-pain"; "ms"] "" = "/disqualified".
Proof. reflexivity. Qed.

Example mixed_selection :
  determineRoute (String.eqb "back-pain") ["cancer-pain"; "back-pain"] ""
  = "/condition-confirmation".
Proof. reflexivity. Qed.

Example only_text_filled :
  determineRoute (String.eqb "back-pain") [] "  jaw pain " = "/condition-confirmation".
Proof. reflexivity. Qed.

Example blank_text_only :
  determineRoute (String.eqb "back-pain") [] "   " = "/disqualified".
Proof. reflexivity. Qed.

Lemma length_zero_empty (s : string) :
  (0 <? JsString.length s)%nat = false <-> s = "".
Proof.
  destruct s; cbn; split; intros H; try reflexivity; discriminate H.
Qed.

Lemma none_treatable (isT : string -> bool) (l : list string) :
  (forall id, In id l -> isT id = false) -> existsb (fun id => isT id) l = false.
Proof.
  induction l as [|x l IH]; intros H; cbn; [reflexivity|].
  rewrite (H x (or_introl eq_refl)). apply IH. intros id Hid.
  apply H. now right.
Qed.

Lemma some_treatable (isT : string -> bool) (l : list string) :
  (exists id, In id l /\ isT id = true) -> existsb (fun id => isT id) l = true.
Proof.
  intros [id [Hin Ht]]. apply List.existsb_exists. now exists id.
Qed.

(** C3. [determineRoute] returns one of two routes: '/disqualified' when
    at least one condition is selected and every selected condition is
    non-treatable, '/condition-confirmation' when at least one selected
    condition is treatable, '/condition-confirmation' when nothing is
    selected and the other-conditions text is non-empty after trimming,
    and '/disqualified' in every remaining case. *)
Theorem determineRoute_rules (isConditionTreatable : string -> bool)
    (selectedConditions : list string) (otherConditions : string) :
  let route :=
    determineRoute isConditionTreatable selectedConditions otherConditions in
  let onlyNonTreatable :=
    selectedConditions <> [] /\
    forall id, In id selectedConditions -> isConditionTreatable id = false in
  let someTreatable :=
    exists id, In id selectedConditions /\ isConditionTreatable id = true in
  let onlyText :=
    selectedConditions = [] /\ JsString.trim otherConditions <> "" in
  (route = "/disqualified" \/ route = "/condition-confirmation")
  /\ (onlyNonTreatable -> route = "/disqualified")
  /\ (someTreatable -> route = "/condition-confirmation")
  /\ (onlyText -> route = "/condition-confirmation")
  /\ (~ onlyNonTreatable -> ~ someTreatable -> ~ onlyText ->
      route = "/disqualified").
Proof.
  cbv zeta. unfold determineRoute.
  destruct selectedConditions as [|c l].
  - (* nothing selected *)
    change (0 <? List.length (@nil string))%nat with false.
    destruct (0 <? JsString.length (JsString.trim otherConditions))%nat eqn:Ht;
      cbn [negb andb]; (split; [|split; [|split; [|split]]]).
    + now right.
    + intros [Hne _]. now contradiction Hne.
    + reflexivity.
    + reflexivity.
    + intros _ _ Hno. exfalso. apply Hno. split; [reflexivity|].
      intros He. rewrite He in Ht. discriminate Ht.
    + now left.
    + reflexivity.
    + intros [id [[] _]].
    + apply length_zero_empty in Ht. intros [_ Hne]. now contradiction Hne.
    + reflexivity.
  - (* at least one condition selected *)
    change (0 <? List.length (c :: l))%nat with true. cbv iota.
    destruct (existsb (fun id => isConditionTreatable id) (c :: l)) eqn:Hex.
    + rewrite andb_false_r. split; [|split; [|split; [|split]]].
      * now right.
      * intros [_ Hall]. apply none_treatable in Hall. congruence.
      * reflexivity.
      * reflexivity.
      * intros _ Hno _. exfalso. apply Hno.
        apply List.existsb_exists in Hex. exact Hex.
    + assert (Hnt : existsb (fun id => negb (isConditionTreatable id)) (c :: l)
                    = true).
      { cbn in Hex |- *. apply orb_false_elim in Hex as [Hc _].
        now rewrite Hc. }
      rewrite Hnt. cbn [negb andb]. split; [|split; [|split; [|split]]].
      * now left.
      * reflexivity.
      * intros Hs. apply some_treatable in Hs. congruence.
      * intros [He _]. discriminate He.
      * reflexivity.
Qed.

Lemma determineRoute_rules_witness :
  determineRoute (String.eqb "back-pain") ["cancer-pain"; "back-pain"] ""
  = "/condition-confirmation".
Proof.
  refine (proj1 (proj2 (proj2
            (determineRoute_rules (String.eqb "back-pain")
               ["cancer-pain"; "back-pain"] ""))) _).
  exists "back-pain". split; [right; left; reflexivity | reflexivity].
Defined.

(** [handleSubmit] stops before routing exactly when nothing is selected
    and the text is blank, so the last case of [determineRoute] is never
    navigated to. *)
Lemma handleSubmit_blocks_empty (isT : string -> bool) (sel : list string)
    (other : string) :
  handleSubmit isT sel other = None <->
  sel = [] /\ JsString.trim other = "".
Proof.
  unfold handleSubmit, validateSubmission.
  destruct sel as [|c l].
  - change (0 <? List.length (@nil string))%nat with false.
    destruct (0 <? JsString.length (JsString.trim other))%nat eqn:Ht; cbn.
    + split; [discriminate|]. intros [_ He]. rewrite He in Ht. discriminate Ht.
    + apply length_zero_empty in Ht. tauto.
  - change (0 <? List.length (c :: l))%nat with true. cbn.
    split; [discriminate|]. intros [He _]. discriminate He.
Qed.

End RoutingProperties.

Module ValidationProperties.
Import Sanitizer Validation Scenario.

Example strip_script_tag :
  stripHtmlTags "user@example.com<script>alert(1)</script>"
  = "user@example.comalert(1)".
Proof. reflexivity. Qed.

Example strip_keeps_unclosed_bracket :
  stripHtmlTags "a < b and <i>c</i> <" = "a c <".
Proof. reflexivity. Qed.

Example sanitizeEmail_trims_and_strips :
  sanitizeEmail false noDomPurify "  <b>ann@site.org</b>'  " = "ann@site.org".
Proof. reflexivity. Qed.

Example sanitizeEmail_catch_branch :
  sanitizeEmail true noDomPurify "ann@site.org" = "".
Proof. reflexivity. Qed.

(** The format check sees the sanitized text, not the raw input: the raw
    input below fails the pattern of [isValidEmail] (it has blanks and
    markup), its sanitized form passes. *)
Example validateEmail_checks_sanitized :
  Api.isValidEmail "  <b>ann@site.org</b>  " = false
  /\ validateEmail false noDomPurify Api.isValidEmail "  <b>ann@site.org</b>  "
     = true.
Proof. split; reflexivity. Qed.

Example validateEmail_rejects_double_dot :
  Api.isValidEmail "ann@site..org" = true
  /\ validateEmail false noDomPurify Api.isValidEmail "ann@site..org" = false.
Proof. split; reflexivity. Qed.

Lemma length_eqb_zero (s : string) :
  (JsString.length s =? 0)%nat = true <-> s = "".
Proof.
  destruct s; cbn; split; intros H; try reflexivity; discriminate H.
Qed.

Lemma truthy_nonempty (s : string) : JsString.truthy s = true <-> s <> "".
Proof.
  destruct s; cbn; split; intros H; try congruence; try discriminate.
Qed.

(** C8. [validateEmail] returns true exactly when the input is a
    non-empty string whose [sanitizeEmail] result is non-empty, has no
    two consecutive dots and matches EMAIL_REGEX: the pattern is tested
    on the sanitized text. *)
Theorem validateEmail_spec (DOM_AVAILABLE : bool)
    (DOMPurify_sanitize : string -> Config -> option string)
    (EMAIL_REGEX_test : string -> bool) (email : string) :
  let sanitized := sanitizeEmail DOM_AVAILABLE DOMPurify_sanitize email in
  validateEmail DOM_AVAILABLE DOMPurify_sanitize EMAIL_REGEX_test email = true
  <->
  email <> ""
  /\ sanitized <> ""
  /\ JsString.includes sanitized ".." = false
  /\ EMAIL_REGEX_test sanitized = true.
Proof.
  cbv zeta. unfold validateEmail.
  set (sanitized := sanitizeEmail DOM_AVAILABLE DOMPurify_sanitize email).
  destruct (JsString.truthy email) eqn:Hemail; cbn [negb].
  - apply truthy_nonempty in Hemail.
    destruct (JsString.length sanitized =? 0)%nat eqn:Hlen.
    + apply length_eqb_zero in Hlen. split; [discriminate|].
      intros (_ & Hne & _). now contradiction Hne.
    + assert (Hne : sanitized <> "").
      { intros He. apply length_eqb_zero in He. congruence. }
      destruct (JsString.includes sanitized "..") eqn:Hdots.
      * split; [discriminate|]. intros (_ & _ & Hd & _). discriminate Hd.
      * split; [intros Hr; auto | intros (_ & _ & _ & Hr); exact Hr].
  - split; [discriminate|]. intros (Hne & _).
    destruct email; [now contradiction Hne | discriminate Hemail].
Qed.

Lemma validateEmail_spec_witness :
  validateEmail false noDomPurify Api.isValidEmail "  <b>ann@site.org</b>  "
  = true.
Proof.
  apply (proj2 (validateEmail_spec false noDomPurify Api.isValidEmail
                  "  <b>ann@site.org</b>  ")).
  split; [discriminate|]. split; [discriminate|]. split; reflexivity.
Defined.

End ValidationProperties.

Module ApiProperties.
Import Api Scenario.
Local Open Scope list_scope.

Example server_errors_back_off :
  let '(t, r) := apiFetch false (always (respond 503 None) true) "/api/x"
                   (request "GET") DEFAULT_RETRY_CONFIG in
  fetchAttempts t = [0; 1; 2; 3]%nat
  /\ sleeps t = [1000; 2000; 4000]
  /\ r = Failure SERVER_ERROR.
Proof. vm_compute. repeat split. Qed.

Example delay_is_capped :
  map (fun n => getRetryDelay n DEFAULT_RETRY_CONFIG) [0; 1; 2; 3; 4; 5]%nat
  = [1000; 2000; 4000; 8000; 10000; 10000].
Proof. reflexivity. Qed.

Example network_failure_retried :
  let '(t, r) := apiFetch false (always (FetchRejects ThrownTypeError) true)
                   "/api/x" (request "GET") (mkRetryConfig 1 500 1000) in
  fetchAttempts t = [0; 1]%nat /\ sleeps t = [500]
  /\ r = Failure NETWORK_ERROR.
Proof. vm_compute. repeat split. Qed.

Example not_found_returns_at_once :
  let '(t, r) :=
    apiFetch false
      (always (respond 404 (jsonBody FieldAbsent (FieldString "gone") FieldAbsent))
         true)
      "/api/x" (request "GET") DEFAULT_RETRY_CONFIG in
  fetchAttempts t = [0%nat] /\ sleeps t = [] /\ r = Failure NOT_FOUND.
Proof. vm_compute. repeat split. Qed.

(** *** Events of one iteration *)

(** [sleep] emits nothing but the pause, if anything. *)
Lemma sleep_events (IS_TEST_ENV : bool) (ms : Z) (e : Event) :
  In e (sleep IS_TEST_ENV ms) -> e = EvSleep ms /\ IS_TEST_ENV = false.
Proof.
  unfold sleep. destruct IS_TEST_ENV; cbn; [tauto|].
  intros [<-|[]]. now split.
Qed.

Lemma countFetches_sleep (IS_TEST_ENV : bool) (ms : Z) (rest : list Event) :
  countFetches (sleep IS_TEST_ENV ms ++ rest) = countFetches rest.
Proof. unfold sleep. now destruct IS_TEST_ENV. Qed.

Lemma countRefreshes_sleep (IS_TEST_ENV : bool) (ms : Z)
    (rest : list Event) :
  countRefreshes (sleep IS_TEST_ENV ms ++ rest) = countRefreshes rest.
Proof. unfold sleep. now destruct IS_TEST_ENV. Qed.

Section Trace.

Variable IS_TEST_ENV : bool.
Variable world : World.
Variable url : string.
Variable options : RequestInit.
Variable retryConfig : RetryConfig.

Let handle := handleResponse IS_TEST_ENV world options.
Let oneTry := tryBlock IS_TEST_ENV world url options.
Let loop := attemptLoop IS_TEST_ENV world url options retryConfig.
Let req := requestOf IS_TEST_ENV world options.

Lemma countFetches_app (t1 t2 : list Event) :
  countFetches (t1 ++ t2) = (countFetches t1 + countFetches t2)%nat.
Proof. unfold countFetches. now rewrite List.filter_app, List.length_app. Qed.

Lemma countRefreshes_app (t1 t2 : list Event) :
  countRefreshes (t1 ++ t2) = (countRefreshes t1 + countRefreshes t2)%nat.
Proof. unfold countRefreshes. now rewrite List.filter_app, List.length_app. Qed.

(** What the statements after [fetch] can emit: nothing, one token
    refresh (only in the first iteration), or one token update. *)
Lemma handleResponse_events (attempt : nat) (response : Response) :
  fst (handle attempt response) = []
  \/ (attempt = 0%nat /\ fst (handle attempt response) = [EvRefreshCsrfToken])
  \/ (exists tok, fst (handle attempt response) = [EvSetCsrfToken tok]).
Proof.
  unfold handle, handleResponse.
  destruct ((status response =? 403) && shouldUseCsrf IS_TEST_ENV options).
  - destruct (isCsrfError (errorDataOf response)) as [[|]|]; cbn; auto.
    destruct (attempt =? 0)%nat eqn:Ha; cbn; auto.
    apply Nat.eqb_eq in Ha.
    destruct (refreshSucceeds world); cbn; auto.
  - destruct (negb (ok response)).
    + destruct (negb (errorTextReadable (errorDataOf response))); cbn; auto.
      destruct ((400 <=? status response) && (status response <? 500));
        cbn; auto.
    + destruct (json response); cbn; auto.
      destruct (csrfHeader response) as [tok|]; cbn; auto.
      destruct (JsString.truthy tok); cbn; eauto.
Qed.

(** Each iteration issues exactly one request, first of all. *)
Lemma tryBlock_events (attempt : nat) :
  exists evs,
    fst (oneTry attempt) = EvFetch attempt url (req attempt) :: evs
    /\ countFetches evs = 0%nat
    /\ (countRefreshes evs = 0%nat \/ attempt = 0%nat).
Proof.
  unfold oneTry, tryBlock.
  destruct (fetchOutcome world attempt) as [e|response].
  - exists []. cbn. auto.
  - pose proof (handleResponse_events attempt response) as H.
    fold handle. destruct (handle attempt response) as [evs c]. cbn in *.
    exists evs. split; [reflexivity|].
    destruct H as [H|[[Ha H]|[tok H]]]; rewrite H; cbn; auto.
Qed.

Lemma loop_fetch_bound (remaining attempt : nat) (lastError : option Thrown) :
  (countFetches (fst (loop remaining attempt lastError)) <= remaining)%nat.
Proof.
  revert attempt lastError.
  induction remaining as [|remaining IH]; intros attempt lastError.
  - cbn. lia.
  - unfold loop. cbn [attemptLoop]. fold loop. fold oneTry.
    destruct (tryBlock_events attempt) as (evs & Hev & Hf & _).
    destruct (oneTry attempt) as [events completion]. cbn in Hev. subst events.
    assert (Hone : countFetches (EvFetch attempt url (req attempt) :: evs)
                   = 1%nat).
    { change (EvFetch attempt url (req attempt) :: evs)
        with ([EvFetch attempt url (req attempt)] ++ evs).
      rewrite countFetches_app, Hf. reflexivity. }
    destruct completion as [r| |error].
    + cbn [fst]. lia.
    + specialize (IH (S attempt) lastError).
      destruct (loop remaining (S attempt) lastError) as [rest r].
      cbn [fst] in *. rewrite countFetches_app. lia.
    + destruct ((attempt <? maxRetries retryConfig)%nat
                && isRetryableError (caughtAs error)).
      * specialize (IH (S attempt) (Some (caughtAs error))).
        destruct (loop remaining (S attempt) (Some (caughtAs error)))
          as [rest r].
        cbn [fst] in *. rewrite countFetches_app, countFetches_sleep.
        lia.
      * cbn [fst]. lia.
Qed.

(** Every request in the trace of the loop is the request built for
    its attempt number. *)
Lemma loop_fetch_requests (remaining attempt : nat) (lastError : option Thrown)
    (k : nat) (u : string) (r : RequestInit) :
  In (EvFetch k u r) (fst (loop remaining attempt lastError)) ->
  (attempt <= k < attempt + remaining)%nat /\ u = url /\ r = req k.
Proof.
  revert attempt lastError.
  induction remaining as [|remaining IH]; intros attempt lastError.
  - cbn. tauto.
  - unfold loop. cbn [attemptLoop]. fold loop. fold oneTry.
    destruct (tryBlock_events attempt) as (evs & Hev & Hf & _).
    destruct (oneTry attempt) as [events completion]. cbn in Hev. subst events.
    assert (Hhere : In (EvFetch k u r)
                      (EvFetch attempt url (req attempt) :: evs) ->
                    (attempt <= k < attempt + S remaining)%nat
                    /\ u = url /\ r = req k).
    { intros [He|Hin].
      - inversion He; subst. repeat split; lia.
      - exfalso. unfold countFetches in Hf.
        assert (Hin' : In (EvFetch k u r) (List.filter isFetch evs))
          by (apply List.filter_In; split; [exact Hin | reflexivity]).
        destruct (List.filter isFetch evs); [contradiction | discriminate]. }
    assert (Hlater : forall le,
               In (EvFetch k u r) (fst (loop remaining (S attempt) le)) ->
               (attempt <= k < attempt + S remaining)%nat
               /\ u = url /\ r = req k).
    { intros le Hin. apply IH in Hin. destruct Hin as (Hk & Hu & Hr).
      repeat split; try assumption; lia. }
    destruct completion as [res| |error].
    + exact Hhere.
    + specialize (Hlater lastError).
      destruct (loop remaining (S attempt) lastError) as [rest res].
      cbn [fst] in *. intros Hin. apply List.in_app_or in Hin as [Hin|Hin]; auto.
    + destruct ((attempt <? maxRetries retryConfig)%nat
                && isRetryableError (caughtAs error)).
      * specialize (Hlater (Some (caughtAs error))).
        destruct (loop remaining (S attempt) (Some (caughtAs error)))
          as [rest res].
        cbn [fst] in *. intros Hin.
        apply List.in_app_or in Hin as [Hin|Hin]; auto.
        apply List.in_app_or in Hin as [Hin|Hin]; auto.
        apply sleep_events in Hin as [Hin _]. discriminate Hin.
      * exact Hhere.
Qed.

(** A loop with an iteration left starts by sending the request. *)
Lemma loop_starts_with_fetch (remaining attempt : nat)
    (lastError : option Thrown) :
  exists rest,
    fst (loop (S remaining) attempt lastError)
    = EvFetch attempt url (req attempt) :: rest.
Proof.
  unfold loop. cbn [attemptLoop]. fold loop. fold oneTry.
  destruct (tryBlock_events attempt) as (evs & Hev & _ & _).
  destruct (oneTry attempt) as [events completion].
  cbn in Hev. subst events.
  destruct completion as [res| |error].
  - now exists evs.
  - destruct (loop remaining (S attempt) lastError) as [rest res].
    now exists (evs ++ rest).
  - destruct ((attempt <? maxRetries retryConfig)%nat
              && isRetryableError (caughtAs error)).
    + destruct (loop remaining (S attempt) (Some (caughtAs error)))
        as [rest res].
      now exists
        (evs ++ sleep IS_TEST_ENV (getRetryDelay attempt retryConfig) ++ rest).
    + now exists evs.
Qed.

(** Every pause of the loop is the back-off delay of an attempt that
    still had a retry left. *)
Lemma loop_sleeps (remaining attempt : nat) (lastError : option Thrown)
    (ms : Z) :
  In (EvSleep ms) (fst (loop remaining attempt lastError)) ->
  exists k, (attempt <= k < maxRetries retryConfig)%nat
            /\ ms = getRetryDelay k retryConfig.
Proof.
  revert attempt lastError.
  induction remaining as [|remaining IH]; intros attempt lastError;
    [cbn; tauto|].
  unfold loop. cbn [attemptLoop]. fold loop. fold oneTry.
  destruct (tryBlock_events attempt) as (evs & Hev & _ & _).
  assert (Hnone : ~ In (EvSleep ms) (fst (oneTry attempt))).
  { unfold oneTry, tryBlock.
    destruct (fetchOutcome world attempt) as [e|response].
    - cbn. intros [H|[]]. discriminate H.
    - pose proof (handleResponse_events attempt response) as H.
      fold handle. destruct (handle attempt response) as [hs c].
      cbn in H |- *. intros [Hin|Hin]; [discriminate Hin|].
      destruct H as [->|[[_ ->]|[tok ->]]]; cbn in Hin;
        try contradiction; destruct Hin as [Hin|[]]; discriminate Hin. }
  destruct (oneTry attempt) as [events completion]. cbn [fst] in *.
  assert (Hlater : forall le,
             In (EvSleep ms) (fst (loop remaining (S attempt) le)) ->
             exists k, (attempt <= k < maxRetries retryConfig)%nat
                       /\ ms = getRetryDelay k retryConfig).
  { intros le Hin. apply IH in Hin as (k & Hk & Hms). exists k.
    split; [lia | exact Hms]. }
  destruct completion as [res| |error].
  - intros Hin. contradiction.
  - specialize (Hlater lastError).
    destruct (loop remaining (S attempt) lastError) as [rest res].
    cbn [fst] in *. intros Hin.
    apply List.in_app_or in Hin as [Hin|Hin]; [contradiction | auto].
  - destruct ((attempt <? maxRetries retryConfig)%nat) eqn:Hlt; cbn [andb].
    + destruct (isRetryableError (caughtAs error)).
      * specialize (Hlater (Some (caughtAs error))).
        destruct (loop remaining (S attempt) (Some (caughtAs error)))
          as [rest res].
        cbn [fst] in *. intros Hin.
        apply List.in_app_or in Hin as [Hin|Hin]; [contradiction|].
        apply List.in_app_or in Hin as [Hin|Hin]; [|auto].
        apply sleep_events in Hin as [Hin _].
        injection Hin as ->. apply Nat.ltb_lt in Hlt.
        exists attempt. split; [lia | reflexivity].
      * intros Hin. contradiction.
    + intros Hin. contradiction.
Qed.

(** A thrown error ends the call unless it is retryable and a retry is
    left. *)
Lemma loop_throw_not_retried (remaining attempt : nat)
    (lastError : option Thrown) (evs : list Event) (error : Thrown) :
  oneTry attempt = (evs, Throws error) ->
  (attempt <? maxRetries retryConfig)%nat
  && isRetryableError (caughtAs error) = false ->
  loop (S remaining) attempt lastError
  = (evs, afterLoop (Some (caughtAs error))).
Proof.
  intros Ht Hno. unfold loop. cbn [attemptLoop]. fold oneTry.
  now rewrite Ht, Hno.
Qed.

Lemma loop_throw_retried (remaining attempt : nat)
    (lastError : option Thrown) (evs : list Event) (error : Thrown) :
  oneTry attempt = (evs, Throws error) ->
  (attempt <? maxRetries retryConfig)%nat
  && isRetryableError (caughtAs error) = true ->
  loop (S remaining) attempt lastError
  = (evs ++ sleep IS_TEST_ENV (getRetryDelay attempt retryConfig)
         ++ fst (loop remaining (S attempt) (Some (caughtAs error))),
     snd (loop remaining (S attempt) (Some (caughtAs error)))).
Proof.
  intros Ht Hyes. unfold loop. cbn [attemptLoop]. fold oneTry.
  rewrite Ht, Hyes. fold loop.
  now destruct (loop remaining (S attempt) (Some (caughtAs error))).
Qed.


End Trace.

(** C2. The retry delay is [min(baseDelay * 2^n, maxDelay)], and a call
    of [apiFetch] issues at most [maxRetries + 1] requests. *)
Theorem retry_delay_and_attempt_bound (IS_TEST_ENV : bool) (world : World)
    (url : string) (options : RequestInit) (retryConfig : RetryConfig)
    (n : nat) :
  getRetryDelay n retryConfig
  = Z.min (baseDelay retryConfig * 2 ^ Z.of_nat n) (maxDelay retryConfig)
  /\ (countFetches (fst (apiFetch IS_TEST_ENV world url options retryConfig))
      <= maxRetries retryConfig + 1)%nat.
Proof.
  split; [reflexivity|].
  unfold apiFetch.
  pose proof (loop_fetch_bound IS_TEST_ENV world url options retryConfig
                (S (maxRetries retryConfig)) 0 None) as H.
  lia.
Qed.

Lemma requiresCsrfToken_iff (m : option string) :
  requiresCsrfToken m = true <->
  In (JsString.toUpperCase (default "GET" m)) ["POST"; "PUT"; "DELETE"; "PATCH"].
Proof.
  unfold requiresCsrfToken, stateChangingMethods.
  rewrite List.existsb_exists. split.
  - intros [w [Hin Heq]]. apply String.eqb_eq in Heq. now rewrite Heq.
  - intros Hin. eexists. split; [exact Hin | apply String.eqb_refl].
Qed.

Lemma baseHeaders_csrf (options : RequestInit) :
  baseHeaders options !! "X-CSRF-Token" = headers options !! "X-CSRF-Token".
Proof.
  unfold baseHeaders. rewrite lookup_union.
  rewrite lookup_singleton_ne by discriminate.
  now destruct (headers options !! "X-CSRF-Token").
Qed.

Example methods_needing_csrf :
  map requiresCsrfToken
    [None; Some "GET"; Some "post"; Some "Put"; Some "DELETE"; Some "patch";
     Some "HEAD"; Some "OPTIONS"; Some ""]
  = [false; false; true; true; true; true; false; false; false].
Proof. reflexivity. Qed.

(** C5. [requiresCsrfToken] is true exactly when the upper-cased method
    (['GET'] when none is given) is POST, PUT, DELETE or PATCH, and false
    for the default; for any other method every request [apiFetch] sends
    carries the caller's headers plus Content-Type only, so its
    X-CSRF-Token entry is the caller's own (none unless the caller set
    one). *)
Theorem csrf_token_only_for_state_changing (IS_TEST_ENV : bool)
    (world : World) (url : string) (options : RequestInit)
    (retryConfig : RetryConfig) (m : option string) :
  (requiresCsrfToken m = true <->
   In (JsString.toUpperCase (default "GET" m)) ["POST"; "PUT"; "DELETE"; "PATCH"])
  /\ requiresCsrfToken None = false
  /\ requiresCsrfToken (Some "GET") = false
  /\ (requiresCsrfToken (method options) = false ->
      forall k u r,
        In (EvFetch k u r)
           (fst (apiFetch IS_TEST_ENV world url options retryConfig)) ->
        headers r = baseHeaders options
        /\ headers r !! "X-CSRF-Token" = headers options !! "X-CSRF-Token").
Proof.
  split; [apply requiresCsrfToken_iff|].
  split; [reflexivity|]. split; [reflexivity|].
  intros Hm k u r Hin.
  apply loop_fetch_requests in Hin as (_ & _ & Hr).
  assert (Hh : headers r = baseHeaders options).
  { subst r. cbn. unfold requestHeaders, shouldUseCsrf. now rewrite Hm. }
  split; [exact Hh|]. rewrite Hh. apply baseHeaders_csrf.
Qed.

Lemma csrf_token_only_for_state_changing_witness :
  requiresCsrfToken (method (request "get")) = false
  /\ headers (requestOf false (always (respond 503 None) true) (request "get") 0)
       !! "X-CSRF-Token" = None.
Proof.
  split; [reflexivity|].
  exact (proj2 (proj2 (proj2 (proj2
           (csrf_token_only_for_state_changing false
              (always (respond 503 None) true) "/api/health"
              (request "get") DEFAULT_RETRY_CONFIG None))) eq_refl
           0%nat "/api/health" _ (or_introl eq_refl))).
Defined.

Example post_carries_token :
  let '(t, _) := apiFetch false (always (respond 200 (Some JsonNonObject)) true)
                   "/api/x" (request "POST") DEFAULT_RETRY_CONFIG in
  map (fun e => match e with
                | EvFetch _ _ r => headers r !! "X-CSRF-Token"
                | _ => None
                end) t = [Some "tok"].
Proof. vm_compute. reflexivity. Qed.

(** *** CSRF classification *)

Lemma toLowerCase_cons (c : ascii) (s : string) :
  JsString.toLowerCase (String c s)
  = String (JsString.lowerChar c) (JsString.toLowerCase s).
Proof. reflexivity. Qed.

Lemma startsWith_toLowerCase (p s : string) :
  JsString.toLowerCase p = p ->
  JsString.startsWith p s = true ->
  JsString.startsWith p (JsString.toLowerCase s) = true.
Proof.
  revert s. induction p as [|a p IH]; intros s Hp Hs; [reflexivity|].
  destruct s as [|b s]; [discriminate Hs|].
  rewrite toLowerCase_cons in Hp |- *. injection Hp as Ha Hp.
  cbn [JsString.startsWith] in Hs |- *.
  destruct (Ascii.eqb a b) eqn:Hab; [|discriminate Hs].
  apply Ascii.eqb_eq in Hab. subst b. rewrite Ha, Ascii.eqb_refl.
  now apply IH.
Qed.

Lemma includes_toLowerCase (s p : string) :
  JsString.toLowerCase p = p ->
  JsString.includes s p = true ->
  JsString.includes (JsString.toLowerCase s) p = true.
Proof.
  intros Hp. induction s as [|c s IH]; intros Hs.
  - cbn in Hs |- *. rewrite orb_false_r in Hs |- *.
    now apply (startsWith_toLowerCase p "").
  - rewrite toLowerCase_cons. cbn [JsString.includes] in Hs |- *.
    apply orb_prop in Hs as [Hs|Hs].
    + apply (startsWith_toLowerCase p _ Hp) in Hs.
      rewrite toLowerCase_cons in Hs. now rewrite Hs.
    + rewrite (IH Hs). apply orb_true_r.
Qed.

(** A body that is CSRF-related in the words of the source comment is
    classified as a CSRF error by the check. *)
Lemma csrfRelated_classified (v : JsonValue) :
  csrfRelated v -> isCsrfError v = Some true.
Proof.
  intros [o [-> H]]. unfold isCsrfError. cbn [readProperty].
  destruct H as [H|[H|[m [Hm Hinc]]]].
  - now rewrite H.
  - now rewrite H.
  - destruct (fieldIs "CSRF_TOKEN_INVALID" (f_code o)
              || fieldIs "CSRF_TOKEN_MISSING" (f_code o)); [reflexivity|].
    rewrite Hm. f_equal. now apply includes_toLowerCase.
Qed.

Example csrf_classification :
  map isCsrfError
    [ JsonObject (mkErrorFields (FieldString "CSRF_TOKEN_MISSING") FieldOther FieldAbsent);
      JsonObject (mkErrorFields FieldAbsent (FieldString "Invalid CSRF token") FieldAbsent);
      JsonObject (mkErrorFields (FieldString "FORBIDDEN") (FieldString "no access") FieldAbsent);
      emptyObject; JsonNonObject; JsonNull;
      JsonObject (mkErrorFields FieldAbsent FieldOther FieldAbsent) ]
  = [Some true; Some true; Some false; Some false; Some false; None; None].
Proof. reflexivity. Qed.

(** *** CSRF rejection inside the loop (outside the test environment) *)

Section Csrf.

Variable world : World.
Variable url : string.
Variable options : RequestInit.
Variable retryConfig : RetryConfig.

Hypothesis stateChanging : requiresCsrfToken (method options) = true.

Let oneTry := tryBlock false world url options.
Let loop := attemptLoop false world url options retryConfig.
Let req := requestOf false world options.

Lemma tryBlock_csrf_first :
  csrfRejected world 0 ->
  oneTry 0%nat
  = ([EvFetch 0 url (req 0%nat); EvRefreshCsrfToken],
     if refreshSucceeds world then Continues
     else Returns (Failure CSRF_TOKEN_INVALID)).
Proof.
  intros (r & Hout & Hst & Hcsrf).
  unfold oneTry, tryBlock, handleResponse, shouldUseCsrf.
  rewrite Hout, Hst, stateChanging, Hcsrf. cbn.
  now destruct (refreshSucceeds world).
Qed.

Lemma tryBlock_csrf_later (k : nat) :
  (1 <= k)%nat ->
  csrfRejected world k ->
  oneTry k = ([EvFetch k url (req k)], Returns (Failure CSRF_TOKEN_INVALID)).
Proof.
  intros Hk (r & Hout & Hst & Hcsrf).
  unfold oneTry, tryBlock, handleResponse, shouldUseCsrf.
  rewrite Hout, Hst, stateChanging, Hcsrf. cbn.
  destruct k; [lia | reflexivity].
Qed.

Lemma loop_no_refresh_later (remaining attempt : nat)
    (lastError : option Thrown) :
  (1 <= attempt)%nat ->
  countRefreshes (fst (loop remaining attempt lastError)) = 0%nat.
Proof.
  revert attempt lastError.
  induction remaining as [|remaining IH]; intros attempt lastError Ha;
    [reflexivity|].
  unfold loop. cbn [attemptLoop]. fold loop.
  destruct (tryBlock_events false world url options attempt)
    as (evs & Hev & _ & Hr).
  destruct (tryBlock false world url options attempt) as [events completion].
  cbn in Hev. subst events.
  assert (Hhead : countRefreshes (EvFetch attempt url (req attempt) :: evs)
                  = 0%nat).
  { destruct Hr as [Hr|Hr]; [exact Hr | lia]. }
  destruct completion as [res| |error].
  - exact Hhead.
  - specialize (IH (S attempt) lastError ltac:(lia)).
    destruct (loop remaining (S attempt) lastError) as [rest res].
    cbn [fst] in *. rewrite countRefreshes_app. fold req. lia.
  - destruct ((attempt <? maxRetries retryConfig)%nat
              && isRetryableError (caughtAs error)).
    + specialize (IH (S attempt) (Some (caughtAs error)) ltac:(lia)).
      destruct (loop remaining (S attempt) (Some (caughtAs error)))
        as [rest res].
      cbn [fst] in *.
      rewrite countRefreshes_app, (countRefreshes_sleep false). fold req.
      lia.
    + exact Hhead.
Qed.

(** A CSRF rejection of any attempt after the first ends the call: the
    rejected request is the last event and the result is the CSRF
    failure. *)
Lemma loop_csrf_later (remaining attempt : nat) (lastError : option Thrown)
    (k : nat) (u : string) (r : RequestInit) :
  (1 <= k)%nat ->
  csrfRejected world k ->
  In (EvFetch k u r) (fst (loop remaining attempt lastError)) ->
  snd (loop remaining attempt lastError) = Failure CSRF_TOKEN_INVALID
  /\ exists before,
       fst (loop remaining attempt lastError)
       = before ++ [EvFetch k url (req k)].
Proof.
  intros Hk Hrej. revert attempt lastError.
  induction remaining as [|remaining IH]; intros attempt lastError Hin;
    [contradiction|].
  unfold loop in Hin |- *. cbn [attemptLoop] in Hin |- *. fold loop in Hin |- *.
  destruct (Nat.eq_dec k attempt) as [->|Hne].
  - fold oneTry. rewrite (tryBlock_csrf_later attempt Hk Hrej). cbn.
    split; [reflexivity|]. now exists [].
  - destruct (tryBlock_events false world url options attempt)
      as (evs & Hev & Hf & _).
    destruct (tryBlock false world url options attempt)
      as [events completion].
    cbn in Hev. subst events. fold req in Hin |- *.
    assert (Hhead : ~ In (EvFetch k u r)
                        (EvFetch attempt url (req attempt) :: evs)).
    { intros [He|Hev].
      - inversion He. congruence.
      - unfold countFetches in Hf.
        assert (Hin' : In (EvFetch k u r) (List.filter isFetch evs))
          by (apply List.filter_In; split; [exact Hev | reflexivity]).
        destruct (List.filter isFetch evs); [contradiction | discriminate]. }
    destruct completion as [res| |error].
    + contradiction.
    + specialize (IH (S attempt) lastError).
      destruct (loop remaining (S attempt) lastError) as [rest res].
      cbn [fst snd] in *.
      apply List.in_app_or in Hin as [Hin|Hin]; [contradiction|].
      destruct (IH Hin) as [Hres [before Hb]]. split; [exact Hres|].
      exists ((EvFetch attempt url (req attempt) :: evs) ++ before).
      now rewrite Hb, List.app_assoc.
    + destruct ((attempt <? maxRetries retryConfig)%nat
                && isRetryableError (caughtAs error)).
      * specialize (IH (S attempt) (Some (caughtAs error))).
        destruct (loop remaining (S attempt) (Some (caughtAs error)))
          as [rest res].
        cbn [fst snd] in *.
        apply List.in_app_or in Hin as [Hin|[Hin|Hin]];
          [contradiction | discriminate Hin |].
        destruct (IH Hin) as [Hres [before Hb]]. split; [exact Hres|].
        exists ((EvFetch attempt url (req attempt) :: evs)
                ++ EvSleep (getRetryDelay attempt retryConfig) :: before).
        rewrite Hb, <- List.app_assoc. reflexivity.
      * contradiction.
Qed.

Lemma loop_continue (remaining attempt : nat) (lastError : option Thrown)
    (evs : list Event) :
  oneTry attempt = (evs, Continues) ->
  loop (S remaining) attempt lastError
  = (evs ++ fst (loop remaining (S attempt) lastError),
     snd (loop remaining (S attempt) lastError)).
Proof.
  intros H. unfold loop. cbn [attemptLoop]. fold oneTry. rewrite H.
  now destruct (attemptLoop false world url options retryConfig remaining
                  (S attempt) lastError).
Qed.

Lemma loop_return (remaining attempt : nat) (lastError : option Thrown)
    (evs : list Event) (res : ApiResponse) :
  oneTry attempt = (evs, Returns res) ->
  loop (S remaining) attempt lastError = (evs, res).
Proof.
  intros H. unfold loop. cbn [attemptLoop]. fold oneTry. now rewrite H.
Qed.

End Csrf.

Example csrf_rejection_then_success :
  let '(t, r) := apiFetch false csrfRejectedOnce "/api/x" (request "POST")
                   DEFAULT_RETRY_CONFIG in
  fetchAttempts t = [0; 1]%nat /\ countRefreshes t = 1%nat /\ sleeps t = []
  /\ r = Success JsonNonObject.
Proof. vm_compute. repeat split. Qed.

Example csrf_rejection_after_server_error :
  let w := scripted (fun k => match k with
                              | O => respond 500 None
                              | _ => respond 403 (jsonBody FieldAbsent
                                                    (FieldString "CSRF check failed")
                                                    FieldAbsent)
                              end) true in
  let '(t, r) := apiFetch false w "/api/x" (request "POST") DEFAULT_RETRY_CONFIG in
  fetchAttempts t = [0; 1]%nat /\ countRefreshes t = 0%nat
  /\ r = Failure CSRF_TOKEN_INVALID.
Proof. vm_compute. repeat split. Qed.

(** C1 (as the code has it). Outside the test environment, for a
    state-changing request: when the first attempt is rejected with a
    CSRF-classified 403, the token refresh succeeds and the configuration
    allows a retry ([maxRetries >= 1]), the token is refreshed once and
    the request is sent a second time; when the refresh fails the call
    returns CSRF_TOKEN_INVALID with no further request; and a
    CSRF-classified 403 on any later attempt returns CSRF_TOKEN_INVALID
    with that request as the last event. *)
Theorem csrf_refresh_single_retry (world : World) (url : string)
    (options : RequestInit) (retryConfig : RetryConfig) :
  requiresCsrfToken (method options) = true ->
  let run := apiFetch false world url options retryConfig in
  let req := requestOf false world options in
  (csrfRejected world 0 -> refreshSucceeds world = true ->
   (1 <= maxRetries retryConfig)%nat ->
   (exists rest,
      fst run = EvFetch 0 url (req 0%nat) :: EvRefreshCsrfToken
                  :: EvFetch 1 url (req 1%nat) :: rest)
   /\ countRefreshes (fst run) = 1%nat)
  /\ (csrfRejected world 0 -> refreshSucceeds world = false ->
      run = ([EvFetch 0 url (req 0%nat); EvRefreshCsrfToken],
             Failure CSRF_TOKEN_INVALID))
  /\ (forall k u r,
        (1 <= k)%nat -> csrfRejected world k -> In (EvFetch k u r) (fst run) ->
        snd run = Failure CSRF_TOKEN_INVALID
        /\ exists before, fst run = before ++ [EvFetch k url (req k)]).
Proof.
  intros Hm run req. split; [|split].
  - intros Hrej Hrefresh Hretries. subst run. unfold apiFetch.
    destruct (maxRetries retryConfig) as [|m] eqn:Hmax; [lia|].
    pose proof (tryBlock_csrf_first world url options Hm Hrej) as Hfirst.
    rewrite Hrefresh in Hfirst.
    rewrite (loop_continue world url options retryConfig _ _ _ _ Hfirst).
    destruct (loop_starts_with_fetch false world url options retryConfig m 1
                None)
      as [rest Hrest].
    pose proof (loop_no_refresh_later world url options retryConfig
                  (S m) 1 None ltac:(lia)) as Hnone.
    cbn [fst]. rewrite Hrest in Hnone |- *. split.
    + now exists rest.
    + rewrite countRefreshes_app, Hnone. reflexivity.
  - intros Hrej Hrefresh. subst run. unfold apiFetch.
    pose proof (tryBlock_csrf_first world url options Hm Hrej) as Hfirst.
    rewrite Hrefresh in Hfirst.
    exact (loop_return world url options retryConfig _ _ _ _ _ Hfirst).
  - intros k u r Hk Hrej Hin.
    exact (loop_csrf_later world url options retryConfig Hm _ _ _ k u r
             Hk Hrej Hin).
Qed.

Lemma csrf_refresh_single_retry_witness :
  countRefreshes
    (fst (apiFetch false csrfRejectedOnce "/api/x" (request "POST")
            DEFAULT_RETRY_CONFIG)) = 1%nat.
Proof.
  refine (proj2 (proj1 (csrf_refresh_single_retry csrfRejectedOnce "/api/x"
                          (request "POST") DEFAULT_RETRY_CONFIG eq_refl)
                   _ eq_refl _)).
  - eexists. split; [reflexivity|]. split; reflexivity.
  - cbn. lia.
Defined.

(** C1 (as stated) fails on the code. In the test environment
    ([IS_TEST_ENV]) a POST whose first attempt gets a 403 with code
    'CSRF_TOKEN_INVALID' is answered with FORBIDDEN, without token
    refresh and without retry; and with [maxRetries = 0] the token is
    refreshed but the request is not sent again and the call ends with
    UNKNOWN_ERROR. *)
Lemma csrf_refresh_counterexample :
  let body := JsonObject (mkErrorFields (FieldString "CSRF_TOKEN_INVALID")
                            FieldAbsent FieldAbsent) in
  let w := always (respond 403 (Some body)) true in
  requiresCsrfToken (method (request "POST")) = true
  /\ csrfRelated body
  /\ (let '(t, r) := apiFetch true w "/api/x" (request "POST")
                       DEFAULT_RETRY_CONFIG in
      fetchAttempts t = [0%nat] /\ countRefreshes t = 0%nat
      /\ r = Failure FORBIDDEN)
  /\ (let '(t, r) := apiFetch false w "/api/x" (request "POST")
                       (mkRetryConfig 0 1000 10000) in
      fetchAttempts t = [0%nat] /\ countRefreshes t = 1%nat
      /\ r = Failure UNKNOWN_ERROR).
Proof.
  cbv zeta. split; [reflexivity|]. split.
  - eexists. split; [reflexivity|]. now left.
  - split; vm_compute; repeat split.
Qed.

(** *** Which errors are retried *)

(** After the [catch] block has classified the error, it is retryable
    exactly when it is an [ApiError] with code NETWORK_ERROR or
    TIMEOUT_ERROR or with a status of 500 or more. *)
Lemma isRetryableError_caught (error : Thrown) :
  isRetryableError (caughtAs error) = true <->
  exists e, caughtAs error = ThrownApiError e
            /\ (code e = NETWORK_ERROR \/ code e = TIMEOUT_ERROR
                \/ exists st, statusCode e = Some st /\ 500 <= st).
Proof.
  destruct error as [[c st]| | |]; cbn.
  - split.
    + intros H. eexists. split; [reflexivity|]. cbn.
      apply orb_prop in H as [H|H]; [apply orb_prop in H as [H|H]|].
      * left. now destruct c.
      * right. left. now destruct c.
      * right. right. destruct st as [z|]; [|discriminate H].
        exists z. split; [reflexivity | now apply Z.leb_le].
    + intros [e [He H]]. injection He as <-. cbn in H.
      destruct H as [->|[->|[z [-> Hz]]]]; cbn; try reflexivity.
      apply Z.leb_le in Hz. rewrite Hz. apply orb_true_r.
  - split; [|reflexivity]. intros _. eexists. split; [reflexivity|].
    right. now left.
  - split; [|reflexivity]. intros _. eexists. split; [reflexivity|].
    now left.
  - split; [discriminate|]. intros [e [He _]]. discriminate He.
Qed.

Example redirect_status_not_retried :
  let '(t, r) := apiFetch false (always (respond 304 None) true) "/api/x"
                   (request "GET") DEFAULT_RETRY_CONFIG in
  fetchAttempts t = [0%nat] /\ sleeps t = [] /\ r = Failure UNKNOWN_ERROR.
Proof. vm_compute. repeat split. Qed.

Example timeout_retried :
  let '(t, r) := apiFetch false (always (FetchRejects ThrownAbortError) true)
                   "/api/x" (request "GET") (mkRetryConfig 2 100 150) in
  fetchAttempts t = [0; 1; 2]%nat /\ sleeps t = [100; 150]
  /\ r = Failure TIMEOUT_ERROR.
Proof. vm_compute. repeat split. Qed.

Example forbidden_without_csrf_returns_at_once :
  let '(t, r) :=
    apiFetch false
      (always (respond 403 (jsonBody FieldAbsent (FieldString "no access")
                              FieldAbsent)) true)
      "/api/x" (request "POST") DEFAULT_RETRY_CONFIG in
  fetchAttempts t = [0%nat] /\ countRefreshes t = 0%nat
  /\ r = Failure FORBIDDEN.
Proof. vm_compute. repeat split. Qed.

(** C4 (divergence). A GET answered on every attempt by status 404 with
    the JSON body [null]: reading [errorData.error] throws a TypeError,
    the [catch] block turns it into a NETWORK_ERROR, and the request is
    sent four times with back-off before the call fails with
    NETWORK_ERROR, although a 4xx response is to end the call at once.
    The same happens for a state-changing request answered by a 403
    whose [message] is not a string. *)
Theorem client_error_unreadable_body_retried :
  (let '(t, r) := apiFetch false (always (respond 404 (Some JsonNull)) true)
                    "/api/x" (request "GET") DEFAULT_RETRY_CONFIG in
   fetchAttempts t = [0; 1; 2; 3]%nat
   /\ sleeps t = [1000; 2000; 4000]
   /\ r = Failure NETWORK_ERROR)
  /\ (let '(t, r) :=
        apiFetch false
          (always (respond 403 (jsonBody FieldAbsent FieldOther FieldAbsent))
             true)
          "/api/x" (request "POST") DEFAULT_RETRY_CONFIG in
      fetchAttempts t = [0; 1; 2; 3]%nat
      /\ countRefreshes t = 0%nat
      /\ r = Failure NETWORK_ERROR).
Proof. split; vm_compute; repeat split. Qed.

End ApiProperties.

Module SubmitProperties.
Import Api Scenario.
Local Open Scope list_scope.

Example email_pattern :
  map isValidEmail
    ["ann@site.org"; "a@b.c"; "ann@site"; "ann site@x.org"; "ann@@site.org";
     "@site.org"; "ann@.org"; "ann@site."; "ann@mail.site.org"; ""]
  = [true; true; false; false; false; false; false; false; true; false].
Proof. vm_compute. reflexivity. Qed.

Example phone_pattern :
  map isValidPhone
    ["5551234567"; "(555) 123-4567"; "+1 555 123 4567"; "555-1234";
     "555123456x"; "          "; ""]
  = [true; true; true; false; false; true; false].
Proof. vm_compute. reflexivity. Qed.

Example submit_without_phone :
  let '(t, r) :=
    submitAssessment false (always (respond 200 (Some JsonNonObject)) true)
      "https://api.example" stringify
      (contactOf (Some "Ann") (Some "ann@site.org") None) in
  map (fun e => match e with
                | EvFetch a u q => Some (a, u, method q, body q)
                | _ => None
                end) t
  = [Some (0%nat, "https://api.example/api/assessment/submit", Some "POST",
           Some "{...}")]
  /\ r = Success JsonNonObject.
Proof. vm_compute. split; reflexivity. Qed.

Example submit_checks_in_order :
  map (fun c => submitAssessment false (always (respond 200 (Some JsonNonObject)) true)
                  "" stringify c)
    [ contactOf None (Some "bad") (Some "123");
      contactOf None (Some "ann@site.org") (Some "123");
      contactOf (Some " A ") (Some "ann@site.org") (Some "") ]
  = [ ([], Failure INVALID_EMAIL); ([], Failure INVALID_PHONE);
      ([], Failure VALIDATION_ERROR) ].
Proof. vm_compute. reflexivity. Qed.

Lemma truthyOpt_absent (o : option string) :
  JsString.truthyOpt o = false <-> absent o.
Proof.
  unfold absent. destruct o as [[|c s]|]; cbn.
  - split; [intros _; now right | reflexivity].
  - split; [discriminate | intros [H|H]; discriminate H].
  - split; [intros _; now left | reflexivity].
Qed.

Section Submit.

Variable payload : AssessmentSubmissionPayload.

Let contact := contactInfo payload.

Lemma emailBad_check :
  negb (JsString.truthyOpt (email contact))
  || negb (isValidEmail (default ""%string (email contact))) = true
  <-> emailBad payload.
Proof.
  unfold emailBad, absent. fold contact. cbv zeta.
  destruct (email contact) as [[|c e]|].
  - split; [intros _; left; now right | reflexivity].
  - change (negb (isValidEmail (String c e)) = true
            <-> (Some (String c e) = None \/ Some (String c e) = Some ""%string)
                \/ exists e0, Some (String c e) = Some e0
                              /\ isValidEmail e0 = false).
    destruct (isValidEmail (String c e)) eqn:Hv.
    + split; [discriminate|].
      intros [[H|H]|[e' [He' Hf]]]; [discriminate H | discriminate H |].
      injection He' as <-. congruence.
    + split; [|reflexivity]. intros _. right. eexists. split; [reflexivity|].
      exact Hv.
  - split; [intros _; left; now left | reflexivity].
Qed.

Lemma phoneBad_check :
  JsString.truthyOpt (phone contact)
  && negb (isValidPhone (default ""%string (phone contact))) = true
  <-> phoneBad payload.
Proof.
  unfold phoneBad. fold contact. cbv zeta.
  destruct (phone contact) as [[|c p]|].
  - split; [discriminate|]. intros [p' [Hp' [Hne _]]].
    injection Hp' as <-. now contradiction Hne.
  - change (negb (isValidPhone (String c p)) = true
            <-> exists p0, Some (String c p) = Some p0 /\ p0 <> ""%string
                           /\ isValidPhone p0 = false).
    destruct (isValidPhone (String c p)) eqn:Hv.
    + split; [discriminate|]. intros [p' [Hp' [_ Hf]]].
      injection Hp' as <-. congruence.
    + split; [|reflexivity]. intros _. exists (String c p).
      split; [reflexivity|]. split; [discriminate | exact Hv].
  - split; [discriminate|]. intros [p' [Hp' _]]. discriminate Hp'.
Qed.

Lemma nameBad_check :
  negb (JsString.truthyOpt (name contact))
  || (JsString.length (JsString.trim (default ""%string (name contact))) <? 2)%nat
  = true
  <-> nameBad payload.
Proof.
  unfold nameBad, absent. fold contact. cbv zeta.
  destruct (name contact) as [[|c n]|].
  - split; [intros _; left; now right | reflexivity].
  - change ((JsString.length (JsString.trim (String c n)) <? 2)%nat = true
            <-> (Some (String c n) = None \/ Some (String c n) = Some ""%string)
                \/ exists n0, Some (String c n) = Some n0
                              /\ (JsString.length (JsString.trim n0) < 2)%nat).
    rewrite Nat.ltb_lt. split.
    + intros H. right. eexists. split; [reflexivity | exact H].
    + intros [[H|H]|[n' [Hn' Hlt]]]; [discriminate H | discriminate H |].
      injection Hn' as <-. exact Hlt.
  - split; [intros _; left; now left | reflexivity].
Qed.

End Submit.

(** C6. [submitAssessment] checks the contact record before any request:
    INVALID_EMAIL when the email is absent or fails the email pattern;
    otherwise INVALID_PHONE when a phone is given and fails the phone
    pattern; otherwise VALIDATION_ERROR when the name is absent or
    shorter than 2 after trimming; in these cases nothing is sent. Only
    when the three checks pass is the payload POSTed to
    /api/assessment/submit through [apiFetch]. *)
Theorem submitAssessment_validation (IS_TEST_ENV : bool) (world : World)
    (API_BASE_URL : string)
    (stringifyRequest : AssessmentSubmissionPayload -> string)
    (payload : AssessmentSubmissionPayload) :
  let run :=
    submitAssessment IS_TEST_ENV world API_BASE_URL stringifyRequest payload in
  let target := (API_BASE_URL ++ "/api/assessment/submit")%string in
  (emailBad payload -> run = ([], Failure INVALID_EMAIL))
  /\ (~ emailBad payload -> phoneBad payload ->
      run = ([], Failure INVALID_PHONE))
  /\ (~ emailBad payload -> ~ phoneBad payload -> nameBad payload ->
      run = ([], Failure VALIDATION_ERROR))
  /\ (~ emailBad payload -> ~ phoneBad payload -> ~ nameBad payload ->
      run = apiFetch IS_TEST_ENV world target
              {| method := Some "POST"%string; headers := ∅;
                 body := Some (stringifyRequest payload) |}
              DEFAULT_RETRY_CONFIG
      /\ exists sent rest,
           fst run = EvFetch 0 target sent :: rest
           /\ method sent = Some "POST"%string
           /\ body sent = Some (stringifyRequest payload)).
Proof.
  cbv zeta. unfold submitAssessment.
  pose proof (emailBad_check payload) as He.
  pose proof (phoneBad_check payload) as Hp.
  pose proof (nameBad_check payload) as Hn.
  destruct (negb (JsString.truthyOpt (email (contactInfo payload)))
            || negb (isValidEmail
                       (default ""%string (email (contactInfo payload)))))
    eqn:Ce.
  { assert (emailBad payload) by now apply He.
    split; [reflexivity|]. repeat split; intros; contradiction. }
  assert (Hne : ~ emailBad payload) by (intros H; apply He in H; discriminate H).
  split; [intros; contradiction|].
  destruct (JsString.truthyOpt (phone (contactInfo payload))
            && negb (isValidPhone
                       (default ""%string (phone (contactInfo payload)))))
    eqn:Cp.
  { assert (phoneBad payload) by now apply Hp.
    split; [reflexivity|]. split; intros; contradiction. }
  assert (Hnp : ~ phoneBad payload) by (intros H; apply Hp in H; discriminate H).
  split; [intros; contradiction|].
  destruct (negb (JsString.truthyOpt (name (contactInfo payload)))
            || (JsString.length
                  (JsString.trim
                     (default ""%string (name (contactInfo payload)))) <? 2)%nat)
    eqn:Cn.
  { assert (nameBad payload) by now apply Hn.
    split; [reflexivity|]. intros; contradiction. }
  split; [intros _ _ H; apply Hn in H; discriminate H|].
  intros _ _ _. split; [reflexivity|].
  unfold apiFetch, submitUrl.
  destruct (ApiProperties.loop_starts_with_fetch IS_TEST_ENV world
              (API_BASE_URL ++ "/api/assessment/submit")%string
              {| method := Some "POST"%string; headers := ∅;
                 body := Some (stringifyRequest payload) |}
              DEFAULT_RETRY_CONFIG (maxRetries DEFAULT_RETRY_CONFIG) 0 None)
    as [rest Hrest].
  eexists. exists rest. split; [exact Hrest|]. split; reflexivity.
Qed.

Lemma submitAssessment_validation_witness :
  emailBad (contactOf (Some "Ann") (Some "ann at site") None)
  /\ submitAssessment false (always (respond 200 (Some JsonNonObject)) true)
       "" stringify (contactOf (Some "Ann") (Some "ann at site") None)
     = ([], Failure INVALID_EMAIL).
Proof.
  assert (H : emailBad (contactOf (Some "Ann") (Some "ann at site") None)).
  { right. eexists. split; reflexivity. }
  split; [exact H|].
  exact (proj1 (submitAssessment_validation false
                  (always (respond 200 (Some JsonNonObject)) true) ""
                  stringify
                  (contactOf (Some "Ann") (Some "ann at site") None)) H).
Defined.

End SubmitProperties.

Module RegexProperties.
Import Regex.
Local Open Scope string_scope.

Lemma append_empty (s1 s2 : string) : s1 ++ s2 = "" -> s1 = "" /\ s2 = "".
Proof. destruct s1; cbn; [auto | discriminate]. Qed.

Lemma Matches_empty_nullable (r : regex) (s : string) :
  Matches r s -> s = "" -> nullable r = true.
Proof.
  induction 1 as [ | p c Hp | r1 r2 s1 s2 _ IH1 _ IH2 | r1 r2 s _ IH
                 | r1 r2 s _ IH | r | r s1 s2 _ _ _ _ ]; intros He; cbn;
    try reflexivity.
  - discriminate He.
  - apply append_empty in He as [-> ->]. now rewrite IH1, IH2.
  - now rewrite IH.
  - rewrite (IH He). apply orb_true_r.
Qed.

Lemma nullable_Matches (r : regex) : nullable r = true -> Matches r "".
Proof.
  induction r as [ | | p | r1 IH1 r2 IH2 | r1 IH1 r2 IH2 | r IH ]; cbn;
    intros H; try discriminate H.
  - constructor.
  - apply andb_prop in H as [H1 H2].
    change "" with ("" ++ ""). constructor; auto.
  - apply orb_prop in H as [H|H]; [apply MAltL | apply MAltR]; auto.
  - constructor.
Qed.

Lemma deriv_sound (c : ascii) (r : regex) :
  forall s, Matches (deriv c r) s -> Matches r (String c s).
Proof.
  induction r as [ | | p | r1 IH1 r2 IH2 | r1 IH1 r2 IH2 | r IH ]; cbn;
    intros s H.
  - inversion H.
  - inversion H.
  - destruct (p c) eqn:Hp; inversion H; subst. now constructor.
  - assert (Hseq : forall t, Matches (Seq (deriv c r1) r2) t ->
                             Matches (Seq r1 r2) (String c t)).
    { intros t Ht. inversion Ht; subst.
      change (String c (s1 ++ s2)) with (String c s1 ++ s2).
      constructor; auto. }
    destruct (nullable r1) eqn:Hn; [|now apply Hseq].
    inversion H; subst; [now apply Hseq|].
    change (String c s) with ("" ++ String c s).
    constructor; [now apply nullable_Matches | auto].
  - inversion H; subst; [apply MAltL | apply MAltR]; auto.
  - inversion H; subst.
    change (String c (s1 ++ s2)) with (String c s1 ++ s2).
    constructor; auto.
Qed.

Lemma deriv_complete (c : ascii) (r : regex) (cs : string) :
  Matches r cs -> forall s, cs = String c s -> Matches (deriv c r) s.
Proof.
  induction 1 as [ | p a Hp | r1 r2 s1 s2 H1 IH1 H2 IH2 | r1 r2 t _ IH
                 | r1 r2 t _ IH | r | r s1 s2 H1 IH1 H2 IH2 ];
    intros s E; cbn.
  - discriminate E.
  - injection E as -> <-. rewrite Hp. constructor.
  - destruct s1 as [|a s1]; cbn in E.
    + rewrite (Matches_empty_nullable r1 "" H1 eq_refl).
      apply MAltR. now apply IH2.
    + injection E as -> <-.
      assert (Hl : Matches (Seq (deriv c r1) r2) (s1 ++ s2))
        by (constructor; [now apply IH1 | exact H2]).
      destruct (nullable r1); [now apply MAltL | exact Hl].
  - apply MAltL. now apply IH.
  - apply MAltR. now apply IH.
  - discriminate E.
  - destruct s1 as [|a s1]; cbn in E.
    + now apply IH2.
    + injection E as -> <-. constructor; [now apply IH1 | exact H2].
Qed.

(** The matcher decides the denotation of the pattern. *)
Theorem test_Matches (r : regex) (s : string) :
  test r s = true <-> Matches r s.
Proof.
  revert r. induction s as [|c s IH]; intros r; cbn.
  - split; [apply nullable_Matches|].
    intros H. now apply (Matches_empty_nullable r "").
  - rewrite IH. split; [apply deriv_sound|].
    intros H. now apply (deriv_complete c r (String c s)).
Qed.

Lemma Matches_star_class (p : ascii -> bool) (s : string) :
  Matches (Star (Class p)) s <-> allChars p s = true.
Proof.
  split.
  - intros H. remember (Star (Class p)) as r eqn:Er.
    induction H as [ | | | | | r | r s1 s2 H1 _ H2 IH2 ]; try discriminate Er.
    + reflexivity.
    + injection Er as ->. inversion H1; subst.
      change (String c "" ++ s2) with (String c s2). cbn.
      rewrite (IH2 eq_refl). now rewrite H0.
  - induction s as [|c s IH]; cbn; intros H; [constructor|].
    apply andb_prop in H as [Hc Hs].
    change (String c s) with (String c "" ++ s).
    constructor; [now constructor | auto].
Qed.

Lemma Matches_atLeast_class (p : ascii -> bool) (n : nat) (s : string) :
  Matches (AtLeast n (Class p)) s <->
  (n <= String.length s)%nat /\ allChars p s = true.
Proof.
  revert s. induction n as [|n IH]; intros s; cbn [AtLeast].
  - rewrite Matches_star_class. split; [intros H; split; [lia | exact H]|].
    now intros [_ H].
  - split.
    + intros H. inversion H; subst. inversion H2; subst.
      apply IH in H4 as [Hlen Hall].
      change (String c "" ++ s2) with (String c s2). cbn.
      rewrite H1, Hall. split; [lia|auto].
    + intros [Hlen Hall]. destruct s as [|c s]; cbn in *; [lia|].
      apply andb_prop in Hall as [Hc Hs].
      change (String c s) with (String c "" ++ s).
      constructor; [now constructor|]. apply IH. split; [lia | exact Hs].
Qed.

(** [isValidPhone]: at least ten characters, each a digit, white space
    or one of [-+()]. *)
Lemma isValidPhone_spec (phone : string) :
  Api.isValidPhone phone = true <->
  (10 <= String.length phone)%nat /\ allChars Api.phoneChar phone = true.
Proof.
  unfold Api.isValidPhone, Api.phoneRegex.
  rewrite test_Matches. apply Matches_atLeast_class.
Qed.

Lemma Matches_plus_class (p : ascii -> bool) (s : string) :
  Matches (Plus (Class p)) s <-> s <> "" /\ allChars p s = true.
Proof.
  change (Plus (Class p)) with (AtLeast 1 (Class p)).
  rewrite Matches_atLeast_class. destruct s; cbn; split; intros [H1 H2];
    split; try lia; try congruence; auto.
Qed.

(** [isValidEmail]: a non-empty local part, an ["@"], and a domain with
    an inner dot, all without white space or a further ["@"]. *)
Lemma isValidEmail_spec (email : string) :
  Api.isValidEmail email = true <->
  exists l d t,
    email = l ++ "@" ++ d ++ "." ++ t
    /\ (l <> "" /\ allChars Api.notSpaceOrAt l = true)
    /\ (d <> "" /\ allChars Api.notSpaceOrAt d = true)
    /\ (t <> "" /\ allChars Api.notSpaceOrAt t = true).
Proof.
  unfold Api.isValidEmail, Api.emailRegex. rewrite test_Matches. split.
  - intros H.
    inversion H as [ | | ? ? l r1 Hl H1 | | | | ]; subst.
    inversion H1 as [ | | ? ? a r2 Ha H2 | | | | ]; subst.
    inversion H2 as [ | | ? ? d r3 Hd H3 | | | | ]; subst.
    inversion H3 as [ | | ? ? b t Hb Ht | | | | ]; subst.
    inversion Ha as [ | ? ca Hca | | | | | ]; subst.
    inversion Hb as [ | ? cb Hcb | | | | | ]; subst.
    apply Ascii.eqb_eq in Hca, Hcb. subst ca cb.
    exists l, d, t. split; [reflexivity|].
    now rewrite <- !Matches_plus_class.
  - intros (l & d & t & -> & Hl & Hd & Ht).
    apply Matches_plus_class in Hl, Hd, Ht.
    repeat (constructor; try assumption); apply Ascii.eqb_refl.
Qed.

End RegexProperties.

Module SanitizerProperties.
Import Sanitizer Vocabulary.

Example stripHtmlTags_nested_brackets :
  map stripHtmlTags ["<<a>b>"; "a > b < c"; "<a<b>>c"; "x<y"; "<>"]
  = ["b>"; "a > b < c"; ">c"; "x<y"; ""].
Proof. reflexivity. Qed.

Lemma containsChar_stripFrom (a : ascii) (s : string) :
  forall inTag,
    containsChar a (stripFrom inTag s) = true -> containsChar a s = true.
Proof.
  induction s as [|c s IH]; intros inTag; cbn; [auto|].
  destruct inTag.
  - destruct (Ascii.eqb c ">"); intros H; apply IH in H; rewrite H;
      apply orb_true_r.
  - destruct (Ascii.eqb c "<" && containsChar ">" s).
    + intros H. apply IH in H. rewrite H. apply orb_true_r.
    + cbn. intros H. apply orb_prop in H as [H|H]; [now rewrite H|].
      apply IH in H. rewrite H. apply orb_true_r.
Qed.

Lemma noTag_stripFrom (s : string) :
  forall inTag, noTag (stripFrom inTag s) = true.
Proof.
  induction s as [|c s IH]; intros inTag; cbn; [reflexivity|].
  destruct inTag.
  - destruct (Ascii.eqb c ">"); apply IH.
  - destruct (Ascii.eqb c "<" && containsChar ">" s) eqn:Htag; [apply IH|].
    cbn. rewrite IH, andb_true_r.
    destruct (Ascii.eqb c "<"); [|reflexivity]. cbn in Htag |- *.
    destruct (containsChar ">" (stripFrom false s)) eqn:Hc; [|reflexivity].
    apply containsChar_stripFrom in Hc. congruence.
Qed.

Lemma stripFrom_noTag (s : string) :
  noTag s = true -> stripFrom false s = s.
Proof.
  induction s as [|c s IH]; cbn; [reflexivity|].
  intros H. apply andb_prop in H as [Hc Hs].
  apply negb_true_iff in Hc. rewrite Hc. now rewrite (IH Hs).
Qed.

(** X1. The result of [stripHtmlTags] has no ["<"] that is followed by a
    [">"], so nothing is left for the tag pattern to match and
    stripping a second time changes nothing. *)
Theorem stripHtmlTags_complete (value : string) :
  noTag (stripHtmlTags value) = true
  /\ stripHtmlTags (stripHtmlTags value) = stripHtmlTags value.
Proof.
  assert (H : noTag (stripHtmlTags value) = true)
    by apply noTag_stripFrom.
  split; [exact H|]. now apply stripFrom_noTag.
Qed.

Lemma allChars_keepChars (p : ascii -> bool) (s : string) :
  Regex.allChars p (JsString.keepChars p s) = true.
Proof.
  induction s as [|c s IH]; cbn; [reflexivity|].
  destruct (p c) eqn:Hp; cbn; [now rewrite Hp|exact IH].
Qed.

Lemma allChars_takeChars (p : ascii -> bool) (n : nat) (s : string) :
  Regex.allChars p s = true -> Regex.allChars p (JsString.takeChars n s) = true.
Proof.
  revert s. induction n as [|n IH]; intros [|c s]; cbn; auto.
  intros H. apply andb_prop in H as [Hc Hs]. now rewrite Hc, IH.
Qed.

Lemma length_takeChars (n : nat) (s : string) :
  (String.length (JsString.takeChars n s) <= n)%nat.
Proof.
  revert s. induction n as [|n IH]; intros [|c s]; cbn; try lia.
  specialize (IH s). lia.
Qed.

Lemma allChars_removeQuotesAndBrackets (s : string) :
  Regex.allChars notQuoteOrBracket (removeQuotesAndBrackets s) = true.
Proof.
  induction s as [|c s IH]; [reflexivity|].
  cbn [removeQuotesAndBrackets].
  destruct (Regex.oneOf ["<"; ">"; "'"; doubleQuote]%char c) eqn:Hc;
    [exact IH|].
  cbn [Regex.allChars]. rewrite IH.
  unfold notQuoteOrBracket, quoteOrBracket. now rewrite Hc.
Qed.

Example sanitizeEmail_may_keep_leading_blank :
  sanitizeEmail false throwingPurify "' ann@site.org" = " ann@site.org".
Proof. reflexivity. Qed.

(** X2. Whatever DOMPurify returns, and also when it throws, the result
    of [sanitizeEmail] contains no angle bracket, apostrophe or double
    quote. *)
Theorem sanitizeEmail_no_quotes_or_brackets (DOM_AVAILABLE : bool)
    (DOMPurify_sanitize : string -> Config -> option string)
    (email : string) :
  Regex.allChars notQuoteOrBracket
    (sanitizeEmail DOM_AVAILABLE DOMPurify_sanitize email) = true.
Proof.
  unfold sanitizeEmail.
  destruct (sanitizeWithDomPurify DOM_AVAILABLE DOMPurify_sanitize email
              STRICT_CONFIG); [|reflexivity].
  apply allChars_removeQuotesAndBrackets.
Qed.

Lemma allChars_sanitizePhone (DOM_AVAILABLE : bool)
    (DOMPurify_sanitize : string -> Config -> option string)
    (phone : string) :
  Regex.allChars phoneFormatChar
    (sanitizePhone DOM_AVAILABLE DOMPurify_sanitize phone) = true.
Proof.
  unfold sanitizePhone.
  destruct (sanitizeWithDomPurify DOM_AVAILABLE DOMPurify_sanitize phone
              STRICT_CONFIG); [|reflexivity].
  apply allChars_keepChars.
Qed.

Example sanitizePhone_strips_markup :
  sanitizePhone false throwingPurify "(555) 123-4567<script>alert(1)</script>"
  = "(555) 123-4567(1)".
Proof. reflexivity. Qed.

(** X3. The result of [sanitizePhone] consists of digits, white space
    and the characters [-+()] only; hence the phone pattern of the API
    client ([isValidPhone]) accepts it exactly when it has at least ten
    characters. *)
Theorem sanitizePhone_whitelist (DOM_AVAILABLE : bool)
    (DOMPurify_sanitize : string -> Config -> option string)
    (phone : string) :
  let sanitized := sanitizePhone DOM_AVAILABLE DOMPurify_sanitize phone in
  Regex.allChars phoneFormatChar sanitized = true
  /\ (Api.isValidPhone sanitized = true <->
      (10 <= String.length sanitized)%nat).
Proof.
  cbv zeta.
  pose proof (allChars_sanitizePhone DOM_AVAILABLE DOMPurify_sanitize phone)
    as Hall.
  split; [exact Hall|].
  rewrite RegexProperties.isValidPhone_spec. split; [tauto|].
  intros Hlen. split; [exact Hlen | exact Hall].
Qed.

Example sanitizeName_example :
  sanitizeName false throwingPurify "  John O'Brien-Smith 3rd<b>!</b> " None
  = "John O'Brien-Smith rd".
Proof. reflexivity. Qed.

Example sanitizeName_truncates :
  sanitizeName false throwingPurify "Alexandra" (Some 4) = "Alex".
Proof. reflexivity. Qed.

Lemma sanitizeName_bounds (DOM_AVAILABLE : bool)
    (DOMPurify_sanitize : string -> Config -> option string)
    (name : string) (maxLength : Z) :
  0 <= maxLength ->
  Regex.allChars nameChar
    (sanitizeName DOM_AVAILABLE DOMPurify_sanitize name (Some maxLength)) = true
  /\ Z.of_nat (String.length
                 (sanitizeName DOM_AVAILABLE DOMPurify_sanitize name
                    (Some maxLength))) <= maxLength.
Proof.
  intros Hmax. unfold sanitizeName. cbn [default from_option id].
  destruct (sanitizeWithDomPurify DOM_AVAILABLE DOMPurify_sanitize name
              STRICT_CONFIG) as [raw|]; [|cbn; split; [reflexivity | lia]].
  set (kept := JsString.keepChars nameChar (JsString.trim raw)).
  pose proof (allChars_keepChars nameChar (JsString.trim raw)) as Hall.
  fold kept in Hall. unfold JsString.length.
  destruct (Z.of_nat (String.length kept) >? maxLength) eqn:Hgt.
  - unfold JsString.substring0. split; [now apply allChars_takeChars|].
    pose proof (length_takeChars (Z.to_nat maxLength) kept).
    lia.
  - split; [exact Hall | lia].
Qed.

Lemma sanitizeName_whitelist (DOM_AVAILABLE : bool)
    (DOMPurify_sanitize : string -> Config -> option string)
    (name : string) (maxLength : option Z) :
  Regex.allChars nameChar
    (sanitizeName DOM_AVAILABLE DOMPurify_sanitize name maxLength) = true.
Proof.
  unfold sanitizeName.
  destruct (sanitizeWithDomPurify DOM_AVAILABLE DOMPurify_sanitize name
              STRICT_CONFIG) as [raw|]; [|reflexivity].
  pose proof (allChars_keepChars nameChar (JsString.trim raw)) as Hall.
  cbv zeta.
  destruct (Z.of_nat _ >? _); [|exact Hall].
  unfold JsString.substring0. now apply allChars_takeChars.
Qed.

(** X4. The result of [sanitizeName] consists of letters, white space,
    hyphens and apostrophes only, and for a non-negative [maxLength]
    (100 when none is given) it is at most [maxLength] characters long. *)
Theorem sanitizeName_whitelist_and_length (DOM_AVAILABLE : bool)
    (DOMPurify_sanitize : string -> Config -> option string)
    (name : string) (maxLength : option Z) :
  let sanitized :=
    sanitizeName DOM_AVAILABLE DOMPurify_sanitize name maxLength in
  Regex.allChars nameChar sanitized = true
  /\ (0 <= default 100 maxLength ->
      Z.of_nat (String.length sanitized) <= default 100 maxLength).
Proof.
  cbv zeta. split; [apply sanitizeName_whitelist|].
  intros Hmax. destruct maxLength as [m|].
  - now apply sanitizeName_bounds.
  - change (sanitizeName DOM_AVAILABLE DOMPurify_sanitize name None)
      with (sanitizeName DOM_AVAILABLE DOMPurify_sanitize name (Some 100)).
    now apply sanitizeName_bounds.
Qed.

Lemma sanitizeName_whitelist_and_length_witness :
  Z.of_nat (String.length
              (sanitizeName false throwingPurify "Alexandra" (Some 4))) <= 4.
Proof.
  refine (proj2 (sanitizeName_whitelist_and_length false throwingPurify
                   "Alexandra" (Some 4)) _).
  cbn. lia.
Defined.

Example sanitizeInput_zero_means_unlimited :
  sanitizeInput false throwingPurify "  hello world  "
    (mkSanitizationOptions (Some 0) None None) = "hello world"
  /\ sanitizeInput false throwingPurify "  hello world  "
       (mkSanitizationOptions (Some 5) None None) = "hello"
  /\ sanitizeInput false throwingPurify "  hello world  "
       (mkSanitizationOptions (Some 5) (Some false) None) = "  hel".
Proof. repeat split. Qed.

(** X5. With a positive [maxLength] the result of [sanitizeInput] is at
    most [maxLength] characters long; a [maxLength] of 0 is treated like
    an absent one and does not truncate. *)
Theorem sanitizeInput_length (DOM_AVAILABLE : bool)
    (DOMPurify_sanitize : string -> Config -> option string)
    (value : string) (m : Z) (trim allowFormatting : option bool) :
  (0 < m ->
   Z.of_nat (String.length
               (sanitizeInput DOM_AVAILABLE DOMPurify_sanitize value
                  (mkSanitizationOptions (Some m) trim allowFormatting))) <= m)
  /\ sanitizeInput DOM_AVAILABLE DOMPurify_sanitize value
       (mkSanitizationOptions (Some 0) trim allowFormatting)
     = sanitizeInput DOM_AVAILABLE DOMPurify_sanitize value
         (mkSanitizationOptions None trim allowFormatting).
Proof.
  unfold sanitizeInput. cbn [opt_maxLength opt_trim opt_allowFormatting].
  destruct (sanitizeWithDomPurify DOM_AVAILABLE DOMPurify_sanitize value
              (if default false allowFormatting
               then TEXTAREA_CONFIG else STRICT_CONFIG)) as [raw|];
    [|split; [cbn; lia | reflexivity]].
  set (text := if default true trim then JsString.trim raw else raw).
  split; [|reflexivity].
  intros Hm. unfold JsString.length.
  destruct (negb (m =? 0) && (Z.of_nat (String.length text) >? m)) eqn:Hc.
  - unfold JsString.substring0.
    pose proof (length_takeChars (Z.to_nat m) text). lia.
  - apply andb_false_iff in Hc as [Hc|Hc]; lia.
Qed.

Lemma sanitizeInput_length_witness :
  Z.of_nat (String.length
              (sanitizeInput false throwingPurify "  hello world  "
                 (mkSanitizationOptions (Some 5) None None))) <= 5.
Proof.
  refine (proj1 (sanitizeInput_length false throwingPurify "  hello world  "
                   5 None None) _).
  lia.
Defined.

Example sanitizeArray_drops_emptied_items :
  sanitizeArray false throwingPurify ["tag1"; "<script></script>"; "  "; "tag3"]
    noOptions = ["tag1"; "tag3"].
Proof. reflexivity. Qed.

Lemma sanitizeArray_cons (DOM_AVAILABLE : bool)
    (DOMPurify_sanitize : string -> Config -> option string)
    (item : string) (arr : list string) (options : SanitizationOptions) :
  sanitizeArray DOM_AVAILABLE DOMPurify_sanitize (item :: arr) options
  = if String.eqb
         (sanitizeInput DOM_AVAILABLE DOMPurify_sanitize item options) ""
    then sanitizeArray DOM_AVAILABLE DOMPurify_sanitize arr options
    else sanitizeInput DOM_AVAILABLE DOMPurify_sanitize item options
         :: sanitizeArray DOM_AVAILABLE DOMPurify_sanitize arr options.
Proof.
  unfold sanitizeArray. cbn [List.map List.filter].
  now destruct (sanitizeInput DOM_AVAILABLE DOMPurify_sanitize item options).
Qed.

(** X6. [sanitizeArray] returns, in order, the sanitized form of those
    items whose sanitized form is not empty: the result is a
    subsequence of the sanitized items, it holds every non-empty
    sanitized item as often as the sanitized items do and no empty
    string, and so it is all of them when none is empty. Every result
    item is [sanitizeInput] of an input item, and the result is not
    longer than the input. *)
Theorem sanitizeArray_spec (DOM_AVAILABLE : bool)
    (DOMPurify_sanitize : string -> Config -> option string)
    (arr : list string) (options : SanitizationOptions) :
  let sanitized :=
    List.map
      (fun item => sanitizeInput DOM_AVAILABLE DOMPurify_sanitize item options)
      arr in
  let result := sanitizeArray DOM_AVAILABLE DOMPurify_sanitize arr options in
  (forall item, In item result ->
     item <> ""
     /\ exists source, In source arr
          /\ item = sanitizeInput DOM_AVAILABLE DOMPurify_sanitize source
                      options)
  /\ (List.length result <= List.length arr)%nat
  /\ sublist result sanitized
  /\ (forall item, item <> "" ->
        List.count_occ String.string_dec result item
        = List.count_occ String.string_dec sanitized item)
  /\ ((forall item, In item sanitized -> item <> "") -> result = sanitized).
Proof.
  cbv zeta. split; [|split; [|split; [|split]]].
  - unfold sanitizeArray.
    intros item Hin. apply List.filter_In in Hin as [Hin Hlen].
    split.
    + intros ->. discriminate Hlen.
    + apply List.in_map_iff in Hin as [source [<- Hsrc]]. eauto.
  - unfold sanitizeArray. etransitivity; [apply List.filter_length_le|].
    now rewrite List.length_map.
  - induction arr as [|x arr IH]; [constructor|].
    rewrite sanitizeArray_cons. cbn [List.map].
    destruct (String.eqb _ ""); now constructor.
  - intros item Hne. induction arr as [|x arr IH]; [reflexivity|].
    rewrite sanitizeArray_cons. cbn [List.map List.count_occ].
    destruct (String.eqb _ "") eqn:He.
    + apply String.eqb_eq in He. rewrite He.
      destruct (String.string_dec "" item) as [Hx|Hx]; [congruence|].
      exact IH.
    + cbn [List.count_occ]. now rewrite IH.
  - intros Hall. induction arr as [|x arr IH]; [reflexivity|].
    rewrite sanitizeArray_cons. cbn [List.map] in Hall |- *.
    destruct (String.eqb _ "") eqn:He.
    + apply String.eqb_eq in He. exfalso.
      apply (Hall _ (or_introl eq_refl)). exact He.
    + f_equal. apply IH. intros item Hin. apply Hall. now right.
Qed.

Lemma sanitizeArray_spec_witness :
  sanitizeArray false throwingPurify ["tag1"; " tag3 "] noOptions
  = ["tag1"; "tag3"].
Proof.
  refine (proj2 (proj2 (proj2 (proj2
            (sanitizeArray_spec false throwingPurify ["tag1"; " tag3 "]
               noOptions)))) _).
  intros item [<-|[<-|[]]]; discriminate.
Defined.

End SanitizerProperties.

Module ValidatorProperties.
Import Validation Vocabulary.

Lemma resultOf_consistent (errs : list string) : consistent (resultOf errs).
Proof. unfold consistent. destruct errs; cbn; split; congruence. Qed.

Lemma isValid_resultOf (errs : list string) :
  isValid (resultOf errs) = true <-> errs = [].
Proof. apply resultOf_consistent. Qed.

Lemma missingText_answered (value : option string) :
  missingText value = false <-> answered value.
Proof.
  unfold answered, missingText. destruct value as [v|].
  - rewrite orb_false_iff, negb_false_iff. split.
    + intros [_ Hlen]. exists v. split; [reflexivity|].
      intros He. rewrite He in Hlen. discriminate Hlen.
    + intros (v' & Hv & Hne). injection Hv as <-. split.
      * destruct v; [now contradiction Hne | reflexivity].
      * destruct (JsString.trim v); [now contradiction Hne | reflexivity].
  - split; [discriminate|]. intros (v' & Hv & _). discriminate Hv.
Qed.

Section Validators.

Variable DOM_AVAILABLE : bool.
Variable DOMPurify_sanitize : string -> Sanitizer.Config -> option string.
Variable EMAIL_REGEX_test : string -> bool.
Variable RULES : ValidationRules.
Variable MESSAGES : ErrorMessages.
Variable PAGES : Pages.
Variable PHONE_REGEX_test : string -> bool.

Let vName := validateName DOM_AVAILABLE DOMPurify_sanitize RULES.
Let vEmail := validateEmail DOM_AVAILABLE DOMPurify_sanitize EMAIL_REGEX_test.
Let vPhone :=
  validatePhone DOM_AVAILABLE DOMPurify_sanitize RULES PHONE_REGEX_test.
Let vContact :=
  validateContactInfo DOM_AVAILABLE DOMPurify_sanitize EMAIL_REGEX_test RULES
    MESSAGES PHONE_REGEX_test.
Let vAssessment :=
  validateAssessment DOM_AVAILABLE DOMPurify_sanitize EMAIL_REGEX_test RULES
    MESSAGES PHONE_REGEX_test.
Let vPage :=
  validateCurrentPage DOM_AVAILABLE DOMPurify_sanitize EMAIL_REGEX_test RULES
    MESSAGES PAGES PHONE_REGEX_test.

Lemma validateConditions_consistent c :
  consistent (validateConditions RULES MESSAGES c).
Proof.
  destruct c; [apply resultOf_consistent|]. unfold consistent. cbn.
  split; discriminate.
Qed.

Lemma validateSensations_consistent c :
  consistent (validateSensations RULES MESSAGES c).
Proof.
  destruct c; [apply resultOf_consistent|]. unfold consistent. cbn.
  split; discriminate.
Qed.

Lemma validateIntensity_consistent i :
  consistent (validateIntensity RULES MESSAGES i).
Proof.
  destruct i; [apply resultOf_consistent|]. unfold consistent. cbn.
  split; discriminate.
Qed.

(** Every validator returns a consistent result: [isValid] is true
    exactly when the list of errors is empty. *)
Theorem validators_consistent (responses : AssessmentResponses)
    (items : option (list string)) (text name email phone : option string)
    (intensity : option NumberValue) (hasBudget : option bool) :
  consistent (validateConditions RULES MESSAGES items)
  /\ consistent (validateSensations RULES MESSAGES items)
  /\ consistent (validateDuration MESSAGES text)
  /\ consistent (validateIntensity RULES MESSAGES intensity)
  /\ consistent (validateBudgetQuestion MESSAGES hasBudget)
  /\ consistent (validateBudgetRange MESSAGES text)
  /\ consistent (validateUrgency MESSAGES text)
  /\ consistent (validateActivityImpact MESSAGES text)
  /\ consistent (vContact name email phone)
  /\ consistent (vPage responses)
  /\ consistent (vAssessment responses).
Proof.
  assert (Hvalid : consistent validResult) by (unfold consistent; now cbn).
  repeat match goal with |- _ /\ _ => split end;
    try apply resultOf_consistent;
    try apply validateConditions_consistent;
    try apply validateSensations_consistent;
    try apply validateIntensity_consistent.
  unfold vPage, validateCurrentPage.
  destruct (r_currentPage responses) as [page|]; [|exact Hvalid].
  repeat match goal with
         | |- consistent (if ?b then _ else _) => destruct b
         end;
    try exact Hvalid; try apply resultOf_consistent;
    try apply validateConditions_consistent;
    try apply validateSensations_consistent;
    try apply validateIntensity_consistent.
Qed.

(** A required text answer ([validateDuration],
    [validateBudgetRange], [validateUrgency], [validateActivityImpact])
    is valid exactly when it is present and not blank after trimming;
    otherwise the single error is the required-field message. *)
Theorem required_text_validators (value : option string) :
  let results :=
    [validateDuration MESSAGES value; validateBudgetRange MESSAGES value;
     validateUrgency MESSAGES value; validateActivityImpact MESSAGES value] in
  forall r, In r results ->
    (isValid r = true <-> answered value)
    /\ (isValid r = false -> errors r = [E_REQUIRED_FIELD MESSAGES]).
Proof.
  cbv zeta. intros r Hin.
  assert (Hr : r = validateRequiredText MESSAGES value).
  { cbn in Hin. destruct Hin as [<-|[<-|[<-|[<-|[]]]]]; reflexivity. }
  subst r. unfold validateRequiredText.
  rewrite <- missingText_answered.
  destruct (missingText value); cbn;
    (split; [split; intros; congruence | intros; congruence]).
Qed.

Lemma validateName_truthy n : vName n = true -> JsString.truthy n = true.
Proof.
  unfold vName, validateName. now destruct (JsString.truthy n).
Qed.

Lemma validateEmail_truthy e : vEmail e = true -> JsString.truthy e = true.
Proof.
  unfold vEmail, validateEmail. now destruct (JsString.truthy e).
Qed.

Lemma nameError_nil name :
  nameError DOM_AVAILABLE DOMPurify_sanitize RULES MESSAGES name = []
  <-> exists n, name = Some n /\ vName n = true.
Proof.
  unfold nameError. fold vName. destruct name as [n|].
  - destruct (vName n) eqn:Hv.
    + rewrite (validateName_truthy n Hv). cbn. split; eauto.
    + rewrite orb_true_r. split; [discriminate|].
      intros (n' & Hn & Hv'). injection Hn as <-. congruence.
  - split; [discriminate|]. intros (n' & Hn & _). discriminate Hn.
Qed.

Lemma emailError_nil email :
  emailError DOM_AVAILABLE DOMPurify_sanitize EMAIL_REGEX_test MESSAGES email
  = []
  <-> exists e, email = Some e /\ vEmail e = true.
Proof.
  unfold emailError. fold vEmail. destruct email as [e|].
  - destruct (vEmail e) eqn:Hv.
    + rewrite (validateEmail_truthy e Hv). cbn. split; eauto.
    + rewrite orb_true_r. split; [discriminate|].
      intros (e' & He & Hv'). injection He as <-. congruence.
  - split; [discriminate|]. intros (e' & He & _). discriminate He.
Qed.

Lemma phoneError_nil phone :
  phoneError DOM_AVAILABLE DOMPurify_sanitize RULES MESSAGES PHONE_REGEX_test
    phone = []
  <-> forall p, phone = Some p -> JsString.trim p <> "" -> vPhone p = true.
Proof.
  unfold phoneError. fold vPhone. destruct phone as [p|].
  - destruct (JsString.truthy p
              && (0 <? JsString.length (JsString.trim p))%nat
              && negb (vPhone p)) eqn:Hc.
    + split; [discriminate|]. intros H.
      apply andb_prop in Hc as [Hc Hv]. apply andb_prop in Hc as [_ Hlen].
      rewrite H in Hv; [discriminate Hv | reflexivity |].
      intros He. rewrite He in Hlen. discriminate Hlen.
    + split; [|reflexivity]. intros _ p' Hp Hne. injection Hp as <-.
      assert (Ht : JsString.truthy p = true).
      { destruct p; [now contradiction Hne | reflexivity]. }
      assert (Hl : (0 <? JsString.length (JsString.trim p))%nat = true).
      { destruct (JsString.trim p); [now contradiction Hne | reflexivity]. }
      rewrite Ht, Hl in Hc. cbn in Hc. now apply negb_false_iff in Hc.
  - split; [|reflexivity]. intros _ p Hp. discriminate Hp.
Qed.

(** X7. [validateContactInfo] accepts exactly when the name is present
    and passes [validateName], the email is present and passes
    [validateEmail], and the phone, if it is present and not blank,
    passes [validatePhone]; a missing or blank phone is never an error.
    It reports at most three errors. *)
Theorem validateContactInfo_spec (name email phone : option string) :
  (isValid (vContact name email phone) = true <->
   (exists n, name = Some n /\ vName n = true)
   /\ (exists e, email = Some e /\ vEmail e = true)
   /\ (forall p, phone = Some p -> JsString.trim p <> "" -> vPhone p = true))
  /\ (List.length (errors (vContact name email phone)) <= 3)%nat.
Proof.
  unfold vContact, validateContactInfo. split.
  - rewrite isValid_resultOf.
    rewrite <- nameError_nil, <- emailError_nil, <- phoneError_nil.
    split.
    + intros H. apply List.app_eq_nil in H as [H1 H].
      apply List.app_eq_nil in H as [H2 H3]. auto.
    + intros (H1 & H2 & H3). now rewrite H1, H2, H3.
  - cbn [errors resultOf]. rewrite !List.length_app.
    unfold nameError, emailError, phoneError.
    destruct name as [n|], email as [e|], phone as [p|]; cbn;
      repeat match goal with
             | |- context [if ?b then _ else _] => destruct b
             end; cbn; lia.
Qed.

(** X8. [validateAssessment] accepts exactly when the conditions,
    sensations, duration, intensity, urgency, activity impact and contact
    checks all accept and, only if [hasBudget] is true, the budget range
    check accepts as well. *)
Theorem validateAssessment_spec (responses : AssessmentResponses) :
  isValid (vAssessment responses) = true <->
  isValid (validateConditions RULES MESSAGES (r_conditions responses)) = true
  /\ isValid (validateSensations RULES MESSAGES (r_sensations responses)) = true
  /\ isValid (validateDuration MESSAGES (r_duration responses)) = true
  /\ isValid (validateIntensity RULES MESSAGES (r_intensity responses)) = true
  /\ isValid (validateUrgency MESSAGES (r_urgency responses)) = true
  /\ isValid (validateActivityImpact MESSAGES (r_activityImpact responses))
     = true
  /\ isValid (vContact (r_name responses) (r_email responses)
                (r_phone responses)) = true
  /\ (r_hasBudget responses = Some true ->
      isValid (validateBudgetRange MESSAGES (r_budgetRange responses)) = true).
Proof.
  unfold vAssessment, validateAssessment. rewrite isValid_resultOf.
  pose proof (validateConditions_consistent (r_conditions responses)) as H1.
  pose proof (validateSensations_consistent (r_sensations responses)) as H2.
  pose proof (validateIntensity_consistent (r_intensity responses)) as H4.
  pose proof (resultOf_consistent _
              : consistent (validateDuration MESSAGES (r_duration responses)))
    as H3.
  pose proof (resultOf_consistent _
              : consistent (validateUrgency MESSAGES (r_urgency responses)))
    as H5.
  pose proof (resultOf_consistent _
              : consistent (validateActivityImpact MESSAGES
                              (r_activityImpact responses))) as H6.
  pose proof (resultOf_consistent _
              : consistent (vContact (r_name responses) (r_email responses)
                              (r_phone responses))) as H7.
  pose proof (resultOf_consistent _
              : consistent (validateBudgetRange MESSAGES
                              (r_budgetRange responses))) as H8.
  unfold consistent in *. fold vContact.
  rewrite H1, H2, H3, H4, H5, H6, H7, H8. clear.
  rewrite !app_nil.
  destruct (r_hasBudget responses) as [[|]|].
  - intuition.
  - intuition discriminate.
  - intuition discriminate.
Qed.

(** X9. For a non-negative NAME_MAX_LENGTH, [validateName] accepts
    exactly when the name is non-empty, its trimmed length lies between
    NAME_MIN_LENGTH and NAME_MAX_LENGTH, and the sanitized name has at
    least NAME_MIN_LENGTH characters; the sanitized name of an accepted
    input consists of letters, white space, hyphens and apostrophes. *)
Theorem validateName_spec (name : string) :
  0 <= NAME_MAX_LENGTH RULES ->
  let sanitized :=
    Sanitizer.sanitizeName DOM_AVAILABLE DOMPurify_sanitize name
      (Some (NAME_MAX_LENGTH RULES)) in
  (vName name = true <->
   name <> ""
   /\ NAME_MIN_LENGTH RULES <= Z.of_nat (String.length (JsString.trim name))
      <= NAME_MAX_LENGTH RULES
   /\ NAME_MIN_LENGTH RULES <= Z.of_nat (String.length sanitized))
  /\ Regex.allChars Sanitizer.nameChar sanitized = true.
Proof.
  intros Hmax. cbv zeta.
  destruct (SanitizerProperties.sanitizeName_bounds
              DOM_AVAILABLE DOMPurify_sanitize name
              (NAME_MAX_LENGTH RULES) Hmax) as [Hall Hlen].
  split; [|exact Hall].
  unfold vName, validateName, JsString.length.
  destruct name as [|c name]; cbn [JsString.truthy negb].
  - split; [discriminate|]. intros [H _]. now contradiction H.
  - match goal with
    | |- (if ?t then _ else _) = _ <-> _ => destruct t eqn:Ht
    end.
    + split; [discriminate|]. intros (_ & Hrange & _).
      apply orb_prop in Ht. lia.
    + apply orb_false_elim in Ht as [Ht1 Ht2].
      match goal with
      | |- (if ?t then _ else _) = _ <-> _ => destruct t eqn:Hs
      end.
      * split; [discriminate|]. intros (_ & _ & Hmin).
        apply orb_prop in Hs. lia.
      * apply orb_false_elim in Hs as [Hs1 Hs2].
        split; [intros _ | reflexivity].
        split; [discriminate|]. lia.
Qed.

(** X10. [validatePhone] accepts exactly when the input is non-empty,
    its sanitized form is non-empty, holds at least PHONE_MIN_LENGTH
    digits and matches PHONE_REGEX; the pattern is tested on the
    sanitized text, which holds only digits, white space and [-+()]. *)
Theorem validatePhone_spec (phone : string) :
  let sanitized :=
    Sanitizer.sanitizePhone DOM_AVAILABLE DOMPurify_sanitize phone in
  (vPhone phone = true <->
   phone <> ""
   /\ sanitized <> ""
   /\ PHONE_MIN_LENGTH RULES
      <= Z.of_nat (String.length (JsString.keepChars Regex.isDigit sanitized))
   /\ PHONE_REGEX_test sanitized = true)
  /\ Regex.allChars Sanitizer.phoneFormatChar sanitized = true.
Proof.
  cbv zeta. split;
    [|apply SanitizerProperties.allChars_sanitizePhone].
  unfold vPhone, validatePhone, JsString.length.
  set (sanitized :=
         Sanitizer.sanitizePhone DOM_AVAILABLE DOMPurify_sanitize phone).
  destruct phone as [|c phone]; cbn [JsString.truthy negb].
  - split; [discriminate|]. intros [H _]. now contradiction H.
  - destruct (String.length sanitized =? 0)%nat eqn:Hlen.
    + split; [discriminate|]. intros (_ & Hne & _).
      destruct sanitized; [now contradiction Hne | discriminate Hlen].
    + assert (Hne : sanitized <> "") by (intros He; now rewrite He in Hlen).
      destruct (Z.of_nat (String.length
                            (JsString.keepChars Regex.isDigit sanitized))
                <? PHONE_MIN_LENGTH RULES) eqn:Hd.
      * split; [discriminate|]. intros (_ & _ & Hmin & _). lia.
      * split; [intros Hr | intros (_ & _ & _ & Hr); exact Hr].
        repeat split; try assumption; try discriminate. lia.
Qed.

(** X11. [validateConditions] and [validateSensations] accept exactly
    when the array is present and has at least MIN_CONDITIONS, resp.
    MIN_SENSATIONS, entries; [validateIntensity] accepts exactly the
    integers from MIN_CONDITIONS (the bound the code compares with) to
    10, and rejects fractions, NaN and a missing value. *)
Theorem selection_validators (items : option (list string))
    (intensity : option NumberValue) :
  (isValid (validateConditions RULES MESSAGES items) = true <->
   exists l, items = Some l /\ MIN_CONDITIONS RULES <= Z.of_nat (List.length l))
  /\ (isValid (validateSensations RULES MESSAGES items) = true <->
      exists l, items = Some l
                /\ MIN_SENSATIONS RULES <= Z.of_nat (List.length l))
  /\ (isValid (validateIntensity RULES MESSAGES intensity) = true <->
      exists z, intensity = Some (Integer z)
                /\ MIN_CONDITIONS RULES <= z <= 10).
Proof.
  split; [|split].
  - destruct items as [l|]; cbn.
    + destruct (Z.of_nat (List.length l) <? MIN_CONDITIONS RULES) eqn:H; cbn.
      * split; [discriminate|]. intros (l' & Hl & Hm).
        injection Hl as <-. lia.
      * split; [|reflexivity]. intros _. exists l. split; [reflexivity|lia].
    + split; [discriminate|]. intros (l' & Hl & _). discriminate Hl.
  - destruct items as [l|]; cbn.
    + destruct (Z.of_nat (List.length l) <? MIN_SENSATIONS RULES) eqn:H; cbn.
      * split; [discriminate|]. intros (l' & Hl & Hm).
        injection Hl as <-. lia.
      * split; [|reflexivity]. intros _. exists l. split; [reflexivity|lia].
    + split; [discriminate|]. intros (l' & Hl & _). discriminate Hl.
  - destruct intensity as [[z|]|]; cbn.
    + destruct ((z <? MIN_CONDITIONS RULES) || (z >? 10)) eqn:H; cbn.
      * split; [discriminate|]. intros (z' & Hz & Hm).
        injection Hz as <-. apply orb_prop in H. lia.
      * split; [|reflexivity]. intros _. exists z. split; [reflexivity|].
        apply orb_false_elim in H. lia.
    + split; [discriminate|]. intros (z' & Hz & _). discriminate Hz.
    + split; [discriminate|]. intros (z' & Hz & _). discriminate Hz.
Qed.

End Validators.

Lemma required_text_validators_witness :
  errors (validateUrgency exampleMessages (Some "   ")) = ["required"].
Proof.
  refine (proj2 (required_text_validators exampleMessages (Some "   ")
                   (validateUrgency exampleMessages (Some "   ")) _) _).
  - right. right. left. reflexivity.
  - reflexivity.
Defined.

End ValidatorProperties.

Module ValidatorWitnesses.
Import Validation Vocabulary.

Lemma validateName_spec_witness :
  Regex.allChars Sanitizer.nameChar
    (Sanitizer.sanitizeName false throwingPurify "Ann O'Hara"
       (Some (NAME_MAX_LENGTH exampleRules))) = true.
Proof.
  refine (proj2 (ValidatorProperties.validateName_spec false throwingPurify
                   exampleRules "Ann O'Hara" _)).
  cbn. lia.
Defined.

Example validators_on_examples :
  validateName false throwingPurify exampleRules "A" = false
  /\ validateName false throwingPurify exampleRules "Ann O'Hara" = true
  /\ validateName false throwingPurify exampleRules "<b></b>  12 " = false
  /\ validatePhone false throwingPurify exampleRules Api.isValidPhone
       "(555) 123-4567" = true
  /\ validatePhone false throwingPurify exampleRules Api.isValidPhone
       "555-1234" = false
  /\ errors (validateContactInfo false throwingPurify Api.isValidEmail
               exampleRules exampleMessages Api.isValidPhone
               (Some "A") None (Some "  "))
     = ["name"; "email"].
Proof. repeat split. Qed.

End ValidatorWitnesses.

Module ClientProperties.
Import Api Scenario Vocabulary.
Local Open Scope list_scope.

Lemma fetchAttempts_app (t1 t2 : list Event) :
  fetchAttempts (t1 ++ t2) = fetchAttempts t1 ++ fetchAttempts t2.
Proof. unfold fetchAttempts. apply List.flat_map_app. Qed.

Lemma sleeps_app (t1 t2 : list Event) :
  sleeps (t1 ++ t2) = sleeps t1 ++ sleeps t2.
Proof. unfold sleeps. apply List.flat_map_app. Qed.

Lemma fetchAttempts_sleep (IS_TEST_ENV : bool) (ms : Z) (rest : list Event) :
  fetchAttempts (sleep IS_TEST_ENV ms ++ rest) = fetchAttempts rest.
Proof. unfold sleep. now destruct IS_TEST_ENV. Qed.

(** The pauses of [sleep]: none in the test environment. *)
Lemma sleeps_sleep (IS_TEST_ENV : bool) (ms : Z) (rest : list Event) :
  sleeps (sleep IS_TEST_ENV ms ++ rest)
  = (if IS_TEST_ENV then [] else [ms]) ++ sleeps rest.
Proof. unfold sleep. now destruct IS_TEST_ENV. Qed.

Section Loop.

Variable IS_TEST_ENV : bool.
Variable world : World.
Variable url : string.
Variable options : RequestInit.
Variable retryConfig : RetryConfig.

Let handle := handleResponse IS_TEST_ENV world options.
Let oneTry := tryBlock IS_TEST_ENV world url options.
Let loop := attemptLoop IS_TEST_ENV world url options retryConfig.
Let req := requestOf IS_TEST_ENV world options.
Let useCsrf := shouldUseCsrf IS_TEST_ENV options.

(** The events of one iteration: the request, followed by nothing, by
    one token refresh (first iteration of a CSRF-protected call only) or
    by one token update. *)
Lemma oneTry_shape (attempt : nat) :
  exists evs,
    fst (oneTry attempt) = EvFetch attempt url (req attempt) :: evs
    /\ fetchAttempts evs = []
    /\ sleeps evs = []
    /\ (countRefreshes evs = 0%nat
        \/ (attempt = 0%nat /\ useCsrf = true
            /\ countRefreshes evs = 1%nat)).
Proof.
  unfold oneTry, tryBlock.
  destruct (fetchOutcome world attempt) as [e|response].
  - exists []. cbn. auto.
  - unfold handleResponse. fold useCsrf.
    destruct ((status response =? 403) && useCsrf) eqn:Hb.
    + apply andb_prop in Hb as [_ Hu].
      destruct (isCsrfError (errorDataOf response)) as [[|]|];
        try (eexists; cbn; repeat split; auto; fail).
      destruct (attempt =? 0)%nat eqn:Ha;
        [|eexists; cbn; repeat split; auto].
      apply Nat.eqb_eq in Ha.
      destruct (refreshSucceeds world); eexists; cbn;
        (split; [reflexivity|]); (split; [reflexivity|]);
        (split; [reflexivity|]); right; auto.
    + destruct (negb (ok response)).
      * destruct (negb (errorTextReadable (errorDataOf response)));
          [eexists; cbn; repeat split; auto|].
        destruct ((400 <=? status response) && (status response <? 500));
          eexists; cbn; repeat split; auto.
      * destruct (json response); [|eexists; cbn; repeat split; auto].
        destruct (csrfHeader response) as [tok|];
          [|eexists; cbn; repeat split; auto].
        destruct (JsString.truthy tok); eexists; cbn; repeat split; auto.
Qed.

(** Unfolding of one iteration, by the way the [try] block ends. *)
Lemma loop_returns (remaining attempt : nat) (lastError : option Thrown)
    (evs : list Event) (res : ApiResponse) :
  oneTry attempt = (evs, Returns res) ->
  loop (S remaining) attempt lastError = (evs, res).
Proof.
  intros H. unfold loop. cbn [attemptLoop]. fold oneTry. now rewrite H.
Qed.

Lemma loop_continues (remaining attempt : nat) (lastError : option Thrown)
    (evs : list Event) :
  oneTry attempt = (evs, Continues) ->
  loop (S remaining) attempt lastError
  = (evs ++ fst (loop remaining (S attempt) lastError),
     snd (loop remaining (S attempt) lastError)).
Proof.
  intros H. unfold loop. cbn [attemptLoop]. fold oneTry. rewrite H.
  fold loop. now destruct (loop remaining (S attempt) lastError).
Qed.

Lemma loop_throws (remaining attempt : nat) (lastError : option Thrown)
    (evs : list Event) (error : Thrown) :
  oneTry attempt = (evs, Throws error) ->
  loop (S remaining) attempt lastError
  = if (attempt <? maxRetries retryConfig)%nat
       && isRetryableError (caughtAs error)
    then (evs ++ sleep IS_TEST_ENV (getRetryDelay attempt retryConfig)
               ++ fst (loop remaining (S attempt) (Some (caughtAs error))),
          snd (loop remaining (S attempt) (Some (caughtAs error))))
    else (evs, afterLoop (Some (caughtAs error))).
Proof.
  intros H. unfold loop. cbn [attemptLoop]. fold oneTry. rewrite H.
  fold loop.
  destruct ((attempt <? maxRetries retryConfig)%nat
            && isRetryableError (caughtAs error)); [|reflexivity].
  now destruct (loop remaining (S attempt) (Some (caughtAs error))).
Qed.

(** Case analysis on one iteration of the loop. *)
Lemma loop_cases (remaining attempt : nat) (lastError : option Thrown) :
  exists evs,
    fst (oneTry attempt) = evs
    /\ ((exists res, loop (S remaining) attempt lastError = (evs, res))
        \/ (exists le,
              loop (S remaining) attempt lastError
              = (evs ++ fst (loop remaining (S attempt) le),
                 snd (loop remaining (S attempt) le)))
        \/ (exists le,
              (attempt < maxRetries retryConfig)%nat
              /\ loop (S remaining) attempt lastError
                 = (evs ++ sleep IS_TEST_ENV (getRetryDelay attempt retryConfig)
                        ++ fst (loop remaining (S attempt) le),
                    snd (loop remaining (S attempt) le)))).
Proof.
  destruct (oneTry attempt) as [evs completion] eqn:Ht.
  exists evs. split; [reflexivity|].
  destruct completion as [res| |error].
  - left. exists res. now apply loop_returns.
  - right. left. exists lastError. now apply loop_continues.
  - rewrite (loop_throws remaining attempt lastError evs error Ht).
    destruct (attempt <? maxRetries retryConfig)%nat eqn:Hlt; cbn [andb].
    + destruct (isRetryableError (caughtAs error)).
      * right. right. exists (Some (caughtAs error)).
        apply Nat.ltb_lt in Hlt. auto.
      * left. eauto.
    + left. eauto.
Qed.

Lemma loop_attempts (remaining attempt : nat) (lastError : option Thrown) :
  fetchAttempts (fst (loop remaining attempt lastError))
  = List.seq attempt (countFetches (fst (loop remaining attempt lastError))).
Proof.
  revert attempt lastError.
  induction remaining as [|remaining IH]; intros attempt lastError;
    [reflexivity|].
  destruct (loop_cases remaining attempt lastError) as (evs & Hevs & Hcase).
  destruct (oneTry_shape attempt) as (tl & Hshape & Hf & _).
  rewrite Hshape in Hevs. subst evs.
  assert (Hfa : fetchAttempts (EvFetch attempt url (req attempt) :: tl)
                = [attempt]).
  { change (EvFetch attempt url (req attempt) :: tl)
      with ([EvFetch attempt url (req attempt)] ++ tl).
    rewrite fetchAttempts_app, Hf. reflexivity. }
  assert (Hcf : countFetches (EvFetch attempt url (req attempt) :: tl)
                = 1%nat).
  { unfold countFetches. cbn [List.filter isFetch List.length]. f_equal.
    clear - Hf. induction tl as [|e tl IH]; [reflexivity|].
    destruct e; cbn in *; try discriminate; auto. }
  destruct Hcase as [[res ->]|[[le ->]|[le [_ ->]]]]; cbn [fst].
  - now rewrite Hfa, Hcf.
  - rewrite fetchAttempts_app, ApiProperties.countFetches_app, Hfa, Hcf, IH.
    reflexivity.
  - rewrite fetchAttempts_app, ApiProperties.countFetches_app, Hfa, Hcf.
    rewrite fetchAttempts_sleep, ApiProperties.countFetches_sleep.
    rewrite IH. reflexivity.
Qed.

Lemma loop_refreshes (remaining attempt : nat) (lastError : option Thrown) :
  (countRefreshes (fst (loop remaining attempt lastError))
   <= if (attempt =? 0)%nat && useCsrf then 1 else 0)%nat.
Proof.
  revert attempt lastError.
  induction remaining as [|remaining IH]; intros attempt lastError;
    [cbn; lia|].
  destruct (loop_cases remaining attempt lastError) as (evs & Hevs & Hcase).
  destruct (oneTry_shape attempt) as (tl & Hshape & _ & _ & Hr).
  rewrite Hshape in Hevs. subst evs.
  assert (Hhead : (countRefreshes (EvFetch attempt url (req attempt) :: tl)
                   <= if (attempt =? 0)%nat && useCsrf then 1 else 0)%nat).
  { change (countRefreshes (EvFetch attempt url (req attempt) :: tl))
      with (countRefreshes tl).
    destruct Hr as [->|(-> & -> & ->)]; [lia | cbn; lia]. }
  assert (Hnext : forall le,
             countRefreshes (fst (loop remaining (S attempt) le)) = 0%nat).
  { intros le. specialize (IH (S attempt) le). cbn in IH. lia. }
  destruct Hcase as [[res ->]|[[le ->]|[le [_ ->]]]]; cbn [fst].
  - exact Hhead.
  - rewrite ApiProperties.countRefreshes_app, Hnext. lia.
  - rewrite ApiProperties.countRefreshes_app.
    rewrite ApiProperties.countRefreshes_sleep, Hnext. lia.
Qed.

End Loop.

(** X12. The requests of a call are numbered 0, 1, 2, ... without gaps
    or repetition, and at least one request is always sent. *)
Theorem apiFetch_attempts_consecutive (IS_TEST_ENV : bool) (world : World)
    (url : string) (options : RequestInit) (retryConfig : RetryConfig) :
  let trace := fst (apiFetch IS_TEST_ENV world url options retryConfig) in
  fetchAttempts trace = List.seq 0 (countFetches trace)
  /\ (1 <= countFetches trace)%nat.
Proof.
  cbv zeta. unfold apiFetch. split; [apply loop_attempts|].
  destruct (ApiProperties.loop_starts_with_fetch IS_TEST_ENV world url options
              retryConfig (maxRetries retryConfig) 0 None) as [rest ->].
  unfold countFetches. cbn. lia.
Qed.

(** X13. A call refreshes the CSRF token at most once, and never in the
    test environment or for a method that is not state-changing. *)
Theorem apiFetch_refreshes_at_most_once (IS_TEST_ENV : bool) (world : World)
    (url : string) (options : RequestInit) (retryConfig : RetryConfig) :
  let trace := fst (apiFetch IS_TEST_ENV world url options retryConfig) in
  (countRefreshes trace <= 1)%nat
  /\ (IS_TEST_ENV = true \/ requiresCsrfToken (method options) = false ->
      countRefreshes trace = 0%nat).
Proof.
  cbv zeta. unfold apiFetch.
  pose proof (loop_refreshes IS_TEST_ENV world url options retryConfig
                (S (maxRetries retryConfig)) 0 None) as H.
  cbn [Nat.eqb andb] in H. split.
  - destruct (shouldUseCsrf IS_TEST_ENV options); lia.
  - intros Hoff.
    assert (Hu : shouldUseCsrf IS_TEST_ENV options = false).
    { unfold shouldUseCsrf. destruct Hoff as [->| ->];
        [apply andb_false_r | reflexivity]. }
    rewrite Hu in H. lia.
Qed.

Lemma apiFetch_refreshes_at_most_once_witness :
  countRefreshes
    (fst (apiFetch true csrfRejectedOnce "/api/x" (request "POST")
            DEFAULT_RETRY_CONFIG)) = 0%nat.
Proof.
  refine (proj2 (apiFetch_refreshes_at_most_once true csrfRejectedOnce
                   "/api/x" (request "POST") DEFAULT_RETRY_CONFIG) _).
  left. reflexivity.
Defined.

Section Outcomes.

Variable IS_TEST_ENV : bool.
Variable world : World.
Variable url : string.
Variable options : RequestInit.
Variable retryConfig : RetryConfig.

Let oneTry := tryBlock IS_TEST_ENV world url options.
Let loop := attemptLoop IS_TEST_ENV world url options retryConfig.
Let req := requestOf IS_TEST_ENV world options.

Lemma oneTry_success (attempt : nat) (evs : list Event) (d : JsonValue) :
  oneTry attempt = (evs, Returns (Success d)) ->
  exists r, fetchOutcome world attempt = FetchResolves r
            /\ ok r = true /\ json r = Some d.
Proof.
  unfold oneTry, tryBlock.
  destruct (fetchOutcome world attempt) as [e|r]; [discriminate|].
  unfold handleResponse.
  destruct ((status r =? 403) && shouldUseCsrf IS_TEST_ENV options).
  - destruct (isCsrfError (errorDataOf r)) as [[|]|]; try discriminate.
    destruct (attempt =? 0)%nat; [|discriminate].
    destruct (refreshSucceeds world); discriminate.
  - destruct (ok r) eqn:Hok; cbn [negb].
    + destruct (json r) as [data|] eqn:Hj; [|discriminate].
      intros H. exists r. split; [reflexivity|]. split; [exact Hok|].
      rewrite Hj.
      destruct (csrfHeader r) as [tok|];
        [destruct (JsString.truthy tok)|]; now inversion H.
    + destruct (negb (errorTextReadable (errorDataOf r))); [discriminate|].
      destruct ((400 <=? status r) && (status r <? 500)); discriminate.
Qed.

Lemma afterLoop_failure (lastError : option Thrown) :
  exists c, afterLoop lastError = Failure c.
Proof. destruct lastError as [[e| | |]|]; cbn; eauto. Qed.

Lemma loop_success (remaining attempt : nat) (lastError : option Thrown)
    (d : JsonValue) :
  snd (loop remaining attempt lastError) = Success d ->
  exists k r, In (EvFetch k url (req k))
                (fst (loop remaining attempt lastError))
              /\ fetchOutcome world k = FetchResolves r
              /\ ok r = true /\ json r = Some d.
Proof.
  revert attempt lastError.
  induction remaining as [|remaining IH]; intros attempt lastError.
  - cbn. destruct (afterLoop_failure lastError) as [c ->]. discriminate.
  - destruct (oneTry_shape IS_TEST_ENV world url options attempt)
      as (tl & Hshape & _).
    fold oneTry req in Hshape.
    destruct (oneTry attempt) as [evs completion] eqn:Ht.
    cbn [fst] in Hshape. subst evs.
    destruct completion as [res| |error].
    + unfold loop.
      rewrite (loop_returns IS_TEST_ENV world url options retryConfig
                 remaining attempt lastError _ res Ht).
      cbn [fst snd]. intros ->.
      destruct (oneTry_success attempt _ d Ht) as (r & Ho & Hok & Hj).
      exists attempt, r. split; [now left | auto].
    + unfold loop.
      rewrite (loop_continues IS_TEST_ENV world url options retryConfig
                 remaining attempt lastError _ Ht).
      cbn [fst snd]. intros H. apply IH in H as (k & r & Hin & Hrest).
      exists k, r. split; [|exact Hrest].
      apply List.in_or_app. now right.
    + unfold loop.
      rewrite (loop_throws IS_TEST_ENV world url options retryConfig
                 remaining attempt lastError _ error Ht).
      destruct ((attempt <? maxRetries retryConfig)%nat
                && isRetryableError (caughtAs error)); cbn [fst snd].
      * intros H. apply IH in H as (k & r & Hin & Hrest).
        exists k, r. split; [|exact Hrest].
        apply List.in_or_app. right. apply List.in_or_app. now right.
      * destruct (afterLoop_failure (Some (caughtAs error))) as [c ->].
        discriminate.
Qed.


End Outcomes.

(** X14. A call returns success only for an attempt it actually made
    whose response had an OK status (200..299) and a body that parsed
    as JSON; the data returned is that body. *)
Theorem apiFetch_success_origin (IS_TEST_ENV : bool) (world : World)
    (url : string) (options : RequestInit) (retryConfig : RetryConfig)
    (data : JsonValue) :
  snd (apiFetch IS_TEST_ENV world url options retryConfig) = Success data ->
  exists k r,
    In (EvFetch k url (requestOf IS_TEST_ENV world options k))
       (fst (apiFetch IS_TEST_ENV world url options retryConfig))
    /\ fetchOutcome world k = FetchResolves r
    /\ 200 <= status r <= 299
    /\ json r = Some data.
Proof.
  intros H. apply loop_success in H as (k & r & Hin & Ho & Hok & Hj).
  exists k, r. repeat split; try assumption;
    unfold ok in Hok; apply andb_prop in Hok as [H1 H2]; lia.
Qed.

Lemma apiFetch_success_origin_witness :
  exists k r,
    In (EvFetch k "/api/x" (requestOf false csrfRejectedOnce (request "POST") k))
       (fst (apiFetch false csrfRejectedOnce "/api/x" (request "POST")
               DEFAULT_RETRY_CONFIG))
    /\ fetchOutcome csrfRejectedOnce k = FetchResolves r
    /\ 200 <= status r <= 299
    /\ json r = Some JsonNonObject.
Proof.
  apply (apiFetch_success_origin false csrfRejectedOnce "/api/x"
           (request "POST") DEFAULT_RETRY_CONFIG JsonNonObject).
  reflexivity.
Defined.



Section Retrying.

Variable IS_TEST_ENV : bool.
Variable world : World.
Variable url : string.
Variable options : RequestInit.
Variable retryConfig : RetryConfig.

Let oneTry := tryBlock IS_TEST_ENV world url options.
Let loop := attemptLoop IS_TEST_ENV world url options retryConfig.
Let req := requestOf IS_TEST_ENV world options.
Let delay := fun k => getRetryDelay k retryConfig.



Lemma loop_sleep_count (remaining attempt : nat) (lastError : option Thrown) :
  (attempt + remaining = S (maxRetries retryConfig))%nat ->
  (List.length (sleeps (fst (loop remaining attempt lastError)))
   <= remaining - 1)%nat.
Proof.
  revert attempt lastError.
  induction remaining as [|remaining IH]; intros attempt lastError Hsum;
    [cbn; lia|].
  destruct (loop_cases IS_TEST_ENV world url options retryConfig
              remaining attempt lastError) as (hd & Hhd & Hcase).
  destruct (oneTry_shape IS_TEST_ENV world url options attempt)
    as (tl & Hshape & _ & Hs & _).
  rewrite Hshape in Hhd. subst hd.
  assert (Hhead : sleeps (EvFetch attempt url
                            (requestOf IS_TEST_ENV world options attempt)
                          :: tl) = []) by exact Hs.
  fold loop in Hcase.
  destruct Hcase as [[res ->]|[[le ->]|[le [Hlt ->]]]]; cbn [fst].
  - rewrite Hhead. cbn. lia.
  - rewrite sleeps_app, Hhead. cbn [app].
    specialize (IH (S attempt) le ltac:(lia)). lia.
  - rewrite sleeps_app, Hhead, sleeps_sleep. cbn [app].
    specialize (IH (S attempt) le ltac:(lia)).
    rewrite List.length_app. destruct IS_TEST_ENV; cbn [List.length]; lia.
Qed.

Lemma In_sleeps (t : list Event) (ms : Z) :
  In ms (sleeps t) <-> In (EvSleep ms) t.
Proof.
  unfold sleeps. rewrite List.in_flat_map. split.
  - intros (e & Hin & He). destruct e; try contradiction.
    destruct He as [<-|[]]. exact Hin.
  - intros Hin. exists (EvSleep ms). split; [exact Hin | now left].
Qed.

End Retrying.

Example persistent_timeouts :
  let '(t, r) := apiFetch false (always (FetchRejects ThrownAbortError) true)
                   "/api/x" (request "POST") (mkRetryConfig 4 300 1000) in
  fetchAttempts t = [0; 1; 2; 3; 4]%nat
  /\ sleeps t = [300; 600; 1000; 1000]
  /\ r = Failure TIMEOUT_ERROR.
Proof. vm_compute. repeat split. Qed.

Example persistent_timeouts_in_test_environment :
  let '(t, r) := apiFetch true (always (FetchRejects ThrownAbortError) true)
                   "/api/x" (request "POST") (mkRetryConfig 4 300 1000) in
  fetchAttempts t = [0; 1; 2; 3; 4]%nat
  /\ sleeps t = []
  /\ r = Failure TIMEOUT_ERROR.
Proof. vm_compute. repeat split. Qed.



(** X17. A call pauses at most [maxRetries] times; every pause is the
    back-off delay of an attempt that had a retry left, and no pause is
    longer than [maxDelay]. *)
Theorem apiFetch_pauses (IS_TEST_ENV : bool) (world : World) (url : string)
    (options : RequestInit) (retryConfig : RetryConfig) :
  let pauses :=
    sleeps (fst (apiFetch IS_TEST_ENV world url options retryConfig)) in
  (List.length pauses <= maxRetries retryConfig)%nat
  /\ forall ms, In ms pauses ->
       ms <= maxDelay retryConfig
       /\ exists k, (k < maxRetries retryConfig)%nat
                    /\ ms = getRetryDelay k retryConfig.
Proof.
  cbv zeta. unfold apiFetch. split.
  - pose proof (loop_sleep_count IS_TEST_ENV world url options retryConfig
                  (S (maxRetries retryConfig)) 0 None ltac:(lia)). lia.
  - intros ms Hin. apply In_sleeps in Hin.
    apply ApiProperties.loop_sleeps in Hin as (k & Hk & ->).
    split; [unfold getRetryDelay; lia|]. exists k. split; [lia | reflexivity].
Qed.

(** X18. For a non-negative [baseDelay] the back-off delay never
    decreases from one attempt to the next; it is never more than
    [maxDelay], and it is [baseDelay * 2^n] as long as that stays within
    [maxDelay]. *)
Theorem getRetryDelay_monotone (config : RetryConfig) (n m : nat) :
  0 <= baseDelay config ->
  (n <= m)%nat ->
  getRetryDelay n config <= getRetryDelay m config
  /\ getRetryDelay m config <= maxDelay config
  /\ (baseDelay config * 2 ^ Z.of_nat m <= maxDelay config ->
      getRetryDelay m config = baseDelay config * 2 ^ Z.of_nat m).
Proof.
  intros Hbase Hnm. unfold getRetryDelay.
  assert (Hpow : 2 ^ Z.of_nat n <= 2 ^ Z.of_nat m)
    by (apply Z.pow_le_mono_r; lia).
  assert (Hmul : baseDelay config * 2 ^ Z.of_nat n
                 <= baseDelay config * 2 ^ Z.of_nat m)
    by (apply Z.mul_le_mono_nonneg_l; lia).
  repeat split; lia.
Qed.

Lemma getRetryDelay_monotone_witness :
  getRetryDelay 1 DEFAULT_RETRY_CONFIG <= getRetryDelay 5 DEFAULT_RETRY_CONFIG.
Proof.
  refine (proj1 (getRetryDelay_monotone DEFAULT_RETRY_CONFIG 1 5 _ _)).
  - cbn. lia.
  - lia.
Defined.

Lemma baseHeaders_lookup (options : RequestInit) (key : string) :
  baseHeaders options !! key
  = match headers options !! key with
    | Some v => Some v
    | None => if String.eqb key "Content-Type"
              then Some "application/json"%string else None
    end.
Proof.
  unfold baseHeaders. rewrite lookup_union.
  destruct (headers options !! key) as [v|] eqn:Hk.
  - now destruct ({["Content-Type"%string := "application/json"%string]}
                    !! key : option string).
  - destruct (String.eqb key "Content-Type") eqn:He.
    + apply String.eqb_eq in He. subst key.
      now rewrite lookup_singleton_eq.
    + apply String.eqb_neq in He.
      rewrite lookup_singleton_ne by congruence. reflexivity.
Qed.

(** X19. Every request of a call goes to the given URL with the caller's
    method and body. Its headers are the caller's, with Content-Type
    [application/json] added unless the caller set one; only the
    X-CSRF-Token entry can differ, and outside the test environment a
    state-changing request carries the token obtained for its attempt
    whenever that token is a non-empty string. *)
Theorem apiFetch_requests (IS_TEST_ENV : bool) (world : World) (url : string)
    (options : RequestInit) (retryConfig : RetryConfig)
    (k : nat) (u : string) (r : RequestInit) :
  In (EvFetch k u r)
     (fst (apiFetch IS_TEST_ENV world url options retryConfig)) ->
  u = url /\ method r = method options /\ body r = body options
  /\ headers r !! "Content-Type"
     = Some (default "application/json"%string
               (headers options !! "Content-Type"))
  /\ (forall key, key <> "Content-Type"%string ->
                  key <> "X-CSRF-Token"%string ->
                  headers r !! key = headers options !! key)
  /\ (forall token,
        IS_TEST_ENV = false ->
        requiresCsrfToken (method options) = true ->
        tokenSource world k = Some token -> token <> ""%string ->
        headers r !! "X-CSRF-Token" = Some token).
Proof.
  intros Hin. unfold apiFetch in Hin.
  apply ApiProperties.loop_fetch_requests in Hin as (_ & -> & ->).
  split; [reflexivity|]. split; [reflexivity|]. split; [reflexivity|].
  cbn [headers requestOf]. unfold requestHeaders, getCsrfTokenForRequest.
  split; [|split].
  - assert (Hbase : baseHeaders options !! "Content-Type"
                    = Some (default "application/json"%string
                              (headers options !! "Content-Type"))).
    { rewrite baseHeaders_lookup.
      now destruct (headers options !! "Content-Type"). }
    destruct (shouldUseCsrf IS_TEST_ENV options); [|exact Hbase].
    destruct (if IS_TEST_ENV then Some "test-csrf-token"%string
              else tokenSource world k) as [tok|]; [|exact Hbase].
    destruct (JsString.truthy tok); [|exact Hbase].
    rewrite lookup_insert_ne by discriminate. exact Hbase.
  - intros key Hct Hx.
    assert (Hbase : baseHeaders options !! key = headers options !! key).
    { rewrite baseHeaders_lookup.
      destruct (headers options !! key); [reflexivity|].
      apply String.eqb_neq in Hct. now rewrite Hct. }
    destruct (shouldUseCsrf IS_TEST_ENV options); [|exact Hbase].
    destruct (if IS_TEST_ENV then Some "test-csrf-token"%string
              else tokenSource world k) as [tok|]; [|exact Hbase].
    destruct (JsString.truthy tok); [|exact Hbase].
    rewrite lookup_insert_ne by congruence. exact Hbase.
  - intros token -> Hm Htok Hne. unfold shouldUseCsrf.
    rewrite Hm, Htok. cbn [negb andb].
    assert (Ht : JsString.truthy token = true)
      by (destruct token; [now contradiction Hne | reflexivity]).
    rewrite Ht. apply lookup_insert_eq.
Qed.

Lemma apiFetch_requests_witness :
  headers (requestOf false csrfRejectedOnce (request "POST") 1)
    !! "X-CSRF-Token" = Some "tok"%string.
Proof.
  assert (Hin : In (EvFetch 1 "/api/x"
                      (requestOf false csrfRejectedOnce (request "POST") 1))
                  (fst (apiFetch false csrfRejectedOnce "/api/x"
                          (request "POST") DEFAULT_RETRY_CONFIG))).
  { right. right. left. reflexivity. }
  assert (Hne : "tok"%string <> ""%string) by discriminate.
  exact (proj2 (proj2 (proj2 (proj2 (proj2
           (apiFetch_requests false csrfRejectedOnce "/api/x"
              (request "POST") DEFAULT_RETRY_CONFIG 1 "/api/x" _ Hin)))))
           "tok"%string eq_refl eq_refl eq_refl Hne).
Defined.

Section Fatal.

Variable IS_TEST_ENV : bool.
Variable world : World.
Variable url : string.
Variable options : RequestInit.
Variable retryConfig : RetryConfig.

Let oneTry := tryBlock IS_TEST_ENV world url options.
Let loop := attemptLoop IS_TEST_ENV world url options retryConfig.


End Fatal.

Example no_content_is_a_failure :
  let '(t, r) := apiFetch false (always (respond 204 None) true) "/api/x"
                   (request "POST") DEFAULT_RETRY_CONFIG in
  fetchAttempts t = [0%nat] /\ sleeps t = [] /\ r = Failure UNKNOWN_ERROR.
Proof. vm_compute. repeat split. Qed.



End ClientProperties.

Module EndpointProperties.
Import Api Scenario Vocabulary.
Local Open Scope list_scope.

Example sendEmailResults_examples :
  sendEmailResults false (always (respond 200 (Some JsonNonObject)) true) ""
    stringifyEmail "not an email" "a-1" = ([], Failure INVALID_EMAIL)
  /\ sendEmailResults false (always (respond 200 (Some JsonNonObject)) true) ""
       stringifyEmail "ann@site.org" "" = ([], Failure VALIDATION_ERROR)
  /\ snd (sendEmailResults false
            (always (respond 200 (Some JsonNonObject)) true) ""
            stringifyEmail "ann@site.org" "a-1")
     = Success JsonNonObject.
Proof. vm_compute. repeat split. Qed.

(** X21. [sendEmailResults] sends nothing and fails with INVALID_EMAIL
    when the email does not match the email pattern (the empty string
    included), otherwise sends nothing and fails with VALIDATION_ERROR
    when the assessment id is empty; otherwise every request it sends is
    a POST to /api/email/send-results carrying the serialized email and
    assessment id. *)
Theorem sendEmailResults_spec (IS_TEST_ENV : bool) (world : World)
    (API_BASE_URL : string) (stringifyEmailRequest : string -> string -> string)
    (email assessmentId : string) :
  let run := sendEmailResults IS_TEST_ENV world API_BASE_URL
               stringifyEmailRequest email assessmentId in
  (isValidEmail email = false -> run = ([], Failure INVALID_EMAIL))
  /\ (isValidEmail email = true -> assessmentId = ""%string ->
      run = ([], Failure VALIDATION_ERROR))
  /\ (isValidEmail email = true -> assessmentId <> ""%string ->
      (1 <= countFetches (fst run))%nat
      /\ forall k u r, In (EvFetch k u r) (fst run) ->
           u = (API_BASE_URL ++ "/api/email/send-results")%string
           /\ method r = Some "POST"%string
           /\ body r = Some (stringifyEmailRequest email assessmentId)).
Proof.
  cbv zeta. unfold sendEmailResults.
  split; [|split].
  - intros Hv. rewrite Hv. cbn [negb]. now rewrite orb_true_r.
  - intros Hv ->. rewrite Hv.
    assert (Ht : JsString.truthy email = true)
      by (destruct email; [discriminate Hv | reflexivity]).
    now rewrite Ht.
  - intros Hv Hid. rewrite Hv.
    assert (Ht : JsString.truthy email = true)
      by (destruct email; [discriminate Hv | reflexivity]).
    assert (Hi : JsString.truthy assessmentId = true)
      by (destruct assessmentId; [now contradiction Hid | reflexivity]).
    rewrite Ht, Hi. cbn [negb orb]. unfold apiFetch. split.
    + destruct (ApiProperties.loop_starts_with_fetch IS_TEST_ENV world
                  (emailResultsUrl API_BASE_URL)
                  {| method := Some "POST"%string; headers := ∅;
                     body := Some (stringifyEmailRequest email assessmentId) |}
                  DEFAULT_RETRY_CONFIG (maxRetries DEFAULT_RETRY_CONFIG)
                  0 None) as [rest ->].
      unfold countFetches. cbn. lia.
    + intros k u r Hin.
      apply ApiProperties.loop_fetch_requests in Hin as (_ & -> & ->).
      repeat split.
Qed.

Lemma sendEmailResults_spec_witness :
  sendEmailResults false (always (respond 200 (Some JsonNonObject)) true) ""
    stringifyEmail "not an email" "a-1" = ([], Failure INVALID_EMAIL).
Proof.
  refine (proj1 (sendEmailResults_spec false
                   (always (respond 200 (Some JsonNonObject)) true) ""
                   stringifyEmail "not an email" "a-1") _).
  reflexivity.
Defined.

Example health_check_gives_up_after_two :
  let '(t, r) := checkApiHealth false (always (FetchRejects ThrownTypeError) true)
                   "https://api.example" in
  fetchAttempts t = [0; 1]%nat /\ sleeps t = [500]
  /\ r = Failure NETWORK_ERROR.
Proof. vm_compute. repeat split. Qed.

Lemma low_retry_bounds (IS_TEST_ENV : bool) (world : World) (url : string)
    (options : RequestInit) :
  let trace := fst (apiFetch IS_TEST_ENV world url options lowRetryConfig) in
  (countFetches trace <= 2)%nat
  /\ (List.length (sleeps trace) <= 1)%nat
  /\ forall ms, In ms (sleeps trace) -> ms = 500.
Proof.
  cbv zeta. unfold apiFetch. split; [|split].
  - apply ApiProperties.loop_fetch_bound.
  - apply (ClientProperties.loop_sleep_count IS_TEST_ENV world url options
             lowRetryConfig 2 0 None eq_refl).
  - intros ms Hin. apply ClientProperties.In_sleeps in Hin.
    apply ApiProperties.loop_sleeps in Hin as (k & Hk & ->).
    cbn in Hk. assert (k = 0%nat) by lia. subst k. reflexivity.
Qed.

(** X22. [saveProgress] and [checkApiHealth] send at most two requests
    and pause at most once, for 500 ms. [checkApiHealth] only sends GET
    requests to /health, without X-CSRF-Token header, and never
    refreshes the token; [saveProgress] only sends POST requests to
    /api/assessment/save-progress with the serialized payload. *)
Theorem low_retry_endpoints (IS_TEST_ENV : bool) (world : World)
    (API_BASE_URL : string)
    (stringifyProgress : SaveProgressPayload -> string)
    (payload : SaveProgressPayload) :
  let saved := fst (saveProgress IS_TEST_ENV world API_BASE_URL
                      stringifyProgress payload) in
  let health := fst (checkApiHealth IS_TEST_ENV world API_BASE_URL) in
  ((countFetches saved <= 2)%nat /\ (List.length (sleeps saved) <= 1)%nat
   /\ forall ms, In ms (sleeps saved) -> ms = 500)
  /\ ((countFetches health <= 2)%nat /\ (List.length (sleeps health) <= 1)%nat
      /\ forall ms, In ms (sleeps health) -> ms = 500)
  /\ (forall k u r, In (EvFetch k u r) saved ->
        u = (API_BASE_URL ++ "/api/assessment/save-progress")%string
        /\ method r = Some "POST"%string
        /\ body r = Some (stringifyProgress payload))
  /\ (forall k u r, In (EvFetch k u r) health ->
        u = (API_BASE_URL ++ "/health")%string
        /\ method r = Some "GET"%string
        /\ headers r !! "X-CSRF-Token" = None)
  /\ countRefreshes health = 0%nat.
Proof.
  cbv zeta. unfold saveProgress, checkApiHealth.
  split; [apply low_retry_bounds|]. split; [apply low_retry_bounds|].
  split; [|split].
  - intros k u r Hin. unfold apiFetch in Hin.
    apply ApiProperties.loop_fetch_requests in Hin as (_ & -> & ->).
    repeat split.
  - intros k u r Hin. unfold apiFetch in Hin.
    apply ApiProperties.loop_fetch_requests in Hin as (_ & -> & ->).
    split; [reflexivity|]. split; [reflexivity|].
    cbn [headers requestOf]. unfold requestHeaders, shouldUseCsrf.
    cbn [method]. change (requiresCsrfToken (Some "GET"%string)) with false.
    cbn [andb]. rewrite ApiProperties.baseHeaders_csrf. apply lookup_empty.
  - unfold apiFetch.
    pose proof (ClientProperties.loop_refreshes IS_TEST_ENV world
                  (healthUrl API_BASE_URL)
                  {| method := Some "GET"%string; headers := ∅;
                     body := None |}
                  lowRetryConfig 2 0 None) as H.
    unfold shouldUseCsrf in H. cbn [method] in H.
    change (requiresCsrfToken (Some "GET"%string)) with false in H.
    cbn [Nat.eqb andb] in H.
    change (S (maxRetries lowRetryConfig)) with 2%nat. lia.
Qed.

End EndpointProperties.

Module PatternProperties.
Import Api.

(** X23. [isValidPhone] accepts exactly the strings of at least ten
    characters that are all digits, white space or one of [-+()];
    [isValidEmail] accepts exactly the strings of the form
    local@domain.tail whose three parts are non-empty and free of white
    space and of ["@"] (the domain part may itself contain dots). *)
Theorem contact_patterns (text : string) :
  (isValidPhone text = true <->
   (10 <= String.length text)%nat /\ Regex.allChars phoneChar text = true)
  /\ (isValidEmail text = true <->
      exists l d t,
        text = (l ++ "@" ++ d ++ "." ++ t)%string
        /\ (l <> ""%string /\ Regex.allChars notSpaceOrAt l = true)
        /\ (d <> ""%string /\ Regex.allChars notSpaceOrAt d = true)
        /\ (t <> ""%string /\ Regex.allChars notSpaceOrAt t = true)).
Proof.
  split.
  - unfold isValidPhone, phoneRegex.
    rewrite RegexProperties.test_Matches.
    apply RegexProperties.Matches_atLeast_class.
  - apply RegexProperties.isValidEmail_spec.
Qed.

End PatternProperties.

Module LoggingProperties.
Import Logging Vocabulary.

Example sanitizeForLogging_example :
  sanitizeForLogging
    (JObject [("assessment", JObject [("duration", JString "2y");
                                       ("email", JString "ann@site.org")]);
              ("contactInfo", JObject [("name", JString "Ann")]);
              ("tags", JArray [JString "a"; JObject [("phone", JNumber 5)]]);
              ("leadSource", JNull)])
  = JObject [("assessment", JObject [("duration", JString "2y");
                                      ("email", REDACTED)]);
             ("contactInfo", REDACTED);
             ("tags", JObject [("0", JString "a");
                               ("1", JObject [("phone", REDACTED)])]);
             ("leadSource", JNull)].
Proof. vm_compute. reflexivity. Qed.

Section Induction.

Variable P : Json -> Prop.
Hypothesis Hnull : P JNull.
Hypothesis Hbool : forall b, P (JBool b).
Hypothesis Hnumber : forall n, P (JNumber n).
Hypothesis Hstring : forall s, P (JString s).
Hypothesis Harray : forall items, Forall P items -> P (JArray items).
Hypothesis Hobject :
  forall entries, Forall (fun entry => P (snd entry)) entries ->
                  P (JObject entries).

(** Structural induction through arrays and objects. *)
Lemma Json_induction : forall data, P data.
Proof.
  fix IH 1. intros [ | b | n | s | items | entries ].
  - apply Hnull.
  - apply Hbool.
  - apply Hnumber.
  - apply Hstring.
  - apply Harray. induction items as [|item items IHitems].
    + constructor.
    + constructor; [apply IH | apply IHitems].
  - apply Hobject. induction entries as [|[key value] entries IHentries].
    + constructor.
    + constructor; [apply IH | apply IHentries].
Qed.

End Induction.

Lemma digit_key_not_pii (key : string) :
  startsWithDigit key = true -> isPii key = false.
Proof.
  destruct key as [|c key]; [discriminate|]. cbn [startsWithDigit].
  intros Hd. unfold isPii, piiFields. cbn [existsb].
  assert (Hne : forall a rest, Regex.isDigit a = false ->
                  String.eqb (String c key) (String a rest) = false).
  { intros a rest Ha. cbn. destruct (Ascii.eqb c a) eqn:He; [|reflexivity].
    apply Ascii.eqb_eq in He. congruence. }
  rewrite !Hne by reflexivity. reflexivity.
Qed.

Lemma pretty_N_go_digit (x : N) :
  forall s, ((0 < x)%N \/ startsWithDigit s = true) ->
            startsWithDigit (pretty_N_go x s) = true.
Proof.
  induction (N.lt_wf_0 x) as [x _ IH]. intros s Hs.
  assert (Hx : (x = 0 \/ 0 < x)%N) by lia.
  destruct Hx as [->|Hpos].
  - rewrite pretty_N_go_0. destruct Hs as [Hs|Hs]; [lia | exact Hs].
  - rewrite pretty_N_go_step by exact Hpos.
    apply IH; [now apply N.div_lt|]. right.
    cbn [startsWithDigit]. unfold pretty_N_char.
    repeat case_match; reflexivity.
Qed.

Lemma indexKey_not_pii (i : nat) : isPii (pretty i) = false.
Proof.
  apply digit_key_not_pii.
  unfold pretty, pretty_nat, pretty, pretty_N.
  case_decide; [reflexivity|].
  apply pretty_N_go_digit. left. lia.
Qed.

Lemma redacted_indexed (keys : list string) (values : list Json) :
  Forall (fun key => isPii key = false) keys ->
  Forall (fun value => redacted value = true) values ->
  redacted (JObject (List.combine keys values)) = true.
Proof.
  intros Hk. revert values.
  induction Hk as [|key keys Hkey _ IH]; intros values Hv; [reflexivity|].
  destruct Hv as [|value values Hvalue Hv]; [reflexivity|].
  specialize (IH values Hv).
  cbn [redacted List.combine forallb] in IH |- *.
  now rewrite Hkey, Hvalue, IH.
Qed.

(** X24. In the result of [sanitizeForLogging] no key [name], [email],
    [phone], [phoneNumber] or [contactInfo] holds, at any depth,
    anything but the mark '[REDACTED]'; an object keeps its keys in
    their order, and a value that is not an object or an array is
    returned unchanged. *)
Theorem sanitizeForLogging_redacts (data : Json) :
  redacted (sanitizeForLogging data) = true
  /\ (forall entries, data = JObject entries ->
        exists entries',
          sanitizeForLogging data = JObject entries'
          /\ List.map fst entries' = List.map fst entries)
  /\ (match data with
      | JArray _ | JObject _ => True
      | _ => sanitizeForLogging data = data
      end).
Proof.
  split; [|split].
  - induction data as [ | b | n | s | items IH | entries IH ]
      using Json_induction; try reflexivity.
    + cbn [sanitizeForLogging]. apply redacted_indexed.
      * unfold indexKeys. apply List.Forall_forall. intros key Hin.
        apply List.in_map_iff in Hin as (i & <- & _).
        apply indexKey_not_pii.
      * apply List.Forall_forall. intros value Hin.
        apply List.in_map_iff in Hin as (item & <- & Hitem).
        rewrite List.Forall_forall in IH. now apply IH.
    + cbn [sanitizeForLogging redacted].
      induction IH as [|[key value] entries Hvalue _ IHentries];
        [reflexivity|].
      cbn [List.map forallb]. rewrite IHentries, andb_true_r.
      cbn [fst snd] in Hvalue.
      destruct (isPii key) eqn:Hpii; cbn -[isPii]; rewrite Hpii.
      * reflexivity.
      * exact Hvalue.
  - intros entries ->. cbn [sanitizeForLogging]. eexists.
    split; [reflexivity|]. rewrite List.map_map.
    apply List.map_ext. intros [key value]. now destruct (isPii key).
  - now destruct data.
Qed.

End LoggingProperties.

Module ReducerProperties.
Import Quiz Vocabulary.
Local Open Scope Z_scope.
Local Open Scope list_scope.

Ltac split_payloads :=
  repeat match goal with
         | p : QualificationPayload |- _ =>
             destruct p as [[?|] [?|] [?|] [?|]]
         | p : ContactPayload |- _ => destruct p
         end.

Section WithQuizId.

Variable initialQuizId : string.

Let reduce := quizReducer initialQuizId.
Let run := dispatchAll initialQuizId.

Lemma step_keeps_positive (s : QuizState) (a : QuizAction) :
  keepsStepPositive a = true ->
  1 <= currentStep s ->
  1 <= currentStep (quizReducer initialQuizId s a).
Proof.
  intros Ha Hs. destruct s, a; split_payloads; cbn in *; try lia.
Qed.

Lemma step_keeps_quizId (s : QuizState) (a : QuizAction) :
  quizId s = initialQuizId ->
  quizId (quizReducer initialQuizId s a) = initialQuizId.
Proof.
  intros Hs. destruct s, a; split_payloads; cbn in *; congruence.
Qed.

(** X25. The step counter and the quiz id over a whole session: starting
    from a state whose step is at least 1 and whose id is the module's
    id (the initial state is one), no sequence of actions without a
    [GO_TO_STEP] below 1 brings the step below 1 or changes the id.
    NEXT_STEP followed by PREV_STEP gives the state back; PREV_STEP
    followed by NEXT_STEP gives it back from step 2 on, and leads from
    step 1 to step 2. *)
Theorem step_navigation (s : QuizState) (actions : list QuizAction) :
  (forallb keepsStepPositive actions = true ->
   1 <= currentStep s ->
   quizId s = initialQuizId ->
   1 <= currentStep (run s actions)
   /\ quizId (run s actions) = initialQuizId)
  /\ (1 <= currentStep s -> reduce (reduce s NEXT_STEP) PREV_STEP = s)
  /\ (2 <= currentStep s -> reduce (reduce s PREV_STEP) NEXT_STEP = s)
  /\ (currentStep s <= 1 ->
      currentStep (reduce (reduce s PREV_STEP) NEXT_STEP) = 2).
Proof.
  subst reduce run. split; [|split; [|split]].
  - revert s. unfold dispatchAll.
    induction actions as [|a actions IH]; intros s Hall Hstep Hid.
    + now split.
    + cbn [forallb] in Hall. apply andb_prop in Hall as [Ha Hall].
      cbn [fold_left]. apply IH; [exact Hall | |].
      * now apply step_keeps_positive.
      * now apply step_keeps_quizId.
  - intros Hs. destruct s. cbn in *. f_equal. lia.
  - intros Hs. destruct s. cbn in *. f_equal. lia.
  - intros Hs. destruct s. cbn in *. lia.
Qed.

(** X26. [SET_*] actions are idempotent, and two [SET_*] actions that
    are named after different fields can be dispatched in either order:
    the resulting state is the same. *)
Theorem set_actions_commute (s : QuizState) (a b : QuizAction)
    (fa fb : list Field) :
  designated a = Some fa ->
  designated b = Some fb ->
  reduce (reduce s a) a = reduce s a
  /\ ((forall f, In f fa -> In f fb -> False) ->
      reduce (reduce s a) b = reduce (reduce s b) a).
Proof.
  subst reduce. intros Ha Hb. split.
  - destruct a; try discriminate Ha; destruct s; split_payloads;
      reflexivity.
  - intros Hd.
    destruct a; try discriminate Ha; destruct b; try discriminate Hb;
      cbn in Ha, Hb; injection Ha as <-; injection Hb as <-;
      first [ solve [ exfalso; apply (Hd _ (or_introl eq_refl));
                      left; reflexivity ]
            | destruct s; split_payloads; reflexivity ].
Qed.

End WithQuizId.

Lemma step_navigation_witness :
  currentStep
    (dispatchAll "quiz_1" (initialState "quiz_1")
       [NEXT_STEP; SET_PAIN_DURATION "2y"; PREV_STEP; PREV_STEP;
        GO_TO_STEP 4; RESET; NEXT_STEP]) >= 1
  /\ quizReducer "quiz_1"
       (quizReducer "quiz_1" (initialState "quiz_1") NEXT_STEP) PREV_STEP
     = initialState "quiz_1".
Proof.
  pose proof (step_navigation "quiz_1" (initialState "quiz_1")
    [NEXT_STEP; SET_PAIN_DURATION "2y"; PREV_STEP; PREV_STEP;
     GO_TO_STEP 4; RESET; NEXT_STEP]) as [Hinv [Hround _]].
  split.
  - apply Z.le_ge. apply Hinv; [reflexivity | cbn; lia | reflexivity].
  - apply Hround. cbn. lia.
Defined.

Lemma set_actions_commute_witness :
  quizReducer "quiz_1"
    (quizReducer "quiz_1" (initialState "quiz_1") (SET_PAIN_DURATION "2y"))
    (SET_CONTACT_INFO (mkContactPayload "Ann" "ann@site.org" "5551234567"))
  = quizReducer "quiz_1"
      (quizReducer "quiz_1" (initialState "quiz_1")
         (SET_CONTACT_INFO (mkContactPayload "Ann" "ann@site.org" "5551234567")))
      (SET_PAIN_DURATION "2y").
Proof.
  refine (proj2 (set_actions_commute "quiz_1" (initialState "quiz_1")
                   (SET_PAIN_DURATION "2y")
                   (SET_CONTACT_INFO
                      (mkContactPayload "Ann" "ann@site.org" "5551234567"))
                   _ _ eq_refl eq_refl) _).
  intros f [<-|[]] [H|[H|[H|[]]]]; discriminate H.
Defined.

End ReducerProperties.

Module PageProperties.
Import CellularScience.
Local Open Scope list_scope.

Lemma includes_In (id : string) (l : list string) :
  existsb (String.eqb id) l = true <-> In id l.
Proof.
  rewrite List.existsb_exists. split.
  - intros [x [Hin He]]. apply String.eqb_eq in He. now subst x.
  - intros Hin. exists id. split; [exact Hin | apply String.eqb_refl].
Qed.

Lemma In_without (id other : string) (l : list string) :
  In other (List.filter (fun s => negb (String.eqb s id)) l)
  <-> In other l /\ other <> id.
Proof.
  rewrite List.filter_In, negb_true_iff. split; intros [Hin Hne];
    (split; [exact Hin|]).
  - intros ->. now rewrite String.eqb_refl in Hne.
  - now apply String.eqb_neq.
Qed.

Lemma without_absent (id : string) (l : list string) :
  ~ In id l -> List.filter (fun s => negb (String.eqb s id)) l = l.
Proof.
  induction l as [|x l IH]; intros Hnot; [reflexivity|]. cbn.
  destruct (String.eqb x id) eqn:He.
  - apply String.eqb_eq in He. subst x. exfalso. apply Hnot. now left.
  - cbn. f_equal. apply IH. intros Hin. apply Hnot. now right.
Qed.

Lemma toggle_In (id other : string) (prev : list string) :
  In other (handleConditionToggle id prev)
  <-> (other = id /\ ~ In id prev) \/ (other <> id /\ In other prev).
Proof.
  unfold handleConditionToggle.
  destruct (existsb (String.eqb id) prev) eqn:Hin.
  - apply includes_In in Hin. rewrite In_without. split.
    + intros [Ho Hne]. now right.
    + intros [[_ Hnot]|[Hne Ho]]; [contradiction | now split].
  - assert (Hnot : ~ In id prev).
    { intros H. apply includes_In in H. congruence. }
    rewrite List.in_app_iff. cbn [In]. split.
    + intros [Ho|[<-|[]]].
      * right. split; [|exact Ho]. intros ->. contradiction.
      * now left.
    + intros [[-> _]|[_ Ho]]; [right; now left | now left].
Qed.

Lemma toggle_NoDup (id : string) (prev : list string) :
  List.NoDup prev -> List.NoDup (handleConditionToggle id prev).
Proof.
  intros Hnd. unfold handleConditionToggle.
  destruct (existsb (String.eqb id) prev) eqn:Hin.
  - now apply List.NoDup_filter.
  - assert (Hnot : ~ In id prev).
    { intros H. apply includes_In in H. congruence. }
    apply List.NoDup_app; [exact Hnd | repeat constructor; intros [] | ].
    intros x Hx [<-|[]]. contradiction.
Qed.

Lemma toggle_twice (id : string) (prev : list string) :
  ~ In id prev ->
  handleConditionToggle id (handleConditionToggle id prev) = prev.
Proof.
  intros Hnot. unfold handleConditionToggle at 2.
  destruct (existsb (String.eqb id) prev) eqn:Hin.
  { apply includes_In in Hin. contradiction. }
  unfold handleConditionToggle.
  rewrite List.existsb_app. cbn [existsb]. rewrite String.eqb_refl.
  cbn [orb]. rewrite orb_true_r.
  rewrite List.filter_app. cbn [List.filter].
  rewrite String.eqb_refl. cbn [negb].
  rewrite List.app_nil_r. now apply without_absent.
Qed.

(** X27. Toggling a condition on the cellular science page, and toggling
    a medication type on the treatments page, flips the membership of
    that one entry and of no other, never creates a duplicate, and
    toggling an entry that was absent twice gives the list back. *)
Theorem toggle_flips_one_entry (id : string) (prev : list string)
    (st : TreatmentsPage.PageState) :
  let next := handleConditionToggle id prev in
  ((In id next <-> ~ In id prev)
   /\ (forall other, other <> id -> (In other next <-> In other prev))
   /\ (List.NoDup prev -> List.NoDup next)
   /\ (~ In id prev -> handleConditionToggle id next = prev))
  /\ TreatmentsPage.medicationTypes (TreatmentsPage.handleMedicationToggle id st)
     = handleConditionToggle id (TreatmentsPage.medicationTypes st)
  /\ TreatmentsPage.selected (TreatmentsPage.handleMedicationToggle id st)
     = TreatmentsPage.selected st.
Proof.
  cbv zeta. split; [split; [|split; [|split]]|split].
  - rewrite toggle_In. split.
    + intros [[_ H]|[H _]]; [exact H | now contradiction H].
    + intros H. left. now split.
  - intros other Hne. rewrite toggle_In. split.
    + intros [[H _]|[_ H]]; [contradiction | exact H].
    + intros H. right. now split.
  - apply toggle_NoDup.
  - apply toggle_twice.
  - reflexivity.
  - reflexivity.
Qed.

Lemma toggle_flips_one_entry_witness :
  handleConditionToggle "ms"
    (handleConditionToggle "ms" ["back-pain"; "sciatica"])
  = ["back-pain"; "sciatica"]
  /\ List.NoDup (handleConditionToggle "ms" ["back-pain"; "sciatica"]).
Proof.
  pose proof (toggle_flips_one_entry "ms" ["back-pain"; "sciatica"]
                (TreatmentsPage.mkPageState [] [] false))
    as [[_ [_ [Hnd Htwice]]] _].
  split.
  - apply Htwice. intros [H|[H|[]]]; discriminate H.
  - apply Hnd. repeat constructor.
    + intros [H|[]]. discriminate H.
    + intros [].
Defined.

(** X28. What submitting the cellular science page does: nothing when
    no condition is selected and the text is blank; it calls
    [disqualify] and navigates to '/disqualified' when at least one
    condition is selected and none of the selected ones is treatable;
    in every other case it navigates to '/condition-confirmation'
    without calling [disqualify]. *)
Theorem handleSubmit_outcomes (isConditionTreatable : string -> bool)
    (selectedConditions : list string) (otherConditions : string) :
  let noneTreatable :=
    forall id, In id selectedConditions -> isConditionTreatable id = false in
  match handleSubmit isConditionTreatable selectedConditions otherConditions with
  | None => selectedConditions = [] /\ JsString.trim otherConditions = ""
  | Some navigation =>
      (selectedConditions <> [] /\ noneTreatable
       /\ navigation = mkNavigation true "/disqualified")
      \/ ((selectedConditions = [] /\ JsString.trim otherConditions <> ""
           \/ exists id, In id selectedConditions
                         /\ isConditionTreatable id = true)
          /\ navigation = mkNavigation false "/condition-confirmation")
  end.
Proof.
  cbv zeta. unfold handleSubmit, validateSubmission, determineRoute.
  destruct selectedConditions as [|c l].
  - change (0 <? List.length (@nil string))%nat with false.
    destruct (0 <? JsString.length (JsString.trim otherConditions))%nat
      eqn:Ht; cbn [negb andb].
    + right. split; [|reflexivity]. left. split; [reflexivity|].
      intros He. rewrite He in Ht. discriminate Ht.
    + apply RoutingProperties.length_zero_empty in Ht. now split.
  - change (0 <? List.length (c :: l))%nat with true. cbn [negb andb].
    destruct (existsb (fun id => isConditionTreatable id) (c :: l)) eqn:Hex.
    + rewrite andb_false_r. right. split; [|reflexivity]. right.
      apply List.existsb_exists in Hex. exact Hex.
    + assert (Hnt : existsb (fun id => negb (isConditionTreatable id)) (c :: l)
                    = true).
      { cbn in Hex |- *. apply orb_false_elim in Hex as [Hc _].
        now rewrite Hc. }
      rewrite Hnt. cbn [negb andb]. left.
      split; [discriminate|]. split; [|reflexivity].
      intros id Hin. destruct (isConditionTreatable id) eqn:Hid; [|reflexivity].
      assert (existsb (fun id => isConditionTreatable id) (c :: l) = true)
        by (apply List.existsb_exists; now exists id).
      congruence.
Qed.

Import TreatmentsPage.

Lemma includes_spec (l : list string) (id : string) :
  includes l id = true <-> In id l.
Proof. apply includes_In. Qed.

Lemma In_without' (id other : string) (l : list string) :
  In other (without id l) <-> In other l /\ other <> id.
Proof. apply In_without. Qed.

(** X29. On the treatments page 'none' is exclusive: after any toggle
    the selection contains 'none' only when 'none' was the entry
    toggled, and then it is exactly ['none']. Toggling another entry
    flips that entry, drops 'none' and keeps the rest. The medication
    dropdown stays hidden unless 'pain_medications' is selected, and
    [handleContinue] goes to the 'none' education page exactly when
    'none' is selected. *)
Theorem handleToggle_none_exclusive (id : string) (st : PageState) :
  let st' := handleToggle id st in
  (In "none" (selected st') <-> id = "none")
  /\ (id = "none" -> selected st' = ["none"])
  /\ (id <> "none" ->
      (In id (selected st') <-> ~ In id (selected st))
      /\ forall other, other <> id -> other <> "none" ->
           (In other (selected st') <-> In other (selected st)))
  /\ ((showMedDropdown st = true -> In "pain_medications" (selected st)) ->
      showMedDropdown st' = true -> In "pain_medications" (selected st'))
  /\ (snd (handleContinue st') = "/quiz/education-q2a-none" <-> id = "none")
  /\ (snd (handleContinue st') = "/quiz/connecting-message-q2"
      <-> id <> "none").
Proof.
  cbv zeta.
  assert (Hnone : In "none" (selected (handleToggle id st)) <-> id = "none").
  { unfold handleToggle. destruct (String.eqb id "none") eqn:He.
    - apply String.eqb_eq in He. cbn. split; [intros _; exact He | now left].
    - apply String.eqb_neq in He.
      destruct (includes (selected st) id); [destruct (String.eqb id _)|];
        cbn [selected]; rewrite ?In_without', ?List.in_app_iff, ?In_without';
        cbn [In]; split; try (intros H; contradiction).
      + intros [[_ H] _]. now contradiction H.
      + intros [[_ H] _]. now contradiction H.
      + intros [[_ H]|[H|[]]]; [now contradiction H | now symmetry in H]. }
  split; [exact Hnone|]. split; [|split; [|split; [|split]]].
  - intros ->. reflexivity.
  - intros Hne. unfold handleToggle.
    apply String.eqb_neq in Hne as He. rewrite He.
    destruct (includes (selected st) id) eqn:Hin.
    + apply includes_spec in Hin.
      assert (Hsel : forall other,
                 In other (without id (without "none" (selected st)))
                 <-> In other (selected st) /\ other <> "none" /\ other <> id).
      { intros other. rewrite !In_without'. tauto. }
      destruct (String.eqb id "pain_medications"); cbn [selected];
        (split; [rewrite Hsel; tauto|]);
        intros other Ho Hn; rewrite Hsel; tauto.
    + assert (Hnot : ~ In id (selected st)).
      { intros H. apply includes_spec in H. congruence. }
      cbn [selected]. split.
      * rewrite List.in_app_iff. cbn [In]. tauto.
      * intros other Ho Hn. rewrite List.in_app_iff, In_without'. cbn [In].
        split; [intros [[H _]|[H|[]]]; [exact H | now symmetry in H] | tauto].
  - intros Hinv. unfold handleToggle.
    destruct (String.eqb id "none") eqn:He; [discriminate|].
    apply String.eqb_neq in He.
    destruct (includes (selected st) id) eqn:Hin.
    + destruct (String.eqb id "pain_medications") eqn:Hpm;
        cbn [selected showMedDropdown]; [discriminate|].
      apply String.eqb_neq in Hpm. intros Hshow.
      rewrite !In_without'. split; [split|].
      * now apply Hinv.
      * discriminate.
      * intros H. now symmetry in H.
    + cbn [selected showMedDropdown]. rewrite List.in_app_iff, In_without'.
      destruct (String.eqb id "pain_medications") eqn:Hpm.
      * apply String.eqb_eq in Hpm. intros _. right. left. exact Hpm.
      * intros Hshow. left. split; [now apply Hinv | discriminate].
  - rewrite <- Hnone, <- includes_spec. unfold handleContinue. cbn [snd].
    destruct (includes (selected (handleToggle id st)) "none");
      split; (reflexivity || discriminate).
  - assert (Hn : id <> "none" <-> ~ In "none" (selected (handleToggle id st)))
      by (rewrite Hnone; tauto).
    rewrite Hn, <- includes_spec. unfold handleContinue. cbn [snd].
    destruct (includes (selected (handleToggle id st)) "none"); split;
      try reflexivity; try discriminate; congruence.
Qed.

Lemma handleToggle_none_exclusive_witness :
  selected (handleToggle "none"
              (mkPageState ["physical_therapy"; "pain_medications"]
                 ["opioids"] true))
  = ["none"]
  /\ ~ In "none"
       (selected (handleToggle "surgery" (mkPageState ["none"] [] false))).
Proof.
  split.
  - apply (proj1 (proj2 (handleToggle_none_exclusive "none"
                           (mkPageState ["physical_therapy"; "pain_medications"]
                              ["opioids"] true)))).
    reflexivity.
  - intros Hin.
    apply (proj1 (handleToggle_none_exclusive "surgery"
                    (mkPageState ["none"] [] false))) in Hin.
    discriminate Hin.
Defined.

End PageProperties.
